(** * alertmanager-bot: the escalation engine of pkg/telegram

    A shallow embedding of the Go package [telegram]: the callback payload
    (callback.go), the member directory (member.go), the per-alert case
    [HandleAlert] with its operations (alert.go) and the registry kept by
    the dispatch loop of [Bot.Run] (bot.go).

    Go functions are embedded as state-passing functions.  A call either
    returns its Go results or panics; an [error] result is an ordinary
    value (nil is [None]) that the caller inspects, exactly as the source
    does with [if err != nil]. *)

From Stdlib Require Import ZArith Lia.
From stdpp Require Import base option list strings gmap.
From stdpp Require Import sorting.

Local Open Scope Z_scope.

(** ** Go values and control *)

(** A Go [error], by its message; [nil] is the absent error. *)
Definition error : Type := option string.
Definition nil_error : error := None.

Definition isNilErr (err : error) : bool :=
  match err with None => true | Some _ => false end.

(** The zero value of a Go string. *)
Definition zeroString : string := EmptyString.

(** How a call ends: with its results, or with a run-time panic. *)
Inductive Run (A : Type) : Type :=
| Return (a : A)
| Panic (msg : string).
Arguments Return {A} a.
Arguments Panic {A} msg.

(** A Go function over the mutable state [S]. The state is kept when the
    call panics: it is the state at the point of the panic. *)
Definition Go (S A : Type) : Type := S -> Run A * S.

Definition ret {S A} (a : A) : Go S A := fun s => (Return a, s).

Definition panic {S A} (msg : string) : Go S A := fun s => (Panic msg, s).

Definition bind {S A B} (m : Go S A) (k : A -> Go S B) : Go S B :=
  fun s =>
    match m s with
    | (Return a, s') => k a s'
    | (Panic msg, s') => (Panic msg, s')
    end.

Definition modify {S} (f : S -> S) : Go S unit := fun s => (Return tt, f s).

Declare Scope go_scope.
Delimit Scope go_scope with go.
Notation "'call' x ':=' m 'in' k" := (bind m (fun x => k))
  (at level 10, x name, m at level 100, k at level 200) : go_scope.
Notation "'call' ' p ':=' m 'in' k" := (bind m (fun x => match x with p => k end))
  (at level 10, p pattern, m at level 100, k at level 200) : go_scope.
Notation "'exec' m 'in' k" := (bind m (fun _ => k))
  (at level 10, m at level 100, k at level 200) : go_scope.
Local Open Scope go_scope.

(** [xs[i]] on a slice: out of range is a run-time panic. *)
Definition index {S A} (xs : list A) (i : Z) : Go S A :=
  if i <? 0 then panic "index out of range"
  else match xs !! Z.to_nat i with
       | Some x => ret x
       | None => panic "index out of range"
       end.

Definition len {A} (xs : list A) : Z := Z.of_nat (length xs).

(** ** Types of the vendored telebot client that the package uses *)

Module telebot.
Record Chat : Type := mkChat { ID : Z; Title : string }.

Record KeyboardButton : Type := mkButton { Text : string; Data : string }.

Inductive ParseMode : Type := ModeDefault | ModeMarkdown | ModeHTML.

(** [SendOptions]; [InlineKeyboard] is [ReplyMarkup.InlineKeyboard],
    the rows of inline buttons (none when left at its zero value). *)
Record SendOptions : Type := mkOptions {
  Mode : ParseMode;
  InlineKeyboard : list (list KeyboardButton)
}.

(** The fields of a [Callback] that the package reads. *)
Record Callback : Type := mkCallback {
  SenderID : Z;
  SenderUsername : string;
  MessageID : Z;
  CallbackData : string
}.

(** A request handed to the Telegram API. *)
Inductive Request : Type :=
| SendMessage (recipient : Chat) (message : string) (options : option SendOptions)
| EditMessageReplyMakeup (chat : Chat) (messageID : Z) (options : option SendOptions)
| EditInlineReplyMakeup (inlineMessageID : string) (options : option SendOptions).
End telebot.

(** ** callback.go *)

Record CallbackData : Type := mkCallbackData {
  Button : string;
  AlertID : string
}.

(** [NewCallbackData]: the pointer to the fresh struct is modelled by the
    struct itself. *)
Definition NewCallbackData (button alert : string) : CallbackData * error :=
  ({| Button := button; AlertID := alert |}, nil_error).

(** ** Levels (alert.go) *)

Definition HandleLevel : Type := string.

Definition levelOne : HandleLevel := "1".
Definition levelTwo : HandleLevel := "2".
Definition levelThree : HandleLevel := "3".

(** [AutoForwardTimeout = 5 * time.Minute], in nanoseconds. *)
Definition AutoForwardTimeout : Z := 5 * 60 * 1000000000.

Definition strAcknowledgeData : string := "Acknowledge".
Definition strForwardData : string := "Forward".

(** [fmt.Sprintf] at the three formats of the package. *)
Definition strAcknowledge (user : string) : string := "Acknowledge by: @" +:+ user.
Definition strForward (user target : string) : string :=
  "@" +:+ user +:+ " forward to @" +:+ target.
Definition strAutoForward (target : string) : string :=
  "Auto forward to next level @" +:+ target.

(** ** member.go and node.go: the records kept in the key-value store *)

Module Member.
Record t : Type := mk {
  Username : string;
  Level : HandleLevel;
  Chat : telebot.Chat
}.
End Member.
Abbreviation Member := Member.t.

Definition zeroChat : telebot.Chat := telebot.mkChat 0 zeroString.
Definition zeroMember : Member := Member.mk zeroString zeroString zeroChat.

Module NodeExported.
Record t : Type := mk { ID : string; Name : string; Owner : string }.
End NodeExported.
Abbreviation NodeExported := NodeExported.t.

(** ** The world outside the case

    Everything the operations reach through references: the clock, the
    two libkv-backed stores shared with the command handlers, the source
    behind [math/rand], the Telegram API, and the goroutines started. *)

Inductive Goroutine : Type :=
| GoAutoForward (alertID : string) (timeout : Z).

Record World : Type := mkWorld {
  now : Z;                              (* time.Now(), nanoseconds *)
  kvMembers : list Member + string;     (* outcome of MemberStore.List() *)
  kvNodes : list NodeExported + string; (* outcome of NodeStore.List() *)
  randRaw : nat -> Z;                   (* raw outputs of the random source *)
  randCalls : nat;                      (* how many were consumed *)
  tgReply : nat -> Z + string;          (* Telegram's answer to the n-th request:
                                           the message id, or an error *)
  outbox : list telebot.Request;        (* requests made so far, oldest first *)
  goroutines : list Goroutine           (* started with [go], oldest first *)
}.

Definition nextRand (w : World) : World :=
  mkWorld (now w) (kvMembers w) (kvNodes w) (randRaw w) (S (randCalls w))
          (tgReply w) (outbox w) (goroutines w).

Definition pushRequest (r : telebot.Request) (w : World) : World :=
  mkWorld (now w) (kvMembers w) (kvNodes w) (randRaw w) (randCalls w)
          (tgReply w) (outbox w ++ [r]) (goroutines w).

Definition spawn (g : Goroutine) (w : World) : World :=
  mkWorld (now w) (kvMembers w) (kvNodes w) (randRaw w) (randCalls w)
          (tgReply w) (outbox w) (goroutines w ++ [g]).

Definition advance (d : Z) (w : World) : World :=
  mkWorld (now w + d) (kvMembers w) (kvNodes w) (randRaw w) (randCalls w)
          (tgReply w) (outbox w) (goroutines w).

(** [time.Now] and [time.Sleep]. *)
Definition timeNow : Go World Z := fun w => (Return (now w), w).
Definition timeSleep (d : Z) : Go World unit := modify (advance d).

(** [math/rand]: [rand.Seed] re-seeds the source, whose outputs are taken
    as given; [rand.Intn n] panics when [n <= 0] and otherwise reduces
    the next raw output into [0, n). *)
Definition Seed (seed : Z) : Go World unit := ret tt.

Definition Intn (n : Z) : Go World Z :=
  fun w =>
    if n <=? 0 then (Panic "invalid argument to Intn", w)
    else (Return (randRaw w (randCalls w) mod n), nextRand w).

(** The two requests of the Telegram client. The request is recorded and
    the API's answer to it decides the results. *)
Definition tgSendMessage (recipient : telebot.Chat) (message : string)
    (options : option telebot.SendOptions) : Go World (Z * error) :=
  fun w =>
    let r := tgReply w (length (outbox w)) in
    let w' := pushRequest (telebot.SendMessage recipient message options) w in
    match r with
    | inl msgID => (Return (msgID, nil_error), w')
    | inr e => (Return (0, Some e), w')
    end.

Definition tgEditMessageReplyMakeup (chat : telebot.Chat) (messageID : Z)
    (options : option telebot.SendOptions) : Go World error :=
  fun w =>
    let r := tgReply w (length (outbox w)) in
    let w' := pushRequest (telebot.EditMessageReplyMakeup chat messageID options) w in
    match r with
    | inl _ => (Return nil_error, w')
    | inr e => (Return (Some e), w')
    end.

(** ** member.go, current revision *)

(** [MemberStore.List] *)
Definition MemberStore_List : Go World (list Member * error) :=
  fun w =>
    match kvMembers w with
    | inl members => (Return (members, nil_error), w)
    | inr e => (Return ([], Some e), w)
    end.

(** [MemberStore.GetMembersByChat] *)
Definition GetMembersByChat (chat : telebot.Chat) : Go World (list Member * error) :=
  call '(members, err) := MemberStore_List in
  if isNilErr err then
    ret (List.filter (fun ms => telebot.ID (Member.Chat ms) =? telebot.ID chat) members, err)
  else ret ([], err).

(** The members of [groupByChat] at [level]: the loop that fills
    [groupByLevel]. *)
Definition groupByLevel (level : string) (groupByChat : list Member) : list Member :=
  List.filter (fun mr => String.eqb (Member.Level mr) level) groupByChat.

(** [MemberStore.GetRandomMemberByChatandLevel] *)
Definition GetRandomMemberByChatandLevel (chat : telebot.Chat) (level : string)
    : Go World (Member * error) :=
  call '(groupByChat, err) := GetMembersByChat chat in
  if isNilErr err then
    let group := groupByLevel level groupByChat in
    call t := timeNow in
    exec Seed t in
    call i := Intn (len group) in
    call choosen := index group i in
    ret (choosen, nil_error)
  else ret (zeroMember, err).

(** ** alert.go, current revision: the case *)

Module template.
(** The alert a case was opened for; no operation reads it. *)
Record Alert : Type := mkAlert { Status : string; Labels : list (string * string) }.
End template.

(** [HandleAlert]. Its [MemberStore] and [NodeStore] fields are references
    to the bot's two stores, which live in the [World]. *)
Record HandleAlert : Type := mkHandleAlert {
  ID : string;
  MessageID : Z;
  Chat : telebot.Chat;
  Alert : template.Alert;
  Level : HandleLevel;
  LastUpdate : Z;
  AutoForwardFlag : bool
}.

Definition setMessageID (v : Z) (a : HandleAlert) : HandleAlert :=
  mkHandleAlert (ID a) v (Chat a) (Alert a) (Level a) (LastUpdate a) (AutoForwardFlag a).
Definition setLevel (v : HandleLevel) (a : HandleAlert) : HandleAlert :=
  mkHandleAlert (ID a) (MessageID a) (Chat a) (Alert a) v (LastUpdate a) (AutoForwardFlag a).
Definition setLastUpdate (v : Z) (a : HandleAlert) : HandleAlert :=
  mkHandleAlert (ID a) (MessageID a) (Chat a) (Alert a) (Level a) v (AutoForwardFlag a).
Definition setAutoForwardFlag (v : bool) (a : HandleAlert) : HandleAlert :=
  mkHandleAlert (ID a) (MessageID a) (Chat a) (Alert a) (Level a) (LastUpdate a) v.

(** A method with receiver [a *HandleAlert] runs over the case it points
    to and the world. *)
Definition St : Type := HandleAlert * World.

Definition this : Go St HandleAlert := fun s => (Return (fst s), s).

Definition onSelf {A} (m : Go HandleAlert A) : Go St A :=
  fun s => let '(r, a') := m (fst s) in (r, (a', snd s)).

Definition inWorld {A} (m : Go World A) : Go St A :=
  fun s => let '(r, w') := m (snd s) in (r, (fst s, w')).

(** [IncreaseLevel] *)
Definition IncreaseLevel : Go HandleAlert bool :=
  fun a =>
    if String.eqb (Level a) levelOne then (Return true, setLevel levelTwo a)
    else if String.eqb (Level a) levelTwo then (Return true, setLevel levelThree a)
    else (Return false, a).

Definition htmlOnly : telebot.SendOptions :=
  telebot.mkOptions telebot.ModeHTML [].

Definition htmlWithKeyboard (rows : list (list telebot.KeyboardButton))
    : telebot.SendOptions :=
  telebot.mkOptions telebot.ModeHTML rows.

(** [Acknowledge] *)
Definition Acknowledge (callback : telebot.Callback) : Go St error :=
  exec onSelf (modify (setAutoForwardFlag false)) in
  call a := this in
  let respString := strAcknowledge (telebot.SenderUsername callback) in
  call '(_, err) := inWorld (tgSendMessage (Chat a) respString None) in
  if negb (isNilErr err) then ret err else
  call err := inWorld (tgEditMessageReplyMakeup (Chat a) (MessageID a) (Some htmlOnly)) in
  if negb (isNilErr err) then ret err else
  ret nil_error.

(** [Forward] *)
Definition Forward (callback : telebot.Callback) (data : string) : Go St error :=
  exec onSelf IncreaseLevel in
  call a := this in
  call '(randMember, err) :=
    inWorld (GetRandomMemberByChatandLevel (Chat a) (Level a)) in
  if negb (isNilErr err) then ret err else
  let respString :=
    strForward (telebot.SenderUsername callback) (Member.Username randMember) in
  call '(_, err) := inWorld (tgSendMessage (Chat a) respString None) in
  if negb (isNilErr err) then ret err else
  call err :=
    inWorld (tgEditMessageReplyMakeup (Chat a) (MessageID a)
      (Some (htmlWithKeyboard [[telebot.mkButton strAcknowledgeData data]]))) in
  if negb (isNilErr err) then ret err else
  ret nil_error.

(** One pass through the body of the [for] loop of [AutoForward], entered
    with the flag set. [Some err] leaves the loop by [return err]; [None]
    goes back to the loop test after the sleep. *)
Definition AutoForward_pass (timeout : Z) : Go St (option error) :=
  call a := this in
  call t := inWorld timeNow in
  call left :=
    (if AutoForwardTimeout <=? t - LastUpdate a then
       call t' := inWorld timeNow in
       exec onSelf (modify (setLastUpdate t')) in
       exec onSelf IncreaseLevel in
       call a := this in
       call '(randMember, err) :=
         inWorld (GetRandomMemberByChatandLevel (Chat a) (Level a)) in
       if negb (isNilErr err) then ret (Some err) else
       let respString := strAutoForward (Member.Username randMember) in
       exec inWorld (tgSendMessage (Chat a) respString None) in
       ret None
     else ret None) in
  match left with
  | Some err => ret (Some err)
  | None => exec inWorld (timeSleep timeout) in ret None
  end.

(** [AutoForward], the polling loop, run for at most [fuel] passes with
    nothing else touching the case in between. [None]: still looping. *)
Fixpoint AutoForward (fuel : nat) (timeout : Z) : Go St (option error) :=
  match fuel with
  | O => ret None
  | S fuel' =>
      call a := this in
      if AutoForwardFlag a then
        call left := AutoForward_pass timeout in
        match left with
        | Some err => ret (Some err)
        | None => AutoForward fuel' timeout
        end
      else ret (Some nil_error)
  end.

(** [Resolved] *)
Definition Resolved (out : string) : Go St error :=
  exec onSelf (modify (setAutoForwardFlag false)) in
  call a := this in
  call '(_, err) := inWorld (tgSendMessage (Chat a) out (Some htmlOnly)) in
  if negb (isNilErr err) then ret err else
  call err := inWorld (tgEditMessageReplyMakeup (Chat a) (MessageID a) (Some htmlOnly)) in
  if negb (isNilErr err) then ret err else
  ret nil_error.

(** ** node.go *)

(** [NodeStore.List] *)
Definition NodeStore_List : Go World (list NodeExported * error) :=
  fun w =>
    match kvNodes w with
    | inl nodes => (Return (nodes, nil_error), w)
    | inr e => (Return ([], Some e), w)
    end.

(** ** Creating a case, and what the dispatch loop does with a button *)

Section Dispatch.
(** [json.Marshal] at [CallbackData], from the standard library. *)
Variable jsonMarshal : CallbackData -> string * error.

(** The loop of [NewAlert] over the nodes: the owner of the last node
    named like the alert, the empty string when there is none. *)
Definition ownerOf (id : string) (nodes : list NodeExported) : string :=
  fold_left
    (fun memberID n =>
       if String.eqb (NodeExported.Name n) id then NodeExported.Owner n
       else memberID)
    nodes zeroString.

(** [NewAlert]; the result is [(nil, err)] or [(a, nil)]. *)
Definition NewAlert (id : string) (chat : telebot.Chat) (alert : template.Alert)
    (out : string) : Go World (option HandleAlert * error) :=
  let '(ackData, err) := NewCallbackData strAcknowledgeData id in
  if negb (isNilErr err) then ret (None, err) else
  let '(jsonAckStr, err) := jsonMarshal ackData in
  if negb (isNilErr err) then ret (None, err) else
  let '(fwdData, err) := NewCallbackData strForwardData id in
  if negb (isNilErr err) then ret (None, err) else
  let '(jsonFwdStr, err) := jsonMarshal fwdData in
  if negb (isNilErr err) then ret (None, err) else
  call '(respMsgID, err) :=
    tgSendMessage chat out
      (Some (htmlWithKeyboard
         [[telebot.mkButton strAcknowledgeData jsonAckStr;
           telebot.mkButton strForwardData jsonFwdStr]])) in
  if negb (isNilErr err) then ret (None, err) else
  call t := timeNow in
  let a := mkHandleAlert id respMsgID chat alert levelOne t true in
  call '(nodes, err) := NodeStore_List in
  if negb (isNilErr err) then ret (None, err) else
  let memberID := ownerOf (ID a) nodes in
  call '(memberID, err) :=
    (if String.eqb memberID zeroString then
       call '(randMember, err) :=
         GetRandomMemberByChatandLevel (Chat a) (Level a) in
       if negb (isNilErr err) then ret (memberID, err)
       else ret (Member.Username randMember, nil_error)
     else ret (memberID, nil_error)) in
  if negb (isNilErr err) then ret (None, err) else
  exec modify (spawn (GoAutoForward (ID a) (5 * 1000000000))) in
  let respString := "@" +:+ memberID in
  call '(_, err) := tgSendMessage (Chat a) respString None in
  if negb (isNilErr err) then ret (None, err) else
  ret (Some a, nil_error).

(** [Bot.Run], the body run for one case [h] of the pressed button's
    alert; errors are logged and dropped. *)
Definition onAcknowledge (callback : telebot.Callback) : Go St unit :=
  exec onSelf (modify (setMessageID (telebot.MessageID callback))) in
  exec Acknowledge callback in
  ret tt.

Definition onForward (callback : telebot.Callback) : Go St unit :=
  exec onSelf (modify (setMessageID (telebot.MessageID callback))) in
  call h := this in
  let '(ackData, err) := NewCallbackData strAcknowledgeData (ID h) in
  if negb (isNilErr err) then ret tt else
  let '(jsonAckStr, _) := jsonMarshal ackData in
  exec Forward callback jsonAckStr in
  ret tt.
End Dispatch.

(** ** bot.go: the registry of the dispatch loop *)

(** A [*HandleAlert]. *)
Definition Ref : Type := nat.

(** [HandleAlerts[id]]: the nil slice when the key is absent. *)
Definition lookupAlerts (HandleAlerts : gmap string (list Ref)) (id : string)
    : list Ref :=
  default [] (HandleAlerts !! id).

Definition isNilSlice {A} (xs : list A) : bool :=
  match xs with [] => true | _ :: _ => false end.

(** [case a := <-alertchan] of [Bot.Run]; [deref] reads through the
    pointer. *)
Definition intake (deref : Ref -> HandleAlert)
    (HandleAlerts : gmap string (list Ref)) (a : Ref) : gmap string (list Ref) :=
  let id := ID (deref a) in
  if isNilSlice (lookupAlerts HandleAlerts id)
  then <[id := lookupAlerts HandleAlerts id ++ [a]]> HandleAlerts
  else HandleAlerts.

(** The bookkeeping of [sendWebhook] for resolved signals, its own map:
    [HandleAlerts[alert.ID] = append(HandleAlerts[alert.ID], alert)]. *)
Definition remember (deref : Ref -> HandleAlert)
    (HandleAlerts : gmap string (list Ref)) (a : Ref) : gmap string (list Ref) :=
  let id := ID (deref a) in
  <[id := lookupAlerts HandleAlerts id ++ [a]]> HandleAlerts.

(** ** The first revision of member.go and alert.go *)

Module Legacy.
Module Member.
Record t : Type := mk { ID : Z; Username : string; Level : string }.
End Member.

Module Members.
Record t : Type := mk { Chat : telebot.Chat; Members : list Member.t }.
End Members.

Definition zeroMembers : Members.t := Members.mk zeroChat [].

(** [MemberStore.GetMembersByChat] over what [List] returned. *)
Definition GetMembersByChat (kv : list Members.t + string) (chat : telebot.Chat)
    : Members.t * error :=
  match kv with
  | inr e => (zeroMembers, Some e)
  | inl members =>
      match List.find
              (fun ms => telebot.ID (Members.Chat ms) =? telebot.ID chat)
              members with
      | Some ms => (ms, nil_error)
      | None => (zeroMembers, nil_error)
      end
  end.

(** [Members.GetRandomMemberByLevel] *)
Definition GetRandomMemberByLevel (m : Members.t) (level : string)
    : Go World (string * error) :=
  let group :=
    List.filter (fun mr => String.eqb (Member.Level mr) level) (Members.Members m) in
  call t := timeNow in
  exec Seed t in
  call i := Intn (len group - 1) in
  call choosen := index group i in
  ret (Member.Username choosen, nil_error).

Definition levelOne : HandleLevel := "level1".
Definition levelTwo : HandleLevel := "level2".
Definition levelThree : HandleLevel := "level3".

(** [HandleAlert] of that revision; [MemberStore] is the content of the
    referenced store. *)
Record HandleAlert : Type := mkHandleAlert {
  ID : string;
  MemberStore : list Members.t + string;
  Chat : telebot.Chat;
  Alert : template.Alert;
  Level : HandleLevel;
  LastUpdate : Z;
  AutoForwardFlag : bool
}.

Definition setLevel (v : HandleLevel) (a : HandleAlert) : HandleAlert :=
  mkHandleAlert (ID a) (MemberStore a) (Chat a) (Alert a) v (LastUpdate a)
                (AutoForwardFlag a).

Definition IncreaseLevel : Go HandleAlert bool :=
  fun a =>
    if String.eqb (Level a) levelOne then (Return true, setLevel levelTwo a)
    else if String.eqb (Level a) levelTwo then (Return true, setLevel levelThree a)
    else (Return false, a).

Definition St : Type := HandleAlert * World.

Definition this : Go St HandleAlert := fun s => (Return (fst s), s).
Definition onSelf {A} (m : Go HandleAlert A) : Go St A :=
  fun s => let '(r, a') := m (fst s) in (r, (a', snd s)).
Definition inWorld {A} (m : Go World A) : Go St A :=
  fun s => let '(r, w') := m (snd s) in (r, (fst s, w')).

Definition tgEditInline (inlineMessageID : string)
    (options : option telebot.SendOptions) : Go World error :=
  fun w =>
    let r := tgReply w (length (outbox w)) in
    let w' := pushRequest (telebot.EditInlineReplyMakeup inlineMessageID options) w in
    match r with
    | inl _ => (Return nil_error, w')
    | inr e => (Return (Some e), w')
    end.

(** [Forward] *)
Definition Forward (callback : telebot.Callback) : Go St error :=
  call a := this in
  call err :=
    inWorld (tgEditInline (ID a)
      (Some (htmlWithKeyboard [[telebot.mkButton "Acknowledge" "Acknowledge"]]))) in
  if negb (isNilErr err) then ret err else
  exec onSelf IncreaseLevel in
  call a := this in
  let '(members, err) := GetMembersByChat (MemberStore a) (Chat a) in
  if negb (isNilErr err) then ret err else
  call '(randMember, err) := inWorld (GetRandomMemberByLevel members (Level a)) in
  if negb (isNilErr err) then ret err else
  let respString := strForward (telebot.SenderUsername callback) randMember in
  exec inWorld (tgSendMessage (Chat a) respString None) in
  ret nil_error.
End Legacy.

(** ** Vocabulary of the properties *)

(** The tier a level string names: 1, 2 or 3, and 0 for any other string. *)
Definition levelNumber (l : HandleLevel) : Z :=
  if String.eqb l levelOne then 1
  else if String.eqb l levelTwo then 2
  else if String.eqb l levelThree then 3
  else 0.

(** [l'] is not below [l]: the same level, or a higher tier. *)
Definition level_le (l l' : HandleLevel) : Prop :=
  l = l' \/ levelNumber l < levelNumber l'.

(** The level [IncreaseLevel] leaves behind. *)
Definition nextLevel (l : HandleLevel) : HandleLevel :=
  if String.eqb l levelOne then levelTwo
  else if String.eqb l levelTwo then levelThree
  else l.

(** The members of [chat] in a listing of the store. *)
Definition membersOfChat (chat : telebot.Chat) (members : list Member) : list Member :=
  List.filter (fun ms => telebot.ID (Member.Chat ms) =? telebot.ID chat) members.

(** The candidate set of a lookup: the members of [chat] at [level]. *)
Definition candidates (chat : telebot.Chat) (level : string) (members : list Member)
    : list Member :=
  groupByLevel level (membersOfChat chat members).

(** A case is terminal once its escalation flag is cleared. *)
Definition terminal (a : HandleAlert) : Prop := AutoForwardFlag a = false.

(** The button texts of the control row a request carries. *)
Definition controlsOf (options : option telebot.SendOptions) : list string :=
  match options with
  | Some o => map telebot.Text (concat (telebot.InlineKeyboard o))
  | None => []
  end.

Definition controls (r : telebot.Request) : list string :=
  match r with
  | telebot.SendMessage _ _ o => controlsOf o
  | telebot.EditMessageReplyMakeup _ _ o => controlsOf o
  | telebot.EditInlineReplyMakeup _ o => controlsOf o
  end.

(** The requests a call added to the outbox. *)
Definition sentBy {A} (m : Go St A) (s : St) : list telebot.Request :=
  drop (length (outbox (snd s))) (outbox (snd (snd (m s)))).

(** What can happen to a case once it is created: the two buttons, as
    the dispatch loop handles them, a resolved signal, one wake-up of the
    escalation goroutine, and anything else going on in the world. *)
Inductive Op : Type :=
| OpForward (callback : telebot.Callback)
| OpAcknowledge (callback : telebot.Callback)
| OpResolved (out : string)
| OpAutoForward (timeout : Z)
| OpWorld (f : World -> World).

Section Lifetime.
Variable jsonMarshal : CallbackData -> string * error.

Definition runOp (op : Op) (s : St) : St :=
  match op with
  | OpForward callback => snd (onForward jsonMarshal callback s)
  | OpAcknowledge callback => snd (onAcknowledge callback s)
  | OpResolved out => snd (Resolved out s)
  | OpAutoForward timeout => snd (AutoForward 1 timeout s)
  | OpWorld f => (fst s, f (snd s))
  end.

Definition runOps (ops : list Op) (s : St) : St := fold_left (fun s op => runOp op s) ops s.
End Lifetime.

(** ** Sample data *)

Module Sample.
Definition ops : telebot.Chat := telebot.mkChat 7 "ops".
Definition alice : Member := Member.mk "alice" levelOne ops.
Definition carol : Member := Member.mk "carol" levelTwo ops.
Definition erin : Member := Member.mk "erin" levelThree ops.

Definition bob : telebot.Callback := telebot.mkCallback 42 "bob" 900 "fwd".

(** A world at time [t] whose store lists [members], with a random
    source stuck at [r] and a Telegram API that accepts everything. *)
Definition world (t : Z) (members : list Member) (r : Z) : World :=
  mkWorld t (inl members) (inl []) (fun _ => r) 0 (fun n => inl (Z.of_nat n)) [] [].

Definition theAlert : template.Alert := template.mkAlert "firing" [].

Definition dave : Member := Member.mk "dave" levelTwo ops.

Definition caseAt (level : HandleLevel) (flag : bool) (lastUpdate : Z) : HandleAlert :=
  mkHandleAlert "X" 900 ops theAlert level lastUpdate flag.

Definition case (level : HandleLevel) (flag : bool) : HandleAlert :=
  caseAt level flag 100.

(** A member list of the first revision, all at level 2. *)
Definition legacyTwos (names : list string) : Legacy.Members.t :=
  Legacy.Members.mk ops (map (fun n => Legacy.Member.mk 0 n "2") names).

Definition marshal (cd : CallbackData) : string * error :=
  (Button cd +:+ ":" +:+ AlertID cd, nil_error).
End Sample.

(** ** Vocabulary of the proofs *)

(** The member a raw output [r] of the random source selects in [group]. *)
Definition pick (group : list Member) (r : Z) : option Member :=
  group !! Z.to_nat (r mod len group).

(** The options [Forward] edits the message with. *)
Definition forwardMarkup (data : string) : option telebot.SendOptions :=
  Some (htmlWithKeyboard [[telebot.mkButton strAcknowledgeData data]]).

(** [m] moves every state to an [R]-related one, however it ends. *)
Definition keeps {S A} (R : relation S) (m : Go S A) : Prop :=
  forall s, R s (snd (m s)).

(** A relation on the case and one on the world, side by side. *)
Definition both (Ra : relation HandleAlert) (Rw : relation World) : relation St :=
  fun s s' => Ra (fst s) (fst s') /\ Rw (snd s) (snd s').

(** The observation [f] is the same before and after. *)
Definition same {S X} (f : S -> X) : relation S := fun s s' => f s' = f s.

(** Anything may have happened. *)
Definition any {S} : relation S := fun _ _ => True.

(** The level did not go down. *)
Definition levelUp : relation HandleAlert :=
  fun a a' => level_le (Level a) (Level a').

(** ** Further vocabulary *)

(** A cleared escalation flag is not set again. *)
Definition flagDown : relation HandleAlert :=
  fun a a' => terminal a -> terminal a'.

(** The notice and the edit [Acknowledge] makes, and those of [Resolved]. *)
Definition ackNotice (cb : telebot.Callback) (a : HandleAlert) : telebot.Request :=
  telebot.SendMessage (Chat a) (strAcknowledge (telebot.SenderUsername cb)) None.

Definition resolvedNotice (out : string) (a : HandleAlert) : telebot.Request :=
  telebot.SendMessage (Chat a) out (Some htmlOnly).

Definition clearControls (a : HandleAlert) : telebot.Request :=
  telebot.EditMessageReplyMakeup (Chat a) (MessageID a) (Some htmlOnly).

(** The notice [Forward] sends for the member [m] it selected, and its
    edit of the control row. *)
Definition forwardNotice (cb : telebot.Callback) (a : HandleAlert) (m : Member)
    : telebot.Request :=
  telebot.SendMessage (Chat a)
    (strForward (telebot.SenderUsername cb) (Member.Username m)) None.

Definition forwardEdit (data : string) (a : HandleAlert) : telebot.Request :=
  telebot.EditMessageReplyMakeup (Chat a) (MessageID a) (forwardMarkup data).

(** The same for the first revision: the level its [IncreaseLevel] leaves
    behind, the candidate set of its lookup, and its edit. *)
Definition legacyNextLevel (l : HandleLevel) : HandleLevel :=
  if String.eqb l Legacy.levelOne then Legacy.levelTwo
  else if String.eqb l Legacy.levelTwo then Legacy.levelThree
  else l.

Definition legacyCandidates (kv : list Legacy.Members.t + string) (chat : telebot.Chat)
    (level : string) : list Legacy.Member.t :=
  List.filter (fun mr => String.eqb (Legacy.Member.Level mr) level)
    (Legacy.Members.Members (fst (Legacy.GetMembersByChat kv chat))).

Definition legacyForwardEdit (a : Legacy.HandleAlert) : telebot.Request :=
  telebot.EditInlineReplyMakeup (Legacy.ID a)
    (Some (htmlWithKeyboard [[telebot.mkButton "Acknowledge" "Acknowledge"]])).

(** The notice of an automatic escalation to [m]. *)
Definition autoNotice (a : HandleAlert) (m : Member) : telebot.Request :=
  telebot.SendMessage (Chat a) (strAutoForward (Member.Username m)) None.

(** Telegram's answer to the next request, and to the one after it. *)
Definition nextReply (w : World) : Z + string := tgReply w (length (outbox w)).
Definition secondReply (w : World) : Z + string := tgReply w (S (length (outbox w))).

(** The requests of [NewAlert]: the alert with its two buttons, and the
    message that tags the assignee; and the goroutine it starts. *)
Definition alertMessage (chat : telebot.Chat) (out jsonAckStr jsonFwdStr : string)
    : telebot.Request :=
  telebot.SendMessage chat out
    (Some (htmlWithKeyboard
       [[telebot.mkButton strAcknowledgeData jsonAckStr;
         telebot.mkButton strForwardData jsonFwdStr]])).

Definition tagMessage (chat : telebot.Chat) (memberID : string) : telebot.Request :=
  telebot.SendMessage chat ("@" +:+ memberID) None.

Definition escalationOf (id : string) : Goroutine :=
  GoAutoForward id (5 * 1000000000).

(** The last steps of [NewAlert] once the assignee is known: start the
    goroutine, send the tag, and return the case if Telegram took it. *)
Definition finishNewAlert (a : HandleAlert) (memberID : string) (w : World)
    : Run (option HandleAlert * error) * World :=
  let w1 := spawn (escalationOf (ID a)) w in
  (Return (match nextReply w1 with
           | inl _ => (Some a, nil_error)
           | inr e => (None, Some e)
           end),
   pushRequest (tagMessage (Chat a) memberID) w1).

(** The nodes of a listing that carry the name [id]. *)
Definition nodesNamed (id : string) (nodes : list NodeExported) : list NodeExported :=
  List.filter (fun n => String.eqb (NodeExported.Name n) id) nodes.

(** A node as [/addmember] registers it: no id, a name and an owner. *)
Definition nodeOf (name owner : string) : NodeExported :=
  NodeExported.mk zeroString name owner.

(** ** alert.go as bot.go calls it: the revision before the current one *)

Module Second.
(** [NewAlert] *)
Definition NewAlert (ID : string) (chat : telebot.Chat) (alert : template.Alert)
    : Go World (option HandleAlert * error) :=
  call t := timeNow in
  let a := mkHandleAlert ID 0 chat alert levelOne t true in
  call '(randMember, err) := GetRandomMemberByChatandLevel (Chat a) (Level a) in
  if negb (isNilErr err) then ret (None, err) else
  let respString := "@" +:+ Member.Username randMember in
  exec tgSendMessage (Chat a) respString None in
  exec modify (spawn (GoAutoForward ID (5 * 1000000000))) in
  ret (Some a, nil_error).

(** [Acknowledge] *)
Definition Acknowledge (callback : telebot.Callback) : Go St error :=
  call a := this in
  call err := inWorld (tgEditMessageReplyMakeup (Chat a) (MessageID a) (Some htmlOnly)) in
  if negb (isNilErr err) then ret err else
  exec onSelf (modify (setAutoForwardFlag false)) in
  let respString := strAcknowledge (telebot.SenderUsername callback) in
  exec inWorld (tgSendMessage (Chat a) respString None) in
  ret nil_error.

(** [Forward] *)
Definition Forward (callback : telebot.Callback) (data : string) : Go St error :=
  call a := this in
  call err :=
    inWorld (tgEditMessageReplyMakeup (Chat a) (MessageID a)
      (Some (htmlWithKeyboard [[telebot.mkButton strAcknowledgeData data]]))) in
  if negb (isNilErr err) then ret err else
  exec onSelf IncreaseLevel in
  call a := this in
  call '(randMember, err) :=
    inWorld (GetRandomMemberByChatandLevel (Chat a) (Level a)) in
  if negb (isNilErr err) then ret err else
  let respString :=
    strForward (telebot.SenderUsername callback) (Member.Username randMember) in
  exec inWorld (tgSendMessage (Chat a) respString None) in
  ret nil_error.

(** [Resolved] *)
Definition Resolved : Go St error :=
  call a := this in
  call err := inWorld (tgEditMessageReplyMakeup (Chat a) (MessageID a) (Some htmlOnly)) in
  if negb (isNilErr err) then ret err else
  exec onSelf (modify (setAutoForwardFlag false)) in
  ret nil_error.
End Second.

(** ** bot.go: the dispatch loop of [Bot.Run] *)

(** The cases behind the pointers. *)
Definition Heap : Type := Ref -> HandleAlert.

Definition poke (h : Ref) (a : HandleAlert) (heap : Heap) : Heap :=
  fun r => if Nat.eqb r h then a else heap r.

(** What the loop goroutine owns and reaches: its map [HandleAlerts], the
    cases the map points to, and the world. *)
Record Loop : Type := mkLoop {
  HandleAlerts : gmap string (list Ref);
  heap : Heap;
  world : World
}.

(** A method called through the pointer [h]. *)
Definition through {A} (h : Ref) (m : Go St A) : Go Loop A :=
  fun l =>
    let '(r, (a', w')) := m (heap l h, world l) in
    (r, mkLoop (HandleAlerts l) (poke h a' (heap l)) w').

(** [for _, x := range xs { body }]; the body says whether it leaves the
    loop by [break]. *)
Fixpoint rangeOver {S A} (xs : list A) (body : A -> Go S bool) : Go S unit :=
  match xs with
  | [] => ret tt
  | x :: xs' =>
      call stop := body x in
      if (stop : bool) then ret tt else rangeOver xs' body
  end.

Section Run.
(** [json.Marshal] at [CallbackData], and the [CallbackData] left in [cd]
    by the two [Decode] calls on the callback's data. *)
Variable jsonMarshal : CallbackData -> string * error.
Variable jsonDecode : string -> CallbackData.

(** The body of the loop over the cases of an acknowledged alert. *)
Definition acknowledgeBody (callback : telebot.Callback) : Go St bool :=
  exec onSelf (modify (setMessageID (telebot.MessageID callback))) in
  exec Second.Acknowledge callback in
  ret false.

(** The body of the loop over the cases of a forwarded alert. *)
Definition forwardBody (callback : telebot.Callback) : Go St bool :=
  exec onSelf (modify (setMessageID (telebot.MessageID callback))) in
  call h := this in
  let '(ackData, err) := NewCallbackData strAcknowledgeData (ID h) in
  if negb (isNilErr err) then ret true else
  let '(jsonAckStr, _) := jsonMarshal ackData in
  exec Second.Forward callback jsonAckStr in
  ret false.

(** [case callback := <-callbacks] *)
Definition onCallback (callback : telebot.Callback) : Go Loop unit :=
  fun l =>
    let cd := jsonDecode (telebot.CallbackData callback) in
    if String.eqb (Button cd) strAcknowledgeData then
      rangeOver (lookupAlerts (HandleAlerts l) (AlertID cd))
        (fun h => through h (acknowledgeBody callback)) l
    else if String.eqb (Button cd) strForwardData then
      rangeOver (lookupAlerts (HandleAlerts l) (AlertID cd))
        (fun h => through h (forwardBody callback)) l
    else (Return tt, l).

(** [case a := <-alertchan] *)
Definition onAlert (a : Ref) : Go Loop unit :=
  fun l => (Return tt, mkLoop (intake (heap l) (HandleAlerts l) a) (heap l) (world l)).

(** What the loop receives on its channels (chat messages apart). *)
Inductive Event : Type :=
| EvCallback (callback : telebot.Callback)
| EvAlert (a : Ref).

Definition onEvent (ev : Event) : Go Loop unit :=
  match ev with
  | EvCallback callback => onCallback callback
  | EvAlert a => onAlert a
  end.

(** The loop over a sequence of receptions; a panic ends it. *)
Fixpoint runLoop (events : list Event) : Go Loop unit :=
  match events with
  | [] => ret tt
  | ev :: events' => exec onEvent ev in runLoop events'
  end.
End Run.

(** Every list of the registry holds one pointer, to a case of that id. *)
Definition oneCasePerID (l : Loop) : Prop :=
  forall id refs,
    HandleAlerts l !! id = Some refs ->
    exists h, refs = [h] /\ ID (heap l h) = id.

(** What an Acknowledge press leaves of a case: the message id of the
    callback and a cleared flag. *)
Definition acknowledged (callback : telebot.Callback) (a : HandleAlert) : HandleAlert :=
  setAutoForwardFlag false (setMessageID (telebot.MessageID callback) a).

(** The loop kept its map, and every case its id. *)
Definition loopFrame : relation Loop :=
  fun l l' =>
    HandleAlerts l' = HandleAlerts l /\
    forall r, ID (heap l' r) = ID (heap l r).

(** ** bot.go: the administrators *)

(** The loop of [sort.Search]: the smallest index in [i, j) at which [f]
    holds, [j] when there is none, for an [f] that is false then true.
    The interval shrinks at every turn, so [j - i] turns are enough. *)
Fixpoint searchLoop (fuel : nat) (f : nat -> bool) (i j : nat) : nat :=
  match fuel with
  | O => i
  | S fuel' =>
      if (i <? j)%nat then
        let h := ((i + j) / 2)%nat in
        if negb (f h) then searchLoop fuel' f (h + 1)%nat j
        else searchLoop fuel' f i h
      else i
  end.

Definition Search (n : nat) (f : nat -> bool) : nat := searchLoop n f 0%nat n.

(** [sort.SearchInts a x]: [Search] with [a[i] >= x]. *)
Definition SearchInts (a : list Z) (x : Z) : nat :=
  Search (length a) (fun i => x <=? nth i a 0).

(** [sort.Ints]: the ascending arrangement of the slice. *)
Definition sortInts (a : list Z) : list Z := merge_sort Z.le a.

(** [Bot.isAdminID], on the [admins] field. *)
Definition isAdminID (admins : list Z) (id : Z) : bool :=
  let i := SearchInts admins id in
  (i <? length admins)%nat && (nth i admins 0 =? id).

(** [WithExtraAdmins], on the [admins] field. *)
Definition WithExtraAdmins (ids : list Z) (admins : list Z) : list Z :=
  sortInts (admins ++ ids).

(** The [admins] of a bot made by [NewBot] for [admin] with the options
    [WithExtraAdmins extras_1], [WithExtraAdmins extras_2], ... in order. *)
Definition adminsOfNewBot (admin : Z) (extras : list (list Z)) : list Z :=
  fold_left (fun admins ids => WithExtraAdmins ids admins) extras [admin].

(** ** member.go and node.go: writing to the key-value store *)

(** A call on the libkv store, and the store as the package sees it: the
    calls made so far and the error (or nil) it answers to the n-th. *)
Inductive KvCall : Type :=
| KvPut (key value : string)
| KvDelete (key : string).

Record Backend : Type := mkBackend {
  kvCalls : list KvCall;
  kvAnswer : nat -> error
}.

Definition kvCall (c : KvCall) : Go Backend error :=
  fun k => (Return (kvAnswer k (length (kvCalls k))),
            mkBackend (kvCalls k ++ [c]) (kvAnswer k)).

Definition telegramMembersDirectory : string := "telegram/members".
Definition telegramNodesDirectory : string := "telegram/nodes".

(** [fmt.Sprintf("%s/%s", dir, name)] *)
Definition kvKey (dir name : string) : string := dir +:+ "/" +:+ name.

Section Stores.
(** [json.Marshal] at the two stored records. *)
Variable jsonMember : Member -> string * error.
Variable jsonNode : NodeExported -> string * error.

(** [MemberStore.Add] *)
Definition MemberStore_Add (m : Member) : Go Backend error :=
  let '(b, err) := jsonMember m in
  if negb (isNilErr err) then ret err else
  let key := kvKey telegramMembersDirectory (Member.Username m) in
  kvCall (KvPut key b).

(** [MemberStore.Remove] *)
Definition MemberStore_Remove (m : Member) : Go Backend error :=
  let key := kvKey telegramMembersDirectory (Member.Username m) in
  kvCall (KvDelete key).

(** [NodeStore.Add] *)
Definition NodeStore_Add (n : NodeExported) : Go Backend error :=
  let '(b, err) := jsonNode n in
  if negb (isNilErr err) then ret err else
  let key := kvKey telegramNodesDirectory (NodeExported.ID n) in
  kvCall (KvPut key b).

(** [NodeStore.Remove] *)
Definition NodeStore_Remove (n : NodeExported) : Go Backend error :=
  let key := kvKey telegramNodesDirectory (NodeExported.ID n) in
  kvCall (KvDelete key).

(** ** bot.go: the commands that edit the directory *)

(** The fields of a [telebot.Message] that the handlers read. *)
Record Message : Type := mkMessage {
  MsgChat : telebot.Chat;
  MsgSenderID : Z;
  MsgSenderUsername : string;
  MsgText : string;
  MsgIsService : bool          (* what [message.IsService()] answers *)
}.

(** What a handler reaches: the store and Telegram. *)
Record Sys : Type := mkSys { backend : Backend; telegram : World }.

Definition inBackend {A} (m : Go Backend A) : Go Sys A :=
  fun s => let '(r, k') := m (backend s) in (r, mkSys k' (telegram s)).

Definition inTelegram {A} (m : Go World A) : Go Sys A :=
  fun s => let '(r, w') := m (telegram s) in (r, mkSys (backend s) w').

(** [strings.Split(s, " ")]: the fields between the spaces of [s], empty
    ones included; one field more than there are spaces. *)
Definition space : Ascii.ascii := Ascii.ascii_of_nat 32.

Fixpoint Split (s : string) : list string :=
  match s with
  | EmptyString => [EmptyString]
  | String c s' =>
      if Ascii.eqb c space then EmptyString :: Split s'
      else match Split s' with
           | f :: fs => String c f :: fs
           | [] => [String c EmptyString]
           end
  end.

Definition quote : string := String (Ascii.ascii_of_nat 34) EmptyString.
Definition newline : string := String (Ascii.ascii_of_nat 10) EmptyString.

Definition responseMember : string := "Already do your wish!" +:+ newline.
Definition addMemberFormat : string :=
  "Please send right format: '/addmember username level (node if level = 1)'. Ex: /addmember vu_long 1 httpd".
Definition addMemberLevel : string :=
  "Level need to be " +:+ quote +:+ "[1-3]" +:+ quote.
Definition addMemberFailed : string :=
  "I can't add this member to the subscribers list.".
Definition addNodeFailed : string :=
  "I can't add this node to the subscribers list.".
Definition removeMemberFormat : string :=
  "Please send right format: '/rmmember username'. Ex: /rmmember vu_long".
Definition removeMemberFailed : string :=
  "I can't remove this member to the subscribers list.".

(** [b.telegram.SendMessage(message.Chat, text, nil)], its results dropped. *)
Definition reply (message : Message) (text : string) : Go Sys unit :=
  exec inTelegram (tgSendMessage (MsgChat message) text None) in ret tt.

(** [Bot.handleAddMember] *)
Definition handleAddMember (message : Message) : Go Sys unit :=
  let params := Split (MsgText message) in
  if (len params <? 3) || (4 <? len params) then reply message addMemberFormat else
  call level := index params 2 in
  if negb (String.eqb level levelOne) && negb (String.eqb level levelTwo)
     && negb (String.eqb level levelThree)
  then reply message addMemberLevel else
  call username := index params 1 in
  let member := Member.mk username level (MsgChat message) in
  call err := inBackend (MemberStore_Add member) in
  if negb (isNilErr err) then reply message addMemberFailed else
  call stop :=
    (if String.eqb (Member.Level member) levelOne then
       call name := index params 3 in
       let node := NodeExported.mk zeroString name (Member.Username member) in
       call err := inBackend (NodeStore_Add node) in
       if negb (isNilErr err) then exec reply message addNodeFailed in ret true
       else ret false
     else ret false) in
  if (stop : bool) then ret tt else
  reply message responseMember.

(** [Bot.handleRemoveMember] *)
Definition handleRemoveMember (message : Message) : Go Sys unit :=
  let params := Split (MsgText message) in
  if negb (len params =? 2) then reply message removeMemberFormat else
  call username := index params 1 in
  let member := Member.mk username zeroString zeroChat in
  call err := inBackend (MemberStore_Remove member) in
  if negb (isNilErr err) then reply message removeMemberFailed else
  reply message responseMember.
End Stores.

(** The store after one more call, and a handler's state after a reply. *)
Definition called (c : KvCall) (k : Backend) : Backend :=
  mkBackend (kvCalls k ++ [c]) (kvAnswer k).

Definition replied (message : Message) (text : string) (s : Sys) : Sys :=
  mkSys (backend s)
        (pushRequest (telebot.SendMessage (MsgChat message) text None) (telegram s)).

(** The store's answer to the next call. *)
Definition nextAnswer (k : Backend) : error := kvAnswer k (length (kvCalls k)).

(** The three level strings [handleAddMember] accepts. *)
Definition validLevel (level : string) : bool :=
  String.eqb level levelOne || String.eqb level levelTwo || String.eqb level levelThree.

(** ** Sample data for the directory commands *)

Module SampleStore.
Definition jsonMember (m : Member) : string * error :=
  (Member.Username m +:+ "," +:+ Member.Level m, nil_error).
Definition jsonNode (n : NodeExported) : string * error :=
  (NodeExported.Name n +:+ "," +:+ NodeExported.Owner n, nil_error).

(** A store that accepts every call and a Telegram that accepts every
    request, nothing done yet. *)
Definition sys : Sys := mkSys (mkBackend [] (fun _ => nil_error)) (Sample.world 0 [] 0).

Definition said (text : string) : Message :=
  mkMessage Sample.ops 1 "admin" text false.
End SampleStore.

(** ** bot.go: [process], the gate in front of the commands *)

(** [strings.Replace] of a non-empty [old] by the empty string: the
    occurrences of [old] are removed, leftmost first and not overlapping.
    [skip] counts the characters of a found occurrence still to pass. *)
Fixpoint removeFrom (old : string) (skip : nat) (s : string) : string :=
  match s with
  | EmptyString => EmptyString
  | String c s' =>
      match skip with
      | S k => removeFrom old k s'
      | O =>
          if String.prefix old s then removeFrom old (String.length old - 1) s'
          else String c (removeFrom old 0 s')
      end
  end.

Definition RemoveAll (s old : string) : string :=
  match old with
  | EmptyString => s
  | String _ _ => removeFrom old 0 s
  end.

(** What [process] reaches besides the handlers' own state: the command
    counters, and the chat actions sent with Telegram's answers to them. *)
Record BotSt : Type := mkBotSt {
  sys : Sys;
  counters : gmap string nat;
  chatActions : list telebot.Chat;
  chatActionAnswer : nat -> error
}.

Definition inSys {A} (m : Go Sys A) : Go BotSt A :=
  fun st =>
    let '(r, s') := m (sys st) in
    (r, mkBotSt s' (counters st) (chatActions st) (chatActionAnswer st)).

(** [b.commandsCounter.WithLabelValues(label).Inc()] *)
Definition bump (label : string) (st : BotSt) : BotSt :=
  mkBotSt (sys st) (<[label := S (default 0%nat (counters st !! label))]> (counters st))
          (chatActions st) (chatActionAnswer st).

(** [b.telegram.SendChatAction(chat, telebot.Typing)] *)
Definition sendChatAction (chat : telebot.Chat) : Go BotSt error :=
  fun st =>
    (Return (chatActionAnswer st (length (chatActions st))),
     mkBotSt (sys st) (counters st) (chatActions st ++ [chat]) (chatActionAnswer st)).

Definition droppedMessage : string := "dropped message from forbidden sender".
Definition incomprehensible : string := "Sorry, I don't understand...".

(** The closure [process] of [Bot.Run], for a bot with the given admins,
    command suffix and table of handlers. *)
Definition process (admins : list Z) (commandSuffix : string)
    (commands : gmap string (Message -> Go BotSt unit)) (message : Message)
    : Go BotSt error :=
  if MsgIsService message then ret nil_error else
  if negb (isAdminID admins (MsgSenderID message)) then
    exec modify (bump "dropped") in
    ret (Some droppedMessage)
  else
  call err := sendChatAction (MsgChat message) in
  if negb (isNilErr err) then ret err else
  let text := RemoveAll (MsgText message) commandSuffix in
  call text := index (Split text) 0 in
  match commands !! text with
  | None =>
      exec modify (bump "incomprehensible") in
      exec inSys (reply message incomprehensible) in
      ret nil_error
  | Some handler =>
      exec modify (bump text) in
      exec handler message in
      ret nil_error
  end.

(** No space and no at-sign in a command name. *)
Fixpoint plainWord (s : string) : bool :=
  match s with
  | EmptyString => true
  | String c s' =>
      negb (Ascii.eqb c space) && negb (Ascii.eqb c (Ascii.ascii_of_nat 64))
      && plainWord s'
  end.

(** ["@" + b.telegram.Identity.Username] *)
Definition suffixOf (botName : string) : string :=
  String (Ascii.ascii_of_nat 64) botName.

(** The state after the chat action of [process]. *)
Definition typed (message : Message) (st : BotSt) : BotSt :=
  mkBotSt (sys st) (counters st) (chatActions st ++ [MsgChat message])
          (chatActionAnswer st).

(** ** bot.go: [sendWebhook] *)

(** The fields of a webhook message that [sendWebhook] reads:
    [GroupLabelValues] is [data.GroupLabels.Values()]. *)
Record Webhook : Type := mkWebhook {
  Status : string;
  GroupLabelValues : list string;
  Alerts : list template.Alert
}.

Definition AlertResolved : string := "resolved".
Definition AlertFiring : string := "firing".

(** What the webhook goroutine owns and reaches: its own map of cases,
    the cases behind the pointers and the next free pointer, the channel
    to the dispatch loop, the chat store and the world. *)
Record Hook : Type := mkHook {
  remembered : gmap string (list Ref);
  cases : Heap;
  fresh : Ref;
  alertchan : list Ref;
  kvChats : list telebot.Chat + string;
  hworld : World
}.

Definition inHookWorld {A} (m : Go World A) : Go Hook A :=
  fun l =>
    let '(r, w') := m (hworld l) in
    (r, mkHook (remembered l) (cases l) (fresh l) (alertchan l) (kvChats l) w').

(** A method called through the pointer [h]. *)
Definition throughHook {A} (h : Ref) (m : Go St A) : Go Hook A :=
  fun l =>
    let '(r, (a', w')) := m (cases l h, hworld l) in
    (r, mkHook (remembered l) (poke h a' (cases l)) (fresh l) (alertchan l) (kvChats l) w').

(** [NewAlert] with the pointer it returns: a fresh one on success. *)
Definition newAlertRef (id : string) (chat : telebot.Chat) (alert : template.Alert)
    : Go Hook (Ref * error) :=
  fun l =>
    match Second.NewAlert id chat alert (hworld l) with
    | (Return (Some a, err), w') =>
        (Return (fresh l, err),
         mkHook (remembered l) (poke (fresh l) a (cases l)) (S (fresh l))
                (alertchan l) (kvChats l) w')
    | (Return (None, err), w') =>
        (Return (0%nat, err),
         mkHook (remembered l) (cases l) (fresh l) (alertchan l) (kvChats l) w')
    | (Panic msg, w') =>
        (Panic msg,
         mkHook (remembered l) (cases l) (fresh l) (alertchan l) (kvChats l) w')
    end.

(** [alerts <- alert], then [HandleAlerts[alert.ID] = append(...)]. *)
Definition handOver (alert : Ref) (l : Hook) : Hook :=
  mkHook (remember (cases l) (remembered l) alert) (cases l) (fresh l)
         (alertchan l ++ [alert]) (kvChats l) (hworld l).

Section Webhooks.
Variable jsonMarshal : CallbackData -> string * error.
(** [b.templates.ExecuteHTMLString] on the message. *)
Variable render : Webhook -> string * error.

(** The body of the loop over the chats; true when it leaves by [break]. *)
Definition perChat (w : Webhook) (out id : string) (chat : telebot.Chat)
    : Go Hook bool :=
  if String.eqb (Status w) AlertResolved then
    fun l =>
      (if isNilSlice (lookupAlerts (remembered l) id) then ret false
       else
         exec rangeOver (lookupAlerts (remembered l) id)
                (fun h => exec throughHook h Second.Resolved in ret false) in
         ret false) l
  else if String.eqb (Status w) AlertFiring then
    let '(ackData, err) := NewCallbackData strAcknowledgeData id in
    if negb (isNilErr err) then ret true else
    let '(jsonAckStr, err) := jsonMarshal ackData in
    if negb (isNilErr err) then ret true else
    let '(fwdData, err) := NewCallbackData strForwardData id in
    if negb (isNilErr err) then ret true else
    let '(jsonFwdStr, err) := jsonMarshal fwdData in
    if negb (isNilErr err) then ret true else
    exec inHookWorld
      (tgSendMessage chat out
         (Some (htmlWithKeyboard
            [[telebot.mkButton strAcknowledgeData jsonAckStr;
              telebot.mkButton strForwardData jsonFwdStr]]))) in
    call alert0 := index (Alerts w) 0 in
    call '(alert, err) := newAlertRef id chat alert0 in
    if negb (isNilErr err) then ret true else
    exec modify (handOver alert) in
    ret false
  else ret false.

(** [case w := <-webhooks] of [sendWebhook]. *)
Definition onWebhook (w : Webhook) : Go Hook unit :=
  fun l =>
    match kvChats l with
    | inr _ => (Return tt, l)
    | inl chats =>
        let '(out, err) := render w in
        if negb (isNilErr err) then (Return tt, l) else
        (call id := index (GroupLabelValues w) 0 in
         rangeOver chats (perChat w out id)) l
    end.
End Webhooks.

(** Telegram takes every request. *)
Definition accepting (w : World) : Prop := forall n, exists i, tgReply w n = inl i.

(** A case as a resolved signal leaves it. *)
Definition resolved (a : HandleAlert) : HandleAlert := setAutoForwardFlag false a.

(** ** Sample data for the webhook goroutine *)

Module SampleHook.
Definition dev : telebot.Chat := telebot.mkChat 8 "dev".
Definition zed : Member := Member.mk "zed" levelOne dev.

(** Two chats subscribed, each with a member at level one; no case yet. *)
Definition hook : Hook :=
  mkHook ∅ (fun _ => Sample.case levelOne false) 1%nat []
         (inl [Sample.ops; dev]) (Sample.world 50 [Sample.alice; zed] 0).

Definition render (w : Webhook) : string * error := (Status w, nil_error).

Definition firing : Webhook := mkWebhook "firing" ["X"] [Sample.theAlert].
End SampleHook.

(** * Properties *)

(** ** The control monad *)

Section Keeps.
Context {S : Type} (R : relation S) `{!Reflexive R, !Transitive R}.

Lemma keeps_ret {A} (a : A) : keeps R (ret a).
Proof. intros s. simpl. reflexivity. Qed.

Lemma keeps_panic {A} msg : keeps R (@panic S A msg).
Proof. intros s. simpl. reflexivity. Qed.

Lemma keeps_bind {A B} (m : Go S A) (k : A -> Go S B) :
  keeps R m -> (forall a, keeps R (k a)) -> keeps R (bind m k).
Proof.
  intros Hm Hk s. unfold bind. specialize (Hm s).
  destruct (m s) as [[a|msg] s']; simpl in *.
  - etransitivity; [exact Hm|apply Hk].
  - exact Hm.
Qed.
End Keeps.

#[local] Instance same_refl {S X} (f : S -> X) : Reflexive (same f).
Proof. intros s. reflexivity. Qed.

#[local] Instance same_trans {S X} (f : S -> X) : Transitive (same f).
Proof. intros s1 s2 s3 H1 H2. unfold same in *. congruence. Qed.

#[local] Instance any_refl {S} : Reflexive (@any S).
Proof. intros s. exact I. Qed.

#[local] Instance any_trans {S} : Transitive (@any S).
Proof. intros s1 s2 s3 _ _. exact I. Qed.

#[local] Instance both_refl Ra Rw `{!Reflexive Ra, !Reflexive Rw} : Reflexive (both Ra Rw).
Proof. intros s. split; reflexivity. Qed.

#[local] Instance both_trans Ra Rw `{!Transitive Ra, !Transitive Rw} :
  Transitive (both Ra Rw).
Proof. intros s1 s2 s3 [H1 H2] [H3 H4]. split; etransitivity; eauto. Qed.

Lemma keeps_inWorld {A} Ra Rw `{!Reflexive Ra} (m : Go World A) :
  keeps Rw m -> keeps (both Ra Rw) (inWorld m).
Proof.
  intros H [a w]. unfold inWorld. simpl. specialize (H w).
  destruct (m w) as [r w']. simpl in *. split; [reflexivity|exact H].
Qed.

Lemma keeps_onSelf {A} Ra Rw `{!Reflexive Rw} (m : Go HandleAlert A) :
  keeps Ra m -> keeps (both Ra Rw) (onSelf m).
Proof.
  intros H [a w]. unfold onSelf. simpl. specialize (H a).
  destruct (m a) as [r a']. simpl in *. split; [exact H|reflexivity].
Qed.

Lemma keeps_this Ra Rw `{!Reflexive Ra, !Reflexive Rw} : keeps (both Ra Rw) this.
Proof. intros s. simpl. reflexivity. Qed.

Lemma keeps_modify {S} (R : relation S) (f : S -> S) :
  (forall s, R s (f s)) -> keeps R (modify f).
Proof. intros H s. apply H. Qed.

Lemma keeps_any {S A} (m : Go S A) : keeps any m.
Proof. intros s. exact I. Qed.

Ltac keeps_step :=
  lazymatch goal with
  | |- keeps _ (bind _ _) => apply keeps_bind; [try typeclasses eauto.. | | intros ?]
  | |- keeps _ (ret _) => apply keeps_ret; typeclasses eauto
  | |- keeps _ (panic _) => apply keeps_panic; typeclasses eauto
  | |- keeps any _ => apply keeps_any
  | |- keeps (both _ _) (inWorld _) => apply keeps_inWorld; [typeclasses eauto|]
  | |- keeps (both _ _) (onSelf _) => apply keeps_onSelf; [typeclasses eauto|]
  | |- keeps (both _ _) this => apply keeps_this; typeclasses eauto
  | |- keeps _ (match ?x with _ => _ end) => destruct x
  end.

Ltac keeps_auto := repeat keeps_step.

(** ** The level order *)

Lemma level_le_refl l : level_le l l.
Proof. left. reflexivity. Qed.

Lemma level_le_trans l1 l2 l3 : level_le l1 l2 -> level_le l2 l3 -> level_le l1 l3.
Proof.
  unfold level_le. intros [->|H12] [->|H23]; auto. right. lia.
Qed.

Lemma level_le_next l : level_le l (nextLevel l).
Proof.
  unfold nextLevel.
  destruct (String.eqb l levelOne) eqn:E1.
  { apply String.eqb_eq in E1. subst l. right. reflexivity. }
  destruct (String.eqb l levelTwo) eqn:E2.
  { apply String.eqb_eq in E2. subst l. right. reflexivity. }
  apply level_le_refl.
Qed.

#[local] Instance levelUp_refl : Reflexive levelUp.
Proof. intros a. apply level_le_refl. Qed.

#[local] Instance levelUp_trans : Transitive levelUp.
Proof. intros a1 a2 a3. apply level_le_trans. Qed.

(** ** [IncreaseLevel] *)

Lemma IncreaseLevel_state a :
  snd (IncreaseLevel a) = setLevel (nextLevel (Level a)) a.
Proof.
  unfold IncreaseLevel, nextLevel.
  destruct (String.eqb (Level a) levelOne); [reflexivity|].
  destruct (String.eqb (Level a) levelTwo); [reflexivity|].
  destruct a; reflexivity.
Qed.

Lemma IncreaseLevel_returns a : exists b, fst (IncreaseLevel a) = Return b.
Proof.
  unfold IncreaseLevel.
  destruct (String.eqb (Level a) levelOne); [eexists; reflexivity|].
  destruct (String.eqb (Level a) levelTwo); eexists; reflexivity.
Qed.

Lemma onSelf_IncreaseLevel a w :
  exists b,
    onSelf IncreaseLevel (a, w) = (Return b, (setLevel (nextLevel (Level a)) a, w)).
Proof.
  destruct (IncreaseLevel_returns a) as [b Hb].
  exists b. unfold onSelf. cbn [fst snd].
  rewrite <- (IncreaseLevel_state a), <- Hb.
  destruct (IncreaseLevel a); reflexivity.
Qed.

Lemma IncreaseLevel_levelUp : keeps levelUp IncreaseLevel.
Proof.
  intros a. unfold levelUp. rewrite IncreaseLevel_state. apply level_le_next.
Qed.

(** ** Levels along the operations *)

Lemma Forward_levelUp cb data : keeps (both levelUp any) (Forward cb data).
Proof.
  unfold Forward. keeps_auto. apply IncreaseLevel_levelUp.
Qed.

Lemma Acknowledge_levelUp cb : keeps (both levelUp any) (Acknowledge cb).
Proof.
  unfold Acknowledge. keeps_auto. apply keeps_modify. intros h. apply level_le_refl.
Qed.

Lemma Resolved_levelUp out : keeps (both levelUp any) (Resolved out).
Proof.
  unfold Resolved. keeps_auto. apply keeps_modify. intros h. apply level_le_refl.
Qed.

Lemma AutoForward_pass_levelUp timeout :
  keeps (both levelUp any) (AutoForward_pass timeout).
Proof.
  unfold AutoForward_pass. keeps_auto.
  - apply keeps_modify. intros h. apply level_le_refl.
  - apply IncreaseLevel_levelUp.
Qed.

Lemma AutoForward_levelUp fuel timeout :
  keeps (both levelUp any) (AutoForward fuel timeout).
Proof.
  induction fuel as [|fuel IH]; simpl.
  - keeps_auto.
  - keeps_auto; [apply AutoForward_pass_levelUp|exact IH].
Qed.

Lemma onForward_levelUp marshal cb : keeps (both levelUp any) (onForward marshal cb).
Proof.
  unfold onForward. keeps_auto.
  - apply keeps_modify. intros h. apply level_le_refl.
  - simpl. keeps_auto. apply Forward_levelUp.
Qed.

Lemma onAcknowledge_levelUp cb : keeps (both levelUp any) (onAcknowledge cb).
Proof.
  unfold onAcknowledge. keeps_auto.
  - apply keeps_modify. intros h. apply level_le_refl.
  - apply Acknowledge_levelUp.
Qed.

Lemma runOp_levelUp marshal op s : levelUp (fst s) (fst (runOp marshal op s)).
Proof.
  destruct op; simpl.
  - apply onForward_levelUp.
  - apply onAcknowledge_levelUp.
  - apply Resolved_levelUp.
  - apply (AutoForward_levelUp 1).
  - apply level_le_refl.
Qed.

Lemma runOps_levelUp marshal ops s : levelUp (fst s) (fst (runOps marshal ops s)).
Proof.
  revert s. induction ops as [|op ops IH]; intros s; simpl.
  - apply level_le_refl.
  - eapply level_le_trans; [apply (runOp_levelUp marshal op s)|apply IH].
Qed.

(** A case is created at level one, with its escalation flag set. *)
Lemma NewAlert_starts_at_levelOne marshal id chat alert out w a err w' :
  NewAlert marshal id chat alert out w = (Return (Some a, err), w') ->
  Level a = levelOne /\ AutoForwardFlag a = true /\ levelNumber (Level a) = 1.
Proof.
  intros H. unfold NewAlert, NewCallbackData, bind, ret, modify, timeNow in H.
  cbn [isNilErr negb nil_error] in H.
  repeat (match type of H with
          | context [match ?x with _ => _ end] => destruct x eqn:?
          end; cbn [isNilErr negb] in H; try discriminate H).
  all: injection H as <- _ _; auto.
Qed.

(** C6. Over the life of a case its level never goes down: after any
    run of operations on it (the Forward and Acknowledge buttons, a
    resolved signal, wake-ups of the escalation goroutine, and whatever
    else happens in the world), the level is the one it had at any
    earlier point of the run, or a higher tier. *)
Theorem level_never_decreases marshal (ops1 ops2 : list Op) (s : St) :
  level_le (Level (fst (runOps marshal ops1 s)))
           (Level (fst (runOps marshal (ops1 ++ ops2) s))).
Proof.
  unfold runOps. rewrite fold_left_app.
  apply (runOps_levelUp marshal ops2).
Qed.

(** The first revision of [IncreaseLevel] moves along its own three
    levels in the same way. *)
Lemma Legacy_IncreaseLevel_steps a :
  Legacy.Level (snd (Legacy.IncreaseLevel a)) = Legacy.Level a \/
  (Legacy.Level a = Legacy.levelOne /\
   Legacy.Level (snd (Legacy.IncreaseLevel a)) = Legacy.levelTwo) \/
  (Legacy.Level a = Legacy.levelTwo /\
   Legacy.Level (snd (Legacy.IncreaseLevel a)) = Legacy.levelThree).
Proof.
  unfold Legacy.IncreaseLevel.
  destruct (String.eqb (Legacy.Level a) Legacy.levelOne) eqn:E1.
  { apply String.eqb_eq in E1. right. left. auto. }
  destruct (String.eqb (Legacy.Level a) Legacy.levelTwo) eqn:E2.
  { apply String.eqb_eq in E2. right. right. auto. }
  left. reflexivity.
Qed.

(** ** callback.go *)

(** C10. [NewCallbackData] returns the payload made of its two
    arguments together with a nil error, so the test [err != nil] that
    its callers make on the result is always false. *)
Theorem NewCallbackData_never_fails (button alert : string) :
  Button (fst (NewCallbackData button alert)) = button /\
  AlertID (fst (NewCallbackData button alert)) = alert /\
  snd (NewCallbackData button alert) = nil_error /\
  negb (isNilErr (snd (NewCallbackData button alert))) = false.
Proof. repeat split. Qed.

(** In the dispatch loop the [break] after [NewCallbackData] is never
    taken: the Forward button always reaches [Forward], with the marshalled
    Acknowledge payload as data. *)
Lemma onForward_never_breaks marshal cb s :
  onForward marshal cb s =
  (exec onSelf (modify (setMessageID (telebot.MessageID cb))) in
   call h := this in
   exec Forward cb (fst (marshal (mkCallbackData strAcknowledgeData (ID h)))) in
   ret tt) s.
Proof.
  unfold onForward, NewCallbackData, bind. cbn [isNilErr negb nil_error].
  destruct (onSelf _ s) as [[[]|msg] s1]; [|reflexivity].
  destruct (this s1) as [[h|msg] s2]; [|reflexivity].
  destruct (marshal _) as [js e]. reflexivity.
Qed.

(** ** member.go: the lookup *)

Lemma GetMembersByChat_ok chat w ms :
  kvMembers w = inl ms ->
  GetMembersByChat chat w = (Return (membersOfChat chat ms, nil_error), w).
Proof.
  intros H. unfold GetMembersByChat, MemberStore_List, bind. rewrite H. reflexivity.
Qed.

Lemma GetMembersByChat_err chat w e :
  kvMembers w = inr e ->
  GetMembersByChat chat w = (Return ([], Some e), w).
Proof.
  intros H. unfold GetMembersByChat, MemberStore_List, bind. rewrite H. reflexivity.
Qed.

(** The store cannot be listed: the error is handed back. *)
Lemma lookup_store_error chat level w e :
  kvMembers w = inr e ->
  GetRandomMemberByChatandLevel chat level w = (Return (zeroMember, Some e), w).
Proof.
  intros H. unfold GetRandomMemberByChatandLevel, bind.
  rewrite (GetMembersByChat_err _ _ _ H). reflexivity.
Qed.

(** No member of the chat at the level: [rand.Intn 0] panics. *)
Lemma lookup_empty chat level w ms :
  kvMembers w = inl ms ->
  candidates chat level ms = [] ->
  GetRandomMemberByChatandLevel chat level w = (Panic "invalid argument to Intn", w).
Proof.
  intros H E. unfold GetRandomMemberByChatandLevel, bind.
  rewrite (GetMembersByChat_ok _ _ _ H). simpl.
  unfold candidates in E. rewrite E. reflexivity.
Qed.

Lemma len_pos {A} (xs : list A) : xs <> [] -> 0 < len xs.
Proof. unfold len. destruct xs; [congruence|]. simpl. lia. Qed.

Lemma pick_some group r : group <> [] -> exists m, pick group r = Some m /\ In m group.
Proof.
  intros Hne. unfold pick.
  pose proof (Z.mod_pos_bound r (len group) (len_pos group Hne)) as Hb.
  destruct (lookup_lt_is_Some_2 group (Z.to_nat (r mod len group))) as [m Hm].
  { unfold len in *. lia. }
  exists m. split; [exact Hm|].
  apply list_elem_of_In. eapply list_elem_of_lookup_2. exact Hm.
Qed.

(** Some member at the level: the one the random source picks comes back
    with a nil error. *)
Lemma lookup_pick chat level w ms m :
  kvMembers w = inl ms ->
  pick (candidates chat level ms) (randRaw w (randCalls w)) = Some m ->
  GetRandomMemberByChatandLevel chat level w = (Return (m, nil_error), nextRand w).
Proof.
  intros H P. unfold GetRandomMemberByChatandLevel, bind.
  rewrite (GetMembersByChat_ok _ _ _ H). simpl.
  fold (candidates chat level ms). unfold Intn.
  destruct (Z.leb_spec (len (candidates chat level ms)) 0) as [Hle|Hgt].
  - exfalso. unfold pick in P.
    assert (candidates chat level ms = []) as E.
    { unfold len in Hle. destruct (candidates chat level ms); [reflexivity|simpl in Hle; lia]. }
    rewrite E in P. rewrite lookup_nil in P. discriminate.
  - unfold index.
    pose proof (Z.mod_pos_bound (randRaw w (randCalls w)) _ Hgt) as Hb.
    destruct (Z.ltb_spec (randRaw w (randCalls w) mod len (candidates chat level ms)) 0);
      [lia|].
    unfold pick in P. rewrite P. reflexivity.
Qed.

(** In the current revision every candidate, the last one included, is
    the selected member for some output of the random source. *)
Lemma every_candidate_is_selectable chat level w ms (k : nat) m :
  kvMembers w = inl ms ->
  candidates chat level ms !! k = Some m ->
  randRaw w (randCalls w) = Z.of_nat k ->
  fst (GetRandomMemberByChatandLevel chat level w) = Return (m, nil_error).
Proof.
  intros H Hk Hr.
  rewrite (lookup_pick chat level w ms m H); [reflexivity|].
  unfold pick. rewrite Hr.
  apply lookup_lt_Some in Hk as Hlt.
  rewrite Z.mod_small by (unfold len; lia).
  rewrite Nat2Z.id. exact Hk.
Qed.

(** C3. A lookup whose candidate set is empty does not return an error:
    it panics inside [rand.Intn], in the current revision (chat [ops] has
    nobody at level 2) and in the first one alike. *)
Theorem empty_candidate_set_panics (t r : Z) :
  candidates Sample.ops levelTwo [Sample.alice] = [] /\
  fst (GetRandomMemberByChatandLevel Sample.ops levelTwo
         (Sample.world t [Sample.alice] r))
    = Panic "invalid argument to Intn" /\
  fst (Legacy.GetRandomMemberByLevel (Sample.legacyTwos []) "2" (Sample.world t [] r))
    = Panic "invalid argument to Intn".
Proof. repeat split. Qed.

(** C9. The selection of the first revision draws from
    [rand.Intn(len(group)-1)]: with a single candidate it panics, and with
    two it returns the first one whatever the random source gives, so the
    last candidate is never selected. *)
Theorem legacy_selection_never_reaches_last (w : World) :
  fst (Legacy.GetRandomMemberByLevel (Sample.legacyTwos ["carol"]) "2" w)
    = Panic "invalid argument to Intn" /\
  fst (Legacy.GetRandomMemberByLevel (Sample.legacyTwos ["carol"; "dave"]) "2" w)
    = Return ("carol", nil_error).
Proof.
  split; [reflexivity|].
  unfold Legacy.GetRandomMemberByLevel, bind, timeNow, Seed, ret, Intn. simpl.
  rewrite Z.mod_1_r. reflexivity.
Qed.

(** In general the first revision draws an index below
    [len(group) - 1]: the member it returns is never taken from the last
    position. *)
Lemma Legacy_selection_index (m : Legacy.Members.t) (level : string) (w : World) :
  let group :=
    List.filter (fun mr => String.eqb (Legacy.Member.Level mr) level)
                (Legacy.Members.Members m) in
  2 <= len group ->
  exists (k : nat) mr,
    (k < length group - 1)%nat /\
    group !! k = Some mr /\
    fst (Legacy.GetRandomMemberByLevel m level w)
    = Return (Legacy.Member.Username mr, nil_error).
Proof.
  intros group H2. unfold Legacy.GetRandomMemberByLevel. fold group.
  unfold bind, timeNow, Seed, ret, Intn. cbn [fst snd].
  destruct (Z.leb_spec (len group - 1) 0) as [Hle|Hgt]; [lia|].
  pose proof (Z.mod_pos_bound (randRaw w (randCalls w)) _ Hgt) as Hb.
  set (i := randRaw w (randCalls w) mod (len group - 1)) in *.
  unfold index.
  destruct (Z.ltb_spec i 0); [lia|].
  destruct (lookup_lt_is_Some_2 group (Z.to_nat i)) as [mr Hmr].
  { unfold len in *. lia. }
  exists (Z.to_nat i), mr.
  split; [unfold len in *; lia|]. split; [exact Hmr|].
  rewrite Hmr. reflexivity.
Qed.

(** ** The Telegram client *)

Lemma tgSendMessage_run chat msg o w :
  exists i err,
    tgSendMessage chat msg o w
    = (Return (i, err), pushRequest (telebot.SendMessage chat msg o) w).
Proof.
  unfold tgSendMessage. destruct (tgReply w (length (outbox w))); eauto.
Qed.

Lemma tgEditMessageReplyMakeup_run chat id o w :
  exists err,
    tgEditMessageReplyMakeup chat id o w
    = (Return err, pushRequest (telebot.EditMessageReplyMakeup chat id o) w).
Proof.
  unfold tgEditMessageReplyMakeup. destruct (tgReply w (length (outbox w))); eauto.
Qed.

Lemma tgSendMessage_same {X} (f : World -> X) chat msg o :
  (forall r w, f (pushRequest r w) = f w) -> keeps (same f) (tgSendMessage chat msg o).
Proof.
  intros H w. destruct (tgSendMessage_run chat msg o w) as (i & err & ->). apply H.
Qed.

Lemma tgEditMessageReplyMakeup_same {X} (f : World -> X) chat id o :
  (forall r w, f (pushRequest r w) = f w) ->
  keeps (same f) (tgEditMessageReplyMakeup chat id o).
Proof.
  intros H w. destruct (tgEditMessageReplyMakeup_run chat id o w) as (err & ->). apply H.
Qed.

(** The lookup touches nothing of the world but the random source. *)
Lemma lookup_same {X} (f : World -> X) chat level :
  (forall w, f (nextRand w) = f w) ->
  keeps (same f) (GetRandomMemberByChatandLevel chat level).
Proof.
  intros H w. unfold same.
  destruct (kvMembers w) as [ms|e] eqn:E.
  - destruct (candidates chat level ms) as [|m0 group] eqn:G.
    + rewrite (lookup_empty chat level w ms E G). reflexivity.
    + destruct (pick_some (m0 :: group) (randRaw w (randCalls w))) as (m & Hm & _);
        [discriminate|].
      rewrite <- G in Hm. rewrite (lookup_pick chat level w ms m E Hm). apply H.
  - rewrite (lookup_store_error chat level w e E). reflexivity.
Qed.

(** ** [Forward], step by step *)

Lemma Forward_unfold cb data a w :
  Forward cb data (a, w) =
  let a1 := setLevel (nextLevel (Level a)) a in
  match GetRandomMemberByChatandLevel (Chat a) (nextLevel (Level a)) w with
  | (Panic msg, w1) => (Panic msg, (a1, w1))
  | (Return (randMember, err), w1) =>
      if isNilErr err then
        match tgSendMessage (Chat a)
                (strForward (telebot.SenderUsername cb) (Member.Username randMember))
                None w1 with
        | (Panic msg, w2) => (Panic msg, (a1, w2))
        | (Return (_, err), w2) =>
            if isNilErr err then
              match tgEditMessageReplyMakeup (Chat a) (MessageID a)
                      (forwardMarkup data) w2 with
              | (Panic msg, w3) => (Panic msg, (a1, w3))
              | (Return err, w3) => (Return err, (a1, w3))
              end
            else (Return err, (a1, w2))
        end
      else (Return err, (a1, w1))
  end.
Proof.
  unfold Forward. unfold bind at 1.
  destruct (onSelf_IncreaseLevel a w) as [b ->].
  unfold bind, this, inWorld, ret. cbn [fst snd].
  replace (Chat (setLevel (nextLevel (Level a)) a)) with (Chat a) by reflexivity.
  replace (Level (setLevel (nextLevel (Level a)) a)) with (nextLevel (Level a))
    by reflexivity.
  replace (MessageID (setLevel (nextLevel (Level a)) a)) with (MessageID a)
    by reflexivity.
  destruct (GetRandomMemberByChatandLevel (Chat a) (nextLevel (Level a)) w)
    as [[[m err]|msg] w1]; [|reflexivity].
  destruct err as [e|]; [reflexivity|]. cbn [isNilErr negb fst snd].
  destruct (tgSendMessage _ _ _ w1) as [[[i err]|msg] w2]; [|reflexivity].
  destruct err as [e|]; [reflexivity|]. cbn [isNilErr negb fst snd].
  unfold forwardMarkup.
  destruct (tgEditMessageReplyMakeup _ _ _ w2) as [[err|msg] w3]; [|reflexivity].
  destruct err; reflexivity.
Qed.

(** Whatever the outcome, the case [Forward] leaves is the one it got
    with [IncreaseLevel] applied: no other field is written. *)
Lemma Forward_case cb data a w :
  fst (snd (Forward cb data (a, w))) = setLevel (nextLevel (Level a)) a.
Proof.
  rewrite Forward_unfold. cbv zeta.
  destruct (GetRandomMemberByChatandLevel _ _ w) as [[[m err]|msg] w1]; [|reflexivity].
  destruct (isNilErr err); [|reflexivity].
  destruct (tgSendMessage _ _ _ w1) as [[[i err']|msg] w2]; [|reflexivity].
  destruct (isNilErr err'); [|reflexivity].
  destruct (tgEditMessageReplyMakeup _ _ _ w2) as [[err''|msg] w3]; reflexivity.
Qed.

(** With a member [m] selected, [Forward] sends the notice naming [m];
    when Telegram accepts it, the edit of the control row follows. *)
Lemma Forward_sent cb data a w ms m :
  kvMembers w = inl ms ->
  pick (candidates (Chat a) (nextLevel (Level a)) ms) (randRaw w (randCalls w)) = Some m ->
  sentBy (Forward cb data) (a, w) =
  forwardNotice cb a m ::
  match nextReply w with
  | inl _ => [forwardEdit data a]
  | inr _ => []
  end.
Proof.
  intros H P. unfold sentBy. rewrite Forward_unfold. cbv zeta.
  rewrite (lookup_pick _ _ w ms m H P). cbn [isNilErr nil_error].
  unfold tgSendMessage.
  change (tgReply (nextRand w) (length (outbox (nextRand w)))) with (nextReply w).
  destruct (nextReply w) as [i|e]; cbn [isNilErr fst snd].
  - unfold tgEditMessageReplyMakeup.
    match goal with |- context [tgReply ?w0 ?n] => destruct (tgReply w0 n) end;
      cbn [fst snd]; simpl; rewrite <- app_assoc; apply drop_app_length.
  - simpl. apply drop_app_length.
Qed.

Lemma Legacy_IncreaseLevel_state a :
  snd (Legacy.IncreaseLevel a) = Legacy.setLevel (legacyNextLevel (Legacy.Level a)) a.
Proof.
  unfold Legacy.IncreaseLevel, legacyNextLevel.
  destruct (String.eqb (Legacy.Level a) Legacy.levelOne); [reflexivity|].
  destruct (String.eqb (Legacy.Level a) Legacy.levelTwo); [reflexivity|].
  destruct a. reflexivity.
Qed.

(** ** A lookup that fails in the middle of [Forward] *)

(** C2, as the specification states it, fails: the level has moved from
    1 to 2 although the lookup found nobody at level 2, be it by a panic
    on the empty candidate set or by an error of the store. *)
Lemma failed_lookup_level_has_moved :
  let s := (Sample.case levelOne true, Sample.world 200 [Sample.alice] 0) in
  let s' := (Sample.case levelOne true,
             mkWorld 200 (inr "kv down") (inl []) (fun _ => 0) 0
                     (fun n => inl (Z.of_nat n)) [] []) in
  candidates Sample.ops levelTwo [Sample.alice] = [] /\
  fst (Forward Sample.bob "ack" s) = Panic "invalid argument to Intn" /\
  Level (fst (snd (Forward Sample.bob "ack" s))) = levelTwo /\
  fst (Forward Sample.bob "ack" s') = Return (Some "kv down") /\
  Level (fst (snd (Forward Sample.bob "ack" s'))) = levelTwo /\
  Level (fst (snd (Forward Sample.bob "ack" s))) <> Level (fst s).
Proof. repeat split. discriminate. Qed.

Lemma Second_Forward_unfold cb data a w :
  Second.Forward cb data (a, w) =
  match nextReply w with
  | inr e => (Return (Some e), (a, pushRequest (forwardEdit data a) w))
  | inl _ =>
      let a1 := setLevel (nextLevel (Level a)) a in
      match GetRandomMemberByChatandLevel (Chat a) (nextLevel (Level a))
              (pushRequest (forwardEdit data a) w) with
      | (Panic msg, w1) => (Panic msg, (a1, w1))
      | (Return (m, err), w1) =>
          if isNilErr err
          then (Return nil_error, (a1, pushRequest (forwardNotice cb a m) w1))
          else (Return err, (a1, w1))
      end
  end.
Proof.
  unfold Second.Forward.
  unfold bind at 1. unfold this at 1. cbn [fst snd].
  unfold bind at 1. unfold inWorld at 1. cbn [fst snd].
  unfold tgEditMessageReplyMakeup at 1. fold (nextReply w).
  destruct (nextReply w) as [i|e]; cbn [isNilErr negb nil_error]; [|reflexivity].
  unfold bind at 1.
  destruct (onSelf_IncreaseLevel a
              (pushRequest (telebot.EditMessageReplyMakeup (Chat a) (MessageID a)
                 (Some (htmlWithKeyboard [[telebot.mkButton strAcknowledgeData data]]))) w))
    as [b ->].
  unfold bind, this, inWorld, ret. cbn [fst snd].
  replace (Chat (setLevel (nextLevel (Level a)) a)) with (Chat a) by reflexivity.
  replace (Level (setLevel (nextLevel (Level a)) a)) with (nextLevel (Level a))
    by reflexivity.
  unfold forwardEdit, forwardMarkup.
  destruct (GetRandomMemberByChatandLevel (Chat a) (nextLevel (Level a)) _)
    as [[[m err]|msg] w1]; [|reflexivity].
  destruct err as [e|]; [reflexivity|]. cbn [isNilErr negb fst snd].
  unfold tgSendMessage. destruct (tgReply w1 _); reflexivity.
Qed.

Lemma Legacy_Forward_failed cb la w i :
  legacyCandidates (Legacy.MemberStore la) (Legacy.Chat la)
    (legacyNextLevel (Legacy.Level la)) = [] ->
  nextReply w = inl i ->
  exists r,
    r <> Return nil_error /\
    Legacy.Forward cb (la, w)
    = (r, (Legacy.setLevel (legacyNextLevel (Legacy.Level la)) la,
           pushRequest (legacyForwardEdit la) w)).
Proof.
  intros H Hi. unfold Legacy.Forward.
  unfold bind at 1. unfold Legacy.this at 1. cbn [fst snd].
  unfold bind at 1. unfold Legacy.inWorld at 1. cbn [fst snd].
  unfold Legacy.tgEditInline at 1. fold (nextReply w). rewrite Hi.
  cbn [isNilErr negb nil_error]. fold (legacyForwardEdit la).
  unfold bind at 1. unfold Legacy.onSelf at 1. cbn [fst snd].
  pose proof (Legacy_IncreaseLevel_state la) as Hs.
  assert (exists b, fst (Legacy.IncreaseLevel la) = Return b) as [b Hb].
  { unfold Legacy.IncreaseLevel.
    destruct (String.eqb (Legacy.Level la) Legacy.levelOne); [eauto|].
    destruct (String.eqb (Legacy.Level la) Legacy.levelTwo); eauto. }
  destruct (Legacy.IncreaseLevel la) as [r la1]. cbn [fst snd] in Hs, Hb. subst r la1.
  unfold bind at 1. unfold Legacy.this at 1. cbn [fst snd].
  unfold legacyCandidates in H.
  replace (Legacy.MemberStore (Legacy.setLevel (legacyNextLevel (Legacy.Level la)) la))
    with (Legacy.MemberStore la) by reflexivity.
  replace (Legacy.Chat (Legacy.setLevel (legacyNextLevel (Legacy.Level la)) la))
    with (Legacy.Chat la) by reflexivity.
  replace (Legacy.Level (Legacy.setLevel (legacyNextLevel (Legacy.Level la)) la))
    with (legacyNextLevel (Legacy.Level la)) by reflexivity.
  destruct (Legacy.GetMembersByChat (Legacy.MemberStore la) (Legacy.Chat la))
    as [members [e|]]; cbn [fst isNilErr negb] in *.
  + eexists. split; [|reflexivity]. discriminate.
  + unfold bind at 1. unfold Legacy.inWorld at 1. cbn [fst snd].
    unfold Legacy.GetRandomMemberByLevel. rewrite H.
    eexists. split; [|reflexivity]. discriminate.
Qed.

(** C2, amended. When the lookup of [Forward] finds no member at the
    requested level (or cannot list the store), the call does not report
    success, and the case keeps every field but the level, which
    [IncreaseLevel] has already advanced. What has gone to Telegram by
    then depends on the revision. The current [Forward] looks up before
    any request: nothing was sent and the world is as before. The two
    [Forward]s of alert.go edit the control row first and reach the
    lookup only when Telegram accepted the edit: that edit is the one
    request made. *)
Theorem Forward_failed_lookup cb data a w (la : Legacy.HandleAlert) :
  ((forall ms, kvMembers w = inl ms ->
               candidates (Chat a) (nextLevel (Level a)) ms = []) ->
   (fst (Forward cb data (a, w)) <> Return nil_error /\
    sentBy (Forward cb data) (a, w) = [] /\
    snd (Forward cb data (a, w)) = (setLevel (nextLevel (Level a)) a, w)) /\
   (forall i, nextReply w = inl i ->
      fst (Second.Forward cb data (a, w)) <> Return nil_error /\
      snd (Second.Forward cb data (a, w))
      = (setLevel (nextLevel (Level a)) a, pushRequest (forwardEdit data a) w))) /\
  (legacyCandidates (Legacy.MemberStore la) (Legacy.Chat la)
     (legacyNextLevel (Legacy.Level la)) = [] ->
   forall i, nextReply w = inl i ->
     fst (Legacy.Forward cb (la, w)) <> Return nil_error /\
     snd (Legacy.Forward cb (la, w))
     = (Legacy.setLevel (legacyNextLevel (Legacy.Level la)) la,
        pushRequest (legacyForwardEdit la) w)).
Proof.
  split.
  - intros H. split.
    + unfold sentBy. rewrite Forward_unfold. cbv zeta.
      destruct (kvMembers w) as [ms|e] eqn:E.
      * rewrite (lookup_empty _ _ w ms E (H ms eq_refl)). cbn [fst snd].
        rewrite drop_all. repeat split. discriminate.
      * rewrite (lookup_store_error _ _ w e E). cbn [fst snd isNilErr].
        rewrite drop_all. repeat split. discriminate.
    + intros i Hi. rewrite Second_Forward_unfold, Hi. cbv zeta.
      destruct (kvMembers w) as [ms|e] eqn:E.
      * rewrite (lookup_empty _ _ (pushRequest (forwardEdit data a) w) ms E
                   (H ms eq_refl)).
        split; [discriminate|reflexivity].
      * rewrite (lookup_store_error _ _ (pushRequest (forwardEdit data a) w) e E).
        split; [discriminate|reflexivity].
  - intros H i Hi.
    destruct (Legacy_Forward_failed cb la w i H Hi) as (r & Hr & ->).
    split; [exact Hr|reflexivity].
Qed.

Lemma Forward_failed_lookup_witness :
  let s := (Sample.case levelOne true, Sample.world 200 [Sample.alice] 0) in
  let la := Legacy.mkHandleAlert "X" (inl [Sample.legacyTwos []]) Sample.ops
              Sample.theAlert Legacy.levelOne 100 true in
  (fst (Forward Sample.bob "ack" s) <> Return nil_error /\
   sentBy (Forward Sample.bob "ack") s = [] /\
   snd (Forward Sample.bob "ack" s) = (Sample.case levelTwo true, snd s)) /\
  snd (Second.Forward Sample.bob "ack" s)
  = (Sample.case levelTwo true,
     pushRequest (forwardEdit "ack" (Sample.case levelOne true)) (snd s)) /\
  snd (Legacy.Forward Sample.bob (la, snd s))
  = (Legacy.setLevel Legacy.levelTwo la, pushRequest (legacyForwardEdit la) (snd s)).
Proof.
  intros s la.
  destruct (Forward_failed_lookup Sample.bob "ack" (Sample.case levelOne true)
              (Sample.world 200 [Sample.alice] 0) la) as [Hnew Hold].
  destruct Hnew as [Hcur Hsec].
  { intros ms H. injection H as <-. reflexivity. }
  split; [exact Hcur|]. split.
  - exact (proj2 (Hsec 0 eq_refl)).
  - exact (proj2 (Hold eq_refl 0 eq_refl)).
Defined.

(** The first revision does the same after having already replaced the
    control row. *)
Lemma Legacy_lookup_failure_after_edit :
  let a := Legacy.mkHandleAlert "X" (inl [Sample.legacyTwos []]) Sample.ops
             Sample.theAlert Legacy.levelOne 100 true in
  let r := Legacy.Forward Sample.bob (a, Sample.world 200 [] 0) in
  fst r = Panic "invalid argument to Intn" /\
  Legacy.Level (fst (snd r)) = Legacy.levelTwo /\
  length (outbox (snd (snd r))) = 1%nat.
Proof. repeat split. Qed.

(** ** [Forward] at the last level *)

(** C4, as the specification states it, fails: at level 3 a member of
    level 3 is looked up and the forward notice is sent. *)
Lemma levelThree_case_is_still_notified :
  let s := (Sample.case levelThree true,
            Sample.world 200 [Sample.alice; Sample.carol; Sample.erin] 0) in
  Level (fst s) = levelThree /\
  fst (Forward Sample.bob "ack" s) = Return nil_error /\
  sentBy (Forward Sample.bob "ack") s =
    [telebot.SendMessage Sample.ops "@bob forward to @erin" None;
     telebot.EditMessageReplyMakeup Sample.ops 900 (forwardMarkup "ack")] /\
  sentBy (Forward Sample.bob "ack") s <> [].
Proof. repeat split. discriminate. Qed.

(** C4, amended. For a case at level 3 [Forward] leaves the level at 3;
    it still looks up a member of the chat at level 3 and, one being
    selected, sends the forward notice naming that member. When Telegram
    accepts the notice, the edit that leaves the Acknowledge button alone
    in the control row follows; when it rejects the notice, the notice
    is the only request. *)
Theorem Forward_at_levelThree cb data a w :
  Level a = levelThree ->
  Level (fst (snd (Forward cb data (a, w)))) = levelThree /\
  forall ms m,
    kvMembers w = inl ms ->
    pick (candidates (Chat a) levelThree ms) (randRaw w (randCalls w)) = Some m ->
    sentBy (Forward cb data) (a, w) =
      forwardNotice cb a m ::
      match nextReply w with
      | inl _ => [forwardEdit data a]
      | inr _ => []
      end /\
    controls (forwardEdit data a) = [strAcknowledgeData].
Proof.
  intros H3. split.
  - rewrite Forward_case. simpl. rewrite H3. reflexivity.
  - intros ms m Hkv Hpick.
    assert (nextLevel (Level a) = levelThree) as Hn by (rewrite H3; reflexivity).
    rewrite <- Hn in Hpick.
    split; [exact (Forward_sent cb data a w ms m Hkv Hpick)|reflexivity].
Qed.

Lemma Forward_at_levelThree_witness :
  let s := (Sample.case levelThree true,
            Sample.world 200 [Sample.alice; Sample.carol; Sample.erin] 0) in
  Level (fst (snd (Forward Sample.bob "ack" s))) = levelThree /\
  sentBy (Forward Sample.bob "ack") s =
    [telebot.SendMessage Sample.ops (strForward "bob" "erin") None;
     telebot.EditMessageReplyMakeup Sample.ops 900 (forwardMarkup "ack")].
Proof.
  destruct (Forward_at_levelThree Sample.bob "ack" (Sample.case levelThree true)
              (Sample.world 200 [Sample.alice; Sample.carol; Sample.erin] 0) eq_refl)
    as [Hl Hs].
  split; [exact Hl|].
  exact (proj1 (Hs [Sample.alice; Sample.carol; Sample.erin] Sample.erin eq_refl eq_refl)).
Defined.

(** ** The control row after [Forward] *)

(** C5, as the specification states it, fails: a successful [Forward]
    from level 1 to level 2 leaves a control row without the Forward
    button. *)
Lemma Forward_to_levelTwo_drops_Forward_button :
  let s := (Sample.case levelOne true,
            Sample.world 200 [Sample.alice; Sample.carol; Sample.erin] 0) in
  fst (Forward Sample.bob "ack" s) = Return nil_error /\
  Level (fst (snd (Forward Sample.bob "ack" s))) = levelTwo /\
  map controls (sentBy (Forward Sample.bob "ack") s) = [[]; ["Acknowledge"]] /\
  ~ In strForwardData (concat (map controls (sentBy (Forward Sample.bob "ack") s))).
Proof.
  repeat split. simpl. unfold strForwardData. intros [H|[]]. discriminate H.
Qed.

(** C5, amended. After every successful [Forward], whatever the new
    level, the requests made are the notice and then the edit of the
    message whose control row holds the Acknowledge button alone. *)
Theorem Forward_control_row cb data a w :
  fst (Forward cb data (a, w)) = Return nil_error ->
  exists notice,
    sentBy (Forward cb data) (a, w) =
      [notice;
       telebot.EditMessageReplyMakeup (Chat a) (MessageID a) (forwardMarkup data)] /\
    controls (telebot.EditMessageReplyMakeup (Chat a) (MessageID a) (forwardMarkup data))
    = [strAcknowledgeData].
Proof.
  intros H. unfold sentBy. rewrite Forward_unfold in *. cbv zeta in *.
  pose proof (lookup_same outbox (Chat a) (nextLevel (Level a)) (fun _ => eq_refl) w) as Ho.
  unfold same in Ho.
  destruct (GetRandomMemberByChatandLevel _ _ w) as [[[m err]|msg] w1]; [|discriminate H].
  cbn [snd] in Ho.
  destruct err as [e|]; cbn [isNilErr] in *; [discriminate H|].
  match goal with
  | |- context [tgSendMessage ?c ?t ?o ?w0] =>
      destruct (tgSendMessage_run c t o w0) as (i & err & E)
  end.
  rewrite E in *.
  destruct err as [e|]; cbn [isNilErr] in *; [discriminate H|].
  match goal with
  | |- context [tgEditMessageReplyMakeup ?c ?i ?o ?w0] =>
      destruct (tgEditMessageReplyMakeup_run c i o w0) as (err & E2)
  end.
  rewrite E2 in *. cbn [fst snd].
  eexists. split; [|reflexivity].
  simpl. rewrite Ho, <- app_assoc. apply drop_app_length.
Qed.

Lemma Forward_control_row_witness :
  let s := (Sample.case levelOne true,
            Sample.world 200 [Sample.alice; Sample.carol; Sample.erin] 0) in
  exists notice,
    sentBy (Forward Sample.bob "ack") s =
      [notice; telebot.EditMessageReplyMakeup Sample.ops 900 (forwardMarkup "ack")] /\
    controls (telebot.EditMessageReplyMakeup Sample.ops 900 (forwardMarkup "ack"))
    = [strAcknowledgeData].
Proof.
  exact (Forward_control_row Sample.bob "ack" (Sample.case levelOne true)
           (Sample.world 200 [Sample.alice; Sample.carol; Sample.erin] 0) eq_refl).
Defined.

(** ** The escalation clock *)

(** [Forward] never writes [LastUpdate]. *)
Lemma Forward_keeps_LastUpdate cb data a w :
  LastUpdate (fst (snd (Forward cb data (a, w)))) = LastUpdate a.
Proof. rewrite Forward_case. reflexivity. Qed.

(** The escalation goroutine does: a pass that finds the timeout elapsed
    stamps the case with the current time before anything else. *)
Lemma AutoForward_pass_stamps timeout a w :
  AutoForwardTimeout <= now w - LastUpdate a ->
  LastUpdate (fst (snd (AutoForward_pass timeout (a, w)))) = now w.
Proof.
  intros H.
  assert (keeps (both (same LastUpdate) any)
            (call a0 := this in
             call '(randMember, err) :=
               inWorld (GetRandomMemberByChatandLevel (Chat a0) (Level a0)) in
             if negb (isNilErr err) then ret (Some err)
             else exec inWorld
                    (tgSendMessage (Chat a0)
                       (strAutoForward (Member.Username randMember)) None) in
                  ret (@None error))) as Hrest.
  { keeps_auto. }
  unfold AutoForward_pass.
  unfold bind at 1. unfold this at 1. cbn [fst snd].
  unfold bind at 1. unfold inWorld at 1, timeNow at 1. cbn [fst snd].
  apply Z.leb_le in H. rewrite H.
  unfold bind at 1.
  unfold bind at 1. unfold inWorld at 1, timeNow at 1. cbn [fst snd].
  unfold bind at 1. unfold onSelf at 1, modify at 1. cbn [fst snd].
  unfold bind at 1.
  destruct (onSelf_IncreaseLevel (setLastUpdate (now w) a) w) as [b ->].
  match goal with
  | |- context [bind this ?k ?s] =>
      pose proof (Hrest s) as [Hk _]; destruct (bind this k s) as [[[e|]|msg] s1]
  end; cbn [fst snd] in *; unfold same in Hk.
  - unfold ret. cbn [fst snd]. exact Hk.
  - unfold bind, inWorld, timeSleep, modify, ret. cbn [fst snd]. exact Hk.
  - exact Hk.
Qed.

(** C7. A manual [Forward] that succeeds on an active case at level 1
    leaves [LastUpdate] at its old value 100 although the forward happens
    at time 200. With the case stamped at 0 and the button pressed one
    nanosecond before the five minutes are over, the next wake-up of the
    escalation goroutine, five seconds later, escalates again to level 3. *)
Theorem Forward_leaves_LastUpdate_stale :
  let w := Sample.world 200 [Sample.alice; Sample.carol; Sample.erin] 0 in
  let s := (Sample.case levelOne true, w) in
  fst (Forward Sample.bob "ack" s) = Return nil_error /\
  Level (fst (snd (Forward Sample.bob "ack" s))) = levelTwo /\
  now w = 200 /\
  LastUpdate (fst (snd (Forward Sample.bob "ack" s))) = 100 /\
  let late := (Sample.caseAt levelOne true 0,
               Sample.world (AutoForwardTimeout - 1)
                 [Sample.alice; Sample.carol; Sample.erin] 0) in
  Level (fst (runOps Sample.marshal
                [OpForward Sample.bob; OpWorld (advance 5000000000);
                 OpAutoForward 5000000000] late)) = levelThree.
Proof. repeat split. Qed.

(** ** Calls on a terminal case *)

Lemma Acknowledge_unfold cb a w :
  Acknowledge cb (a, w) =
  let a1 := setAutoForwardFlag false a in
  match tgSendMessage (Chat a) (strAcknowledge (telebot.SenderUsername cb)) None w with
  | (Panic msg, w1) => (Panic msg, (a1, w1))
  | (Return (_, err), w1) =>
      if isNilErr err then
        match tgEditMessageReplyMakeup (Chat a) (MessageID a) (Some htmlOnly) w1 with
        | (Panic msg, w2) => (Panic msg, (a1, w2))
        | (Return err, w2) => (Return err, (a1, w2))
        end
      else (Return err, (a1, w1))
  end.
Proof.
  unfold Acknowledge, bind, onSelf, modify, this, inWorld, ret. cbn [fst snd].
  replace (Chat (setAutoForwardFlag false a)) with (Chat a) by reflexivity.
  replace (MessageID (setAutoForwardFlag false a)) with (MessageID a) by reflexivity.
  destruct (tgSendMessage _ _ _ w) as [[[i err]|msg] w1]; [|reflexivity].
  destruct err as [e|]; [reflexivity|]. cbn [isNilErr negb fst snd].
  destruct (tgEditMessageReplyMakeup _ _ _ w1) as [[err|msg] w2]; [|reflexivity].
  destruct err; reflexivity.
Qed.

(** [Acknowledge] clears the flag, writes no other field of the case,
    starts no goroutine, and its first request is the notice. *)
Lemma Acknowledge_run cb a w :
  fst (snd (Acknowledge cb (a, w))) = setAutoForwardFlag false a /\
  goroutines (snd (snd (Acknowledge cb (a, w)))) = goroutines w /\
  exists rest,
    sentBy (Acknowledge cb) (a, w) =
    telebot.SendMessage (Chat a) (strAcknowledge (telebot.SenderUsername cb)) None :: rest.
Proof.
  unfold sentBy. rewrite Acknowledge_unfold. cbv zeta.
  destruct (tgSendMessage_run (Chat a) (strAcknowledge (telebot.SenderUsername cb))
              None w) as (i & err & ->).
  destruct err as [e|]; cbn [isNilErr fst snd].
  - repeat split. eexists. simpl. apply drop_app_length.
  - match goal with
    | |- context [tgEditMessageReplyMakeup ?c ?i ?o ?w0] =>
        destruct (tgEditMessageReplyMakeup_run c i o w0) as (err & ->)
    end.
    cbn [fst snd]. repeat split. eexists. simpl.
    rewrite <- app_assoc. apply drop_app_length.
Qed.

Lemma Acknowledge_sent cb a w :
  sentBy (Acknowledge cb) (a, w) =
  ackNotice cb a ::
  match nextReply w with
  | inl _ => [clearControls a]
  | inr _ => []
  end.
Proof.
  unfold sentBy. rewrite Acknowledge_unfold. cbv zeta.
  unfold tgSendMessage. fold (nextReply w).
  destruct (nextReply w) as [i|e]; cbn [isNilErr fst snd].
  - unfold tgEditMessageReplyMakeup.
    match goal with |- context [tgReply ?w0 ?n] => destruct (tgReply w0 n) end;
      cbn [fst snd]; simpl; rewrite <- app_assoc; apply drop_app_length.
  - simpl. apply drop_app_length.
Qed.

Lemma Forward_keeps_goroutines cb data :
  keeps (both any (same goroutines)) (Forward cb data).
Proof.
  unfold Forward. keeps_auto.
  - apply lookup_same. reflexivity.
  - apply tgSendMessage_same. reflexivity.
  - apply tgEditMessageReplyMakeup_same. reflexivity.
Qed.

(** The polling loop of [AutoForward] leaves at once when it finds the
    flag cleared. *)
Lemma AutoForward_terminal fuel timeout s :
  terminal (fst s) ->
  AutoForward (S fuel) timeout s = (Return (Some nil_error), s).
Proof.
  intros H. unfold terminal in H. simpl. unfold bind, this. rewrite H. reflexivity.
Qed.

(** C1, as the specification states it, fails: on an acknowledged case
    at level 1, [Forward] still moves the level to 2 and sends its notice,
    and [Acknowledge] sends the acknowledgment notice once more. *)
Lemma terminal_case_is_still_forwarded :
  let s := (Sample.case levelOne false,
            Sample.world 200 [Sample.alice; Sample.carol; Sample.erin] 0) in
  terminal (fst s) /\
  Level (fst s) = levelOne /\
  Level (fst (snd (Forward Sample.bob "ack" s))) = levelTwo /\
  sentBy (Forward Sample.bob "ack") s =
    [telebot.SendMessage Sample.ops "@bob forward to @carol" None;
     telebot.EditMessageReplyMakeup Sample.ops 900 (forwardMarkup "ack")] /\
  sentBy (Acknowledge Sample.bob) s =
    [telebot.SendMessage Sample.ops "Acknowledge by: @bob" None;
     telebot.EditMessageReplyMakeup Sample.ops 900 (Some htmlOnly)].
Proof. repeat split. Qed.

(** C1, amended. On a case whose escalation flag is cleared, neither
    [Forward] nor [Acknowledge] restarts the escalation: the flag stays
    cleared, [LastUpdate] is not written, no goroutine is started, and the
    polling loop run on the resulting case leaves at once without touching
    it. But neither call is a no-op. [Acknowledge] leaves the level as it
    is and still sends its notice, followed by the edit that clears the
    controls when Telegram accepts the notice. [Forward] moves the level
    as [IncreaseLevel] does on any case and, a member being selected at
    the new level, still sends the forward notice naming that member,
    followed by its edit of the control row when Telegram accepts the
    notice. *)
Theorem terminal_case_calls cb data a w :
  terminal a ->
  let sF := snd (Forward cb data (a, w)) in
  let sA := snd (Acknowledge cb (a, w)) in
  (terminal (fst sF) /\
   LastUpdate (fst sF) = LastUpdate a /\
   goroutines (snd sF) = goroutines w /\
   (forall fuel timeout, AutoForward (S fuel) timeout sF = (Return (Some nil_error), sF)) /\
   Level (fst sF) = nextLevel (Level a) /\
   (forall ms m,
      kvMembers w = inl ms ->
      pick (candidates (Chat a) (nextLevel (Level a)) ms) (randRaw w (randCalls w))
        = Some m ->
      sentBy (Forward cb data) (a, w) =
      forwardNotice cb a m ::
      match nextReply w with
      | inl _ => [forwardEdit data a]
      | inr _ => []
      end)) /\
  (terminal (fst sA) /\
   LastUpdate (fst sA) = LastUpdate a /\
   goroutines (snd sA) = goroutines w /\
   (forall fuel timeout, AutoForward (S fuel) timeout sA = (Return (Some nil_error), sA)) /\
   Level (fst sA) = Level a /\
   sentBy (Acknowledge cb) (a, w) =
   ackNotice cb a ::
   match nextReply w with
   | inl _ => [clearControls a]
   | inr _ => []
   end).
Proof.
  intros Ht sF sA. split.
  - assert (terminal (fst sF)) as HtF.
    { subst sF. rewrite Forward_case. exact Ht. }
    repeat split.
    + exact HtF.
    + apply Forward_keeps_LastUpdate.
    + apply (Forward_keeps_goroutines cb data (a, w)).
    + intros fuel timeout. apply AutoForward_terminal. exact HtF.
    + subst sF. rewrite Forward_case. reflexivity.
    + intros ms m Hkv Hpick. exact (Forward_sent cb data a w ms m Hkv Hpick).
  - destruct (Acknowledge_run cb a w) as (Ha & Hg & _).
    assert (terminal (fst sA)) as HtA.
    { subst sA. rewrite Ha. reflexivity. }
    repeat split.
    + exact HtA.
    + subst sA. rewrite Ha. reflexivity.
    + exact Hg.
    + intros fuel timeout. apply AutoForward_terminal. exact HtA.
    + subst sA. rewrite Ha. reflexivity.
    + apply Acknowledge_sent.
Qed.

Lemma terminal_case_calls_witness :
  let s := (Sample.case levelOne false,
            Sample.world 200 [Sample.alice; Sample.carol; Sample.erin] 0) in
  terminal (fst (snd (Forward Sample.bob "ack" s))) /\
  Level (fst (snd (Forward Sample.bob "ack" s))) = levelTwo /\
  sentBy (Forward Sample.bob "ack") s =
    [telebot.SendMessage Sample.ops (strForward "bob" "carol") None;
     telebot.EditMessageReplyMakeup Sample.ops 900 (forwardMarkup "ack")] /\
  terminal (fst (snd (Acknowledge Sample.bob s))) /\
  Level (fst (snd (Acknowledge Sample.bob s))) = levelOne /\
  sentBy (Acknowledge Sample.bob) s =
    [telebot.SendMessage Sample.ops (strAcknowledge "bob") None;
     telebot.EditMessageReplyMakeup Sample.ops 900 (Some htmlOnly)].
Proof.
  destruct (terminal_case_calls Sample.bob "ack" (Sample.case levelOne false)
              (Sample.world 200 [Sample.alice; Sample.carol; Sample.erin] 0) eq_refl)
    as [(HF & _ & _ & _ & HLF & HSF) (HA & _ & _ & _ & HL & HS)].
  exact (conj HF (conj HLF
          (conj (HSF [Sample.alice; Sample.carol; Sample.erin] Sample.carol
                     eq_refl eq_refl)
                (conj HA (conj HL HS))))).
Defined.

(** ** The registry of the dispatch loop *)

Lemma lookupAlerts_insert (reg : gmap string (list Ref)) id refs :
  lookupAlerts (<[id := refs]> reg) id = refs.
Proof. unfold lookupAlerts. rewrite lookup_insert_eq. reflexivity. Qed.

(** C8. An alert arriving under an id the registry already tracks is
    ignored; hence two arrivals under one id, the id being free before,
    leave exactly the first case tracked under it. *)
Theorem intake_first_firing_wins (deref : Ref -> HandleAlert)
    (reg : gmap string (list Ref)) (a1 a2 : Ref) :
  (lookupAlerts reg (ID (deref a2)) <> [] -> intake deref reg a2 = reg) /\
  (ID (deref a1) = ID (deref a2) ->
   lookupAlerts reg (ID (deref a1)) = [] ->
   intake deref (intake deref reg a1) a2 = intake deref reg a1 /\
   lookupAlerts (intake deref (intake deref reg a1) a2) (ID (deref a1)) = [a1]).
Proof.
  assert (forall r a, lookupAlerts r (ID (deref a)) <> [] -> intake deref r a = r)
    as Hdup.
  { intros r a H. unfold intake.
    destruct (lookupAlerts r (ID (deref a))); [congruence|reflexivity]. }
  split; [apply Hdup|].
  intros Hid Hfree.
  assert (lookupAlerts (intake deref reg a1) (ID (deref a1)) = [a1]) as H1.
  { unfold intake. rewrite Hfree. simpl. apply lookupAlerts_insert. }
  rewrite (Hdup (intake deref reg a1) a2).
  - split; [reflexivity|exact H1].
  - rewrite <- Hid, H1. discriminate.
Qed.

Lemma intake_first_firing_wins_witness :
  let deref := fun r : Ref => setMessageID (Z.of_nat r) (Sample.case levelOne true) in
  intake deref (intake deref ∅ 1%nat) 2%nat = intake deref ∅ 1%nat /\
  lookupAlerts (intake deref (intake deref ∅ 1%nat) 2%nat) "X" = [1%nat] /\
  intake deref (<["X" := [1%nat]]> ∅) 3%nat = <["X" := [1%nat]]> ∅.
Proof.
  intros deref.
  assert (lookupAlerts ∅ (ID (deref 1%nat)) = []) as Hfree by reflexivity.
  destruct (proj2 (intake_first_firing_wins deref ∅ 1%nat 2%nat) eq_refl Hfree)
    as [H1 H2].
  refine (conj H1 (conj H2 _)).
  apply (proj1 (intake_first_firing_wins deref (<["X" := [1%nat]]> ∅) 1%nat 3%nat)).
  discriminate.
Defined.

(** The map [sendWebhook] keeps for resolved signals is not guarded: a
    second firing under the same id is appended to it. *)
Lemma remember_appends deref (reg : gmap string (list Ref)) a :
  lookupAlerts (remember deref reg a) (ID (deref a))
  = lookupAlerts reg (ID (deref a)) ++ [a].
Proof. unfold remember. apply lookupAlerts_insert. Qed.

(** * Further properties of the package *)

(** ** The lookup, continued *)

(** X1. A lookup that returns with a nil error returns a member the store
    lists, of the chat asked for and at the level asked for. *)
Theorem lookup_is_sound chat level w m :
  fst (GetRandomMemberByChatandLevel chat level w) = Return (m, nil_error) ->
  exists ms,
    kvMembers w = inl ms /\
    In m ms /\
    telebot.ID (Member.Chat m) = telebot.ID chat /\
    Member.Level m = level.
Proof.
  intros H. destruct (kvMembers w) as [ms|e] eqn:E.
  - exists ms. split; [reflexivity|].
    destruct (candidates chat level ms) as [|m0 group] eqn:G.
    + rewrite (lookup_empty chat level w ms E G) in H. discriminate H.
    + destruct (pick_some (m0 :: group) (randRaw w (randCalls w))) as (m' & Hm & Hin);
        [discriminate|].
      rewrite <- G in Hm, Hin.
      rewrite (lookup_pick chat level w ms m' E Hm) in H.
      injection H as <-.
      unfold candidates, groupByLevel, membersOfChat in Hin.
      apply List.filter_In in Hin as [Hin Hl].
      apply List.filter_In in Hin as [Hin Hc].
      apply String.eqb_eq in Hl. apply Z.eqb_eq in Hc. auto.
  - rewrite (lookup_store_error chat level w e E) in H. discriminate H.
Qed.

Lemma lookup_is_sound_witness :
  exists ms,
    kvMembers (Sample.world 0 [Sample.alice; Sample.carol] 5) = inl ms /\
    In Sample.carol ms /\
    telebot.ID (Member.Chat Sample.carol) = telebot.ID Sample.ops /\
    Member.Level Sample.carol = levelTwo.
Proof.
  exact (lookup_is_sound Sample.ops levelTwo
           (Sample.world 0 [Sample.alice; Sample.carol] 5) Sample.carol eq_refl).
Defined.

(** The only error a lookup returns is the one of the store: it comes
    back unchanged, with the zero member, and nothing of the world has
    moved. An empty candidate set is never reported this way. *)
Lemma lookup_error_is_the_store_error chat level w m e :
  fst (GetRandomMemberByChatandLevel chat level w) = Return (m, Some e) ->
  kvMembers w = inr e /\ m = zeroMember /\
  snd (GetRandomMemberByChatandLevel chat level w) = w.
Proof.
  intros H. destruct (kvMembers w) as [ms|e'] eqn:E.
  - destruct (candidates chat level ms) as [|m0 group] eqn:G.
    + rewrite (lookup_empty chat level w ms E G) in H. discriminate H.
    + destruct (pick_some (m0 :: group) (randRaw w (randCalls w))) as (m' & Hm & _);
        [discriminate|].
      rewrite <- G in Hm.
      rewrite (lookup_pick chat level w ms m' E Hm) in H. discriminate H.
  - rewrite (lookup_store_error chat level w e' E) in *.
    injection H as <- <-. auto.
Qed.

Lemma lookup_error_is_the_store_error_witness :
  let w := mkWorld 0 (inr "kv down") (inl []) (fun _ => 0) 0
                   (fun n => inl (Z.of_nat n)) [] [] in
  kvMembers w = inr "kv down" /\ zeroMember = zeroMember /\
  snd (GetRandomMemberByChatandLevel Sample.ops levelTwo w) = w.
Proof.
  exact (lookup_error_is_the_store_error Sample.ops levelTwo
           (mkWorld 0 (inr "kv down") (inl []) (fun _ => 0) 0
                    (fun n => inl (Z.of_nat n)) [] [])
           zeroMember "kv down" eq_refl).
Defined.

(** ** [Acknowledge] and [Resolved] against a failing Telegram *)

#[local] Instance flagDown_refl : Reflexive flagDown.
Proof. intros a H. exact H. Qed.

#[local] Instance flagDown_trans : Transitive flagDown.
Proof. intros a1 a2 a3 H1 H2 H. auto. Qed.

Lemma tgSendMessage_eq chat msg o w :
  tgSendMessage chat msg o w =
  (Return (match nextReply w with inl i => (i, nil_error) | inr e => (0, Some e) end),
   pushRequest (telebot.SendMessage chat msg o) w).
Proof. unfold tgSendMessage, nextReply. destruct (tgReply w _); reflexivity. Qed.

Lemma tgEditMessageReplyMakeup_eq chat id o w :
  tgEditMessageReplyMakeup chat id o w =
  (Return (match nextReply w with inl _ => nil_error | inr e => Some e end),
   pushRequest (telebot.EditMessageReplyMakeup chat id o) w).
Proof. unfold tgEditMessageReplyMakeup, nextReply. destruct (tgReply w _); reflexivity. Qed.

Lemma nextReply_pushRequest r w : nextReply (pushRequest r w) = secondReply w.
Proof.
  unfold nextReply, secondReply, pushRequest. simpl.
  rewrite length_app. simpl. rewrite Nat.add_1_r. reflexivity.
Qed.

Lemma sent_one {A} (m : Go St A) s r :
  outbox (snd (snd (m s))) = outbox (snd s) ++ [r] -> sentBy m s = [r].
Proof. intros H. unfold sentBy. rewrite H. apply drop_app_length. Qed.

Lemma sent_two {A} (m : Go St A) s r1 r2 :
  outbox (snd (snd (m s))) = (outbox (snd s) ++ [r1]) ++ [r2] -> sentBy m s = [r1; r2].
Proof.
  intros H. unfold sentBy. rewrite H, <- app_assoc. apply drop_app_length.
Qed.

Lemma Resolved_unfold out a w :
  Resolved out (a, w) =
  let a1 := setAutoForwardFlag false a in
  match tgSendMessage (Chat a) out (Some htmlOnly) w with
  | (Panic msg, w1) => (Panic msg, (a1, w1))
  | (Return (_, err), w1) =>
      if isNilErr err then
        match tgEditMessageReplyMakeup (Chat a) (MessageID a) (Some htmlOnly) w1 with
        | (Panic msg, w2) => (Panic msg, (a1, w2))
        | (Return err, w2) => (Return err, (a1, w2))
        end
      else (Return err, (a1, w1))
  end.
Proof.
  unfold Resolved, bind, onSelf, modify, this, inWorld, ret. cbn [fst snd].
  replace (Chat (setAutoForwardFlag false a)) with (Chat a) by reflexivity.
  replace (MessageID (setAutoForwardFlag false a)) with (MessageID a) by reflexivity.
  destruct (tgSendMessage _ _ _ w) as [[[i err]|msg] w1]; [|reflexivity].
  destruct err as [e|]; [reflexivity|]. cbn [isNilErr negb fst snd].
  destruct (tgEditMessageReplyMakeup _ _ _ w1) as [[err|msg] w2]; [|reflexivity].
  destruct err; reflexivity.
Qed.

(** X2. [Acknowledge] clears the escalation flag whatever Telegram answers.
    When the notice is rejected the call returns that error and the
    control row is left on the message: the notice is the only request.
    Otherwise the edit that removes the controls follows and its answer
    is the result. *)
Theorem Acknowledge_outcomes cb a w :
  terminal (fst (snd (Acknowledge cb (a, w)))) /\
  (forall e, nextReply w = inr e ->
     fst (Acknowledge cb (a, w)) = Return (Some e) /\
     sentBy (Acknowledge cb) (a, w) = [ackNotice cb a]) /\
  (forall i, nextReply w = inl i ->
     fst (Acknowledge cb (a, w))
       = Return (match secondReply w with inl _ => nil_error | inr e => Some e end) /\
     sentBy (Acknowledge cb) (a, w) = [ackNotice cb a; clearControls a] /\
     controls (clearControls a) = []).
Proof.
  split; [|split].
  - rewrite Acknowledge_unfold, tgSendMessage_eq. cbv zeta.
    destruct (nextReply w); cbn [isNilErr nil_error]; [|reflexivity].
    rewrite tgEditMessageReplyMakeup_eq. reflexivity.
  - intros e He. split; [|apply sent_one];
      rewrite Acknowledge_unfold, tgSendMessage_eq, He; reflexivity.
  - intros i Hi. split; [|split; [apply sent_two|reflexivity]];
      rewrite Acknowledge_unfold, tgSendMessage_eq, Hi; cbn [isNilErr nil_error];
      rewrite tgEditMessageReplyMakeup_eq, nextReply_pushRequest; reflexivity.
Qed.

Lemma Acknowledge_outcomes_witness :
  let w := mkWorld 0 (inl []) (inl []) (fun _ => 0) 0 (fun _ => inr "api error") [] [] in
  terminal (fst (snd (Acknowledge Sample.bob (Sample.case levelOne true, w)))) /\
  fst (Acknowledge Sample.bob (Sample.case levelOne true, w)) = Return (Some "api error") /\
  sentBy (Acknowledge Sample.bob) (Sample.case levelOne true, w)
    = [ackNotice Sample.bob (Sample.case levelOne true)] /\
  sentBy (Acknowledge Sample.bob)
         (Sample.case levelOne true, Sample.world 0 [] 0)
    = [ackNotice Sample.bob (Sample.case levelOne true);
       clearControls (Sample.case levelOne true)].
Proof.
  intros w.
  destruct (Acknowledge_outcomes Sample.bob (Sample.case levelOne true) w)
    as (Ht & Hrej & _).
  destruct (Hrej "api error" eq_refl) as [Hr Hs].
  destruct (Acknowledge_outcomes Sample.bob (Sample.case levelOne true)
              (Sample.world 0 [] 0)) as (_ & _ & Hacc).
  destruct (Hacc 0 eq_refl) as (_ & Hs2 & _).
  exact (conj Ht (conj Hr (conj Hs Hs2))).
Defined.

(** X3. [Resolved] behaves the same way with the resolution text: the flag
    is cleared in every case, and the controls are removed only when
    Telegram has accepted the text. *)
Theorem Resolved_outcomes out a w :
  terminal (fst (snd (Resolved out (a, w)))) /\
  Level (fst (snd (Resolved out (a, w)))) = Level a /\
  (forall e, nextReply w = inr e ->
     fst (Resolved out (a, w)) = Return (Some e) /\
     sentBy (Resolved out) (a, w) = [resolvedNotice out a]) /\
  (forall i, nextReply w = inl i ->
     fst (Resolved out (a, w))
       = Return (match secondReply w with inl _ => nil_error | inr e => Some e end) /\
     sentBy (Resolved out) (a, w) = [resolvedNotice out a; clearControls a]).
Proof.
  split; [|split; [|split]].
  - rewrite Resolved_unfold, tgSendMessage_eq. cbv zeta.
    destruct (nextReply w); cbn [isNilErr nil_error]; [|reflexivity].
    rewrite tgEditMessageReplyMakeup_eq. reflexivity.
  - rewrite Resolved_unfold, tgSendMessage_eq. cbv zeta.
    destruct (nextReply w); cbn [isNilErr nil_error]; [|reflexivity].
    rewrite tgEditMessageReplyMakeup_eq. reflexivity.
  - intros e He. split; [|apply sent_one];
      rewrite Resolved_unfold, tgSendMessage_eq, He; reflexivity.
  - intros i Hi. split; [|apply sent_two];
      rewrite Resolved_unfold, tgSendMessage_eq, Hi; cbn [isNilErr nil_error];
      rewrite tgEditMessageReplyMakeup_eq, nextReply_pushRequest; reflexivity.
Qed.

Lemma Resolved_outcomes_witness :
  let w := mkWorld 0 (inl []) (inl []) (fun _ => 0) 0 (fun _ => inr "api error") [] [] in
  fst (Resolved "ok" (Sample.case levelTwo true, w)) = Return (Some "api error") /\
  sentBy (Resolved "ok") (Sample.case levelTwo true, w)
    = [resolvedNotice "ok" (Sample.case levelTwo true)] /\
  sentBy (Resolved "ok") (Sample.case levelTwo true, Sample.world 0 [] 0)
    = [resolvedNotice "ok" (Sample.case levelTwo true);
       clearControls (Sample.case levelTwo true)].
Proof.
  intros w.
  destruct (Resolved_outcomes "ok" (Sample.case levelTwo true) w)
    as (_ & _ & Hrej & _).
  destruct (Hrej "api error" eq_refl) as [Hr Hs].
  destruct (Resolved_outcomes "ok" (Sample.case levelTwo true) (Sample.world 0 [] 0))
    as (_ & _ & _ & Hacc).
  destruct (Hacc 0 eq_refl) as (_ & Hs2).
  exact (conj Hr (conj Hs Hs2)).
Defined.

(** ** Once the escalation is stopped *)

Lemma IncreaseLevel_flagDown : keeps flagDown IncreaseLevel.
Proof. intros a. unfold flagDown, terminal. rewrite IncreaseLevel_state. auto. Qed.

Lemma Forward_flagDown cb data : keeps (both flagDown any) (Forward cb data).
Proof. unfold Forward. keeps_auto. apply IncreaseLevel_flagDown. Qed.

Lemma Acknowledge_flagDown cb : keeps (both flagDown any) (Acknowledge cb).
Proof.
  unfold Acknowledge. keeps_auto. apply keeps_modify. intros h _. reflexivity.
Qed.

Lemma Resolved_flagDown out : keeps (both flagDown any) (Resolved out).
Proof.
  unfold Resolved. keeps_auto. apply keeps_modify. intros h _. reflexivity.
Qed.

Lemma AutoForward_pass_flagDown timeout :
  keeps (both flagDown any) (AutoForward_pass timeout).
Proof.
  unfold AutoForward_pass. keeps_auto.
  - apply keeps_modify. intros h Hh. exact Hh.
  - apply IncreaseLevel_flagDown.
Qed.

Lemma AutoForward_flagDown fuel timeout :
  keeps (both flagDown any) (AutoForward fuel timeout).
Proof.
  induction fuel as [|fuel IH]; simpl.
  - keeps_auto.
  - keeps_auto; [apply AutoForward_pass_flagDown|exact IH].
Qed.

Lemma runOp_flagDown marshal op s : flagDown (fst s) (fst (runOp marshal op s)).
Proof.
  destruct op; simpl.
  - assert (keeps (both flagDown any) (onForward marshal callback)) as H.
    { unfold onForward. keeps_auto.
      - apply keeps_modify. intros h Hh. exact Hh.
      - simpl. keeps_auto. apply Forward_flagDown. }
    apply H.
  - assert (keeps (both flagDown any) (onAcknowledge callback)) as H.
    { unfold onAcknowledge. keeps_auto.
      - apply keeps_modify. intros h Hh. exact Hh.
      - apply Acknowledge_flagDown. }
    apply H.
  - apply Resolved_flagDown.
  - apply (AutoForward_flagDown 1).
  - intros H. exact H.
Qed.

(** X4. Nothing sets the escalation flag again. Once a case is terminal it
    stays so through any run of operations, and every later wake-up of the
    escalation goroutine returns nil at once, leaving case and world as
    they are: no notice is sent for it. *)
Theorem terminal_is_permanent marshal (ops : list Op) (s : St) :
  terminal (fst s) ->
  terminal (fst (runOps marshal ops s)) /\
  forall fuel timeout,
    AutoForward (S fuel) timeout (runOps marshal ops s)
    = (Return (Some nil_error), runOps marshal ops s).
Proof.
  intros H.
  assert (terminal (fst (runOps marshal ops s))) as Ht.
  { revert s H. induction ops as [|op ops IH]; intros s H; simpl; [exact H|].
    apply IH. apply (runOp_flagDown marshal op s H). }
  split; [exact Ht|].
  intros fuel timeout. apply AutoForward_terminal. exact Ht.
Qed.

Lemma terminal_is_permanent_witness :
  let s := (Sample.case levelOne false,
            Sample.world 200 [Sample.alice; Sample.carol; Sample.erin] 0) in
  terminal (fst (runOps Sample.marshal
                   [OpForward Sample.bob; OpAutoForward 5; OpAcknowledge Sample.bob] s)).
Proof.
  exact (proj1 (terminal_is_permanent Sample.marshal
                  [OpForward Sample.bob; OpAutoForward 5; OpAcknowledge Sample.bob]
                  (Sample.case levelOne false,
                   Sample.world 200 [Sample.alice; Sample.carol; Sample.erin] 0)
                  eq_refl)).
Defined.

(** ** The escalation goroutine *)

Lemma AutoForward_pass_unfold timeout a w :
  AutoForward_pass timeout (a, w) =
  if AutoForwardTimeout <=? now w - LastUpdate a then
    let a1 := setLevel (nextLevel (Level a)) (setLastUpdate (now w) a) in
    match GetRandomMemberByChatandLevel (Chat a) (nextLevel (Level a)) w with
    | (Panic msg, w1) => (Panic msg, (a1, w1))
    | (Return (randMember, err), w1) =>
        if isNilErr err then
          match tgSendMessage (Chat a) (strAutoForward (Member.Username randMember))
                  None w1 with
          | (Panic msg, w2) => (Panic msg, (a1, w2))
          | (Return _, w2) => (Return None, (a1, advance timeout w2))
          end
        else (Return (Some err), (a1, w1))
    end
  else (Return None, (a, advance timeout w)).
Proof.
  unfold AutoForward_pass.
  unfold bind at 1. unfold this at 1. cbn [fst snd].
  unfold bind at 1. unfold inWorld at 1, timeNow at 1. cbn [fst snd].
  destruct (AutoForwardTimeout <=? now w - LastUpdate a).
  - unfold bind at 1.
    unfold bind at 1. unfold inWorld at 1, timeNow at 1. cbn [fst snd].
    unfold bind at 1. unfold onSelf at 1, modify at 1. cbn [fst snd].
    unfold bind at 1.
    destruct (onSelf_IncreaseLevel (setLastUpdate (now w) a) w) as [b ->].
    unfold bind at 1. unfold this at 1. cbn [fst snd].
    unfold bind at 1. unfold inWorld at 1. cbn [fst snd].
    replace (Chat (setLevel (nextLevel (Level (setLastUpdate (now w) a)))
                     (setLastUpdate (now w) a))) with (Chat a) by reflexivity.
    replace (Level (setLevel (nextLevel (Level (setLastUpdate (now w) a)))
                      (setLastUpdate (now w) a)))
      with (nextLevel (Level a)) by reflexivity.
    replace (nextLevel (Level (setLastUpdate (now w) a)))
      with (nextLevel (Level a)) by reflexivity.
    cbv zeta.
    destruct (GetRandomMemberByChatandLevel (Chat a) (nextLevel (Level a)) w)
      as [[[m err]|msg] w1]; [|reflexivity].
    destruct err as [e|]; [reflexivity|]. cbn [isNilErr negb].
    unfold bind, inWorld, ret, timeSleep, modify. cbn [fst snd].
    destruct (tgSendMessage _ _ _ w1) as [[r|msg] w2]; reflexivity.
  - unfold bind, ret, inWorld, timeSleep, modify. reflexivity.
Qed.

Lemma advance_0 w : advance 0 w = w.
Proof. destruct w. unfold advance. simpl. rewrite Z.add_0_r. reflexivity. Qed.

Lemma advance_advance d1 d2 w : advance d2 (advance d1 w) = advance (d1 + d2) w.
Proof. unfold advance. simpl. rewrite Z.add_assoc. reflexivity. Qed.

(** X5. While the five minutes since [LastUpdate] have not elapsed at any of
    its [k] wake-ups, the goroutine only sleeps: the case is untouched,
    nothing is sent, the clock has moved by [k] sleeps, and the loop is
    still running. *)
Theorem AutoForward_waits (k : nat) timeout a w :
  0 <= timeout ->
  AutoForwardFlag a = true ->
  (forall j : nat, (j < k)%nat ->
     now w + Z.of_nat j * timeout - LastUpdate a < AutoForwardTimeout) ->
  AutoForward k timeout (a, w)
  = (Return None, (a, advance (Z.of_nat k * timeout) w)).
Proof.
  intros _ Hflag. revert w. induction k as [|k IH]; intros w Hwait.
  - simpl. rewrite advance_0. reflexivity.
  - cbn [AutoForward]. unfold bind at 1. unfold this at 1. cbn [fst snd].
    rewrite Hflag. unfold bind at 1. rewrite AutoForward_pass_unfold.
    pose proof (Hwait 0%nat ltac:(lia)) as H0. simpl in H0. rewrite Z.add_0_r in H0.
    destruct (Z.leb_spec AutoForwardTimeout (now w - LastUpdate a)); [lia|].
    rewrite IH.
    + rewrite advance_advance. do 3 f_equal. lia.
    + intros j Hj. specialize (Hwait (S j) ltac:(lia)).
      unfold advance. cbn [now]. lia.
Qed.

Lemma AutoForward_waits_witness :
  AutoForward 3 5000000000 (Sample.caseAt levelOne true 0, Sample.world 0 [] 0)
  = (Return None,
     (Sample.caseAt levelOne true 0, advance 15000000000 (Sample.world 0 [] 0))).
Proof.
  apply (AutoForward_waits 3 5000000000 (Sample.caseAt levelOne true 0)
           (Sample.world 0 [] 0) ltac:(lia) eq_refl).
  intros j Hj. unfold AutoForwardTimeout. simpl. lia.
Defined.

(** X6. The first wake-up at or after the deadline, with a member [m]
    selected at the next level: the case is stamped with the current time
    and moved to the next level, the one request made is the notice to
    [m] (the control row of the alert message is not edited), and the loop
    goes on after its sleep whatever Telegram answered. *)
Theorem AutoForward_pass_escalates timeout a w ms m :
  0 <= timeout ->
  AutoForwardTimeout <= now w - LastUpdate a ->
  kvMembers w = inl ms ->
  pick (candidates (Chat a) (nextLevel (Level a)) ms) (randRaw w (randCalls w)) = Some m ->
  AutoForward_pass timeout (a, w)
  = (Return None,
     (setLevel (nextLevel (Level a)) (setLastUpdate (now w) a),
      advance timeout (pushRequest (autoNotice a m) (nextRand w)))).
Proof.
  intros _ Hlate Hkv Hpick. rewrite AutoForward_pass_unfold.
  apply Z.leb_le in Hlate. rewrite Hlate. cbv zeta.
  rewrite (lookup_pick _ _ w ms m Hkv Hpick). cbn [isNilErr nil_error].
  rewrite tgSendMessage_eq. reflexivity.
Qed.

Lemma AutoForward_pass_escalates_witness :
  let a := Sample.caseAt levelThree true 0 in
  let w := Sample.world AutoForwardTimeout [Sample.alice; Sample.erin] 0 in
  AutoForward_pass 5000000000 (a, w)
  = (Return None,
     (Sample.caseAt levelThree true AutoForwardTimeout,
      advance 5000000000 (pushRequest (autoNotice a Sample.erin) (nextRand w)))).
Proof.
  apply (AutoForward_pass_escalates 5000000000 (Sample.caseAt levelThree true 0)
           (Sample.world AutoForwardTimeout [Sample.alice; Sample.erin] 0)
           [Sample.alice; Sample.erin] Sample.erin).
  - lia.
  - simpl. lia.
  - reflexivity.
  - reflexivity.
Defined.

(** X7. When the store cannot be listed at that wake-up, the goroutine
    returns the store's error and is gone, while the case it leaves
    behind still has its escalation flag set; the level has been advanced
    and the time stamped although nobody was notified. *)
Theorem AutoForward_ends_on_store_error fuel timeout a w e :
  AutoForwardFlag a = true ->
  AutoForwardTimeout <= now w - LastUpdate a ->
  kvMembers w = inr e ->
  AutoForward (S fuel) timeout (a, w)
  = (Return (Some (Some e)),
     (setLevel (nextLevel (Level a)) (setLastUpdate (now w) a), w)) /\
  AutoForwardFlag (setLevel (nextLevel (Level a)) (setLastUpdate (now w) a)) = true.
Proof.
  intros Hflag Hlate Hkv. split; [|exact Hflag].
  cbn [AutoForward]. unfold bind at 1. unfold this at 1. cbn [fst snd].
  rewrite Hflag. unfold bind at 1. rewrite AutoForward_pass_unfold.
  apply Z.leb_le in Hlate. rewrite Hlate. cbv zeta.
  rewrite (lookup_store_error _ _ w e Hkv). reflexivity.
Qed.

Lemma AutoForward_ends_on_store_error_witness :
  let w := mkWorld AutoForwardTimeout (inr "kv down") (inl []) (fun _ => 0) 0
                   (fun n => inl (Z.of_nat n)) [] [] in
  fst (AutoForward 1 5000000000 (Sample.caseAt levelOne true 0, w))
  = Return (Some (Some "kv down")).
Proof.
  intros w.
  destruct (AutoForward_ends_on_store_error 0 5000000000
              (Sample.caseAt levelOne true 0) w "kv down" eq_refl) as [H _].
  - simpl. lia.
  - reflexivity.
  - rewrite H. reflexivity.
Defined.

(** X8. When nobody of the chat is at the next level at that wake-up, the
    goroutine panics inside the lookup, with nothing sent. This holds at
    level 3 as well, where the "next" level is 3 itself. *)
Theorem AutoForward_panics_without_candidates fuel timeout a w ms :
  AutoForwardFlag a = true ->
  AutoForwardTimeout <= now w - LastUpdate a ->
  kvMembers w = inl ms ->
  candidates (Chat a) (nextLevel (Level a)) ms = [] ->
  AutoForward (S fuel) timeout (a, w)
  = (Panic "invalid argument to Intn",
     (setLevel (nextLevel (Level a)) (setLastUpdate (now w) a), w)).
Proof.
  intros Hflag Hlate Hkv Hnone.
  cbn [AutoForward]. unfold bind at 1. unfold this at 1. cbn [fst snd].
  rewrite Hflag. unfold bind at 1. rewrite AutoForward_pass_unfold.
  apply Z.leb_le in Hlate. rewrite Hlate. cbv zeta.
  rewrite (lookup_empty _ _ w ms Hkv Hnone). reflexivity.
Qed.

Lemma AutoForward_panics_without_candidates_witness :
  fst (AutoForward 1 5000000000
         (Sample.caseAt levelOne true 0,
          Sample.world AutoForwardTimeout [Sample.alice] 0))
  = Panic "invalid argument to Intn".
Proof.
  rewrite (AutoForward_panics_without_candidates 0 5000000000
             (Sample.caseAt levelOne true 0)
             (Sample.world AutoForwardTimeout [Sample.alice] 0) [Sample.alice]).
  - reflexivity.
  - reflexivity.
  - simpl. lia.
  - reflexivity.
  - reflexivity.
Defined.

(** ** [NewAlert] *)

Lemma NewAlert_unfold marshal id chat alert out w jsAck jsFwd :
  marshal (mkCallbackData strAcknowledgeData id) = (jsAck, nil_error) ->
  marshal (mkCallbackData strForwardData id) = (jsFwd, nil_error) ->
  NewAlert marshal id chat alert out w =
  let w1 := pushRequest (alertMessage chat out jsAck jsFwd) w in
  match nextReply w with
  | inr e => (Return (None, Some e), w1)
  | inl mid =>
      let a := mkHandleAlert id mid chat alert levelOne (now w) true in
      match kvNodes w with
      | inr e => (Return (None, Some e), w1)
      | inl nodes =>
          if String.eqb (ownerOf id nodes) zeroString then
            match GetRandomMemberByChatandLevel chat levelOne w1 with
            | (Panic msg, w2) => (Panic msg, w2)
            | (Return (m, err), w2) =>
                if isNilErr err then finishNewAlert a (Member.Username m) w2
                else (Return (None, err), w2)
            end
          else finishNewAlert a (ownerOf id nodes) w1
      end
  end.
Proof.
  intros Hack Hfwd. unfold NewAlert, NewCallbackData.
  cbn [isNilErr negb nil_error]. rewrite Hack. cbn [isNilErr negb nil_error].
  rewrite Hfwd. cbn [isNilErr negb nil_error].
  unfold bind at 1. rewrite tgSendMessage_eq. fold (alertMessage chat out jsAck jsFwd).
  cbv zeta.
  destruct (nextReply w) as [mid|e]; cbn [isNilErr negb nil_error]; [|reflexivity].
  unfold bind at 1. unfold timeNow at 1.
  unfold bind at 1. unfold NodeStore_List at 1.
  replace (kvNodes (pushRequest (alertMessage chat out jsAck jsFwd) w))
    with (kvNodes w) by reflexivity.
  replace (now (pushRequest (alertMessage chat out jsAck jsFwd) w))
    with (now w) by reflexivity.
  destruct (kvNodes w) as [nodes|e]; cbn [isNilErr negb nil_error]; [|reflexivity].
  cbn [ID Chat Level].
  unfold finishNewAlert, escalationOf, tagMessage. cbn [ID Chat].
  destruct (String.eqb (ownerOf id nodes) zeroString).
  - unfold bind at 1. unfold bind at 1.
    destruct (GetRandomMemberByChatandLevel chat levelOne _) as [[[m err]|msg] w2];
      [|reflexivity].
    destruct err as [e|]; cbn [isNilErr negb nil_error ret]; [reflexivity|].
    unfold bind at 1. unfold modify at 1.
    unfold bind at 1. rewrite tgSendMessage_eq.
    destruct (nextReply _); reflexivity.
  - unfold bind at 1. unfold ret at 1. cbn [isNilErr negb nil_error].
    unfold bind at 1. unfold modify at 1.
    unfold bind at 1. rewrite tgSendMessage_eq.
    destruct (nextReply _); reflexivity.
Qed.

Lemma NewAlert_marshal_needed marshal id chat alert out w a err w' :
  NewAlert marshal id chat alert out w = (Return (Some a, err), w') ->
  exists jsAck jsFwd,
    marshal (mkCallbackData strAcknowledgeData id) = (jsAck, nil_error) /\
    marshal (mkCallbackData strForwardData id) = (jsFwd, nil_error).
Proof.
  unfold NewAlert, NewCallbackData. cbn [isNilErr negb nil_error].
  destruct (marshal (mkCallbackData strAcknowledgeData id)) as [jsAck [e|]];
    cbn [isNilErr negb]; [intros H; discriminate H|].
  destruct (marshal (mkCallbackData strForwardData id)) as [jsFwd [e|]];
    cbn [isNilErr negb]; [intros H; discriminate H|].
  intros _. eauto.
Qed.

Lemma finishNewAlert_Some a memberID w b err w' :
  finishNewAlert a memberID w = (Return (Some b, err), w') ->
  b = a /\ err = nil_error /\
  w' = pushRequest (tagMessage (Chat a) memberID) (spawn (escalationOf (ID a)) w).
Proof.
  unfold finishNewAlert. cbv zeta.
  destruct (nextReply _); intros H; [|discriminate H].
  injection H as <- <- <-. auto.
Qed.

(** X9. What a created case looks like. When [NewAlert] returns a case, the
    error is nil; the case carries the alert id and chat, is at level one
    with its escalation flag set, stamped with the current time, and holds
    the id Telegram gave the alert message; exactly two requests were
    made, the alert with the Acknowledge and Forward buttons and then the
    tag of the assignee; and one escalation goroutine was started. *)
Theorem NewAlert_creates marshal id chat alert out w a err w' :
  NewAlert marshal id chat alert out w = (Return (Some a, err), w') ->
  err = nil_error /\
  (exists mid, nextReply w = inl mid /\
               a = mkHandleAlert id mid chat alert levelOne (now w) true) /\
  (exists jsAck jsFwd memberID,
     outbox w' = outbox w ++ [alertMessage chat out jsAck jsFwd; tagMessage chat memberID] /\
     controls (alertMessage chat out jsAck jsFwd) = [strAcknowledgeData; strForwardData]) /\
  goroutines w' = goroutines w ++ [escalationOf id].
Proof.
  intros H.
  destruct (NewAlert_marshal_needed _ _ _ _ _ _ _ _ _ H) as (jsAck & jsFwd & Hack & Hfwd).
  rewrite (NewAlert_unfold marshal id chat alert out w jsAck jsFwd Hack Hfwd) in H.
  cbv zeta in H.
  destruct (nextReply w) as [mid|e]; [|discriminate H].
  destruct (kvNodes w) as [nodes|e]; [|discriminate H].
  destruct (String.eqb (ownerOf id nodes) zeroString).
  - pose proof (lookup_same outbox chat levelOne (fun _ => eq_refl)
                  (pushRequest (alertMessage chat out jsAck jsFwd) w)) as Ho.
    pose proof (lookup_same goroutines chat levelOne (fun _ => eq_refl)
                  (pushRequest (alertMessage chat out jsAck jsFwd) w)) as Hg.
    unfold same in Ho, Hg.
    destruct (GetRandomMemberByChatandLevel chat levelOne _) as [[[m e]|msg] w2];
      [|discriminate H].
    cbn [snd] in Ho, Hg.
    destruct e as [e|]; cbn [isNilErr] in H; [discriminate H|].
    apply finishNewAlert_Some in H as (-> & -> & ->).
    split; [reflexivity|]. split; [eauto|]. split.
    + exists jsAck, jsFwd, (Member.Username m). split; [|reflexivity].
      simpl. rewrite Ho. simpl. rewrite <- app_assoc. reflexivity.
    + simpl. rewrite Hg. reflexivity.
  - apply finishNewAlert_Some in H as (-> & -> & ->).
    split; [reflexivity|]. split; [eauto|]. split.
    + exists jsAck, jsFwd, (ownerOf id nodes). split; [|reflexivity].
      simpl. rewrite <- app_assoc. reflexivity.
    + reflexivity.
Qed.

Lemma NewAlert_creates_witness :
  let w := Sample.world 50 [Sample.alice] 0 in
  goroutines (snd (NewAlert Sample.marshal "X" Sample.ops Sample.theAlert "down" w))
  = goroutines w ++ [escalationOf "X"].
Proof.
  intros w.
  refine (proj2 (proj2 (proj2
    (NewAlert_creates Sample.marshal "X" Sample.ops Sample.theAlert "down" w
       (mkHandleAlert "X" 0 Sample.ops Sample.theAlert levelOne 50 true) nil_error
       (snd (NewAlert Sample.marshal "X" Sample.ops Sample.theAlert "down" w)) _)))).
  reflexivity.
Defined.

Lemma ownerOf_snoc id nodes n :
  ownerOf id (nodes ++ [n]) =
  if String.eqb (NodeExported.Name n) id then NodeExported.Owner n else ownerOf id nodes.
Proof. unfold ownerOf. rewrite fold_left_app. reflexivity. Qed.

Lemma ownerOf_is_last_named_aux id nodes :
  ownerOf id nodes =
  match last (nodesNamed id nodes) with
  | Some n => NodeExported.Owner n
  | None => zeroString
  end.
Proof.
  induction nodes as [|n nodes IH] using rev_ind; [reflexivity|].
  rewrite ownerOf_snoc. unfold nodesNamed in *. rewrite List.filter_app. simpl.
  destruct (String.eqb (NodeExported.Name n) id).
  - rewrite last_snoc. reflexivity.
  - rewrite app_nil_r. exact IH.
Qed.

(** X10. The owner [NewAlert] finds for an alert is the one of the last
    listed node that carries the alert's name, whatever nodes of other
    names are listed around it; when no node carries the name, the owner
    is the empty string, which sends [NewAlert] to the random lookup. *)
Theorem ownerOf_is_last_named id nodes :
  (forall n, last (nodesNamed id nodes) = Some n ->
             ownerOf id nodes = NodeExported.Owner n) /\
  (nodesNamed id nodes = [] -> ownerOf id nodes = zeroString).
Proof.
  rewrite ownerOf_is_last_named_aux. split.
  - intros n ->. reflexivity.
  - intros ->. reflexivity.
Qed.

Lemma ownerOf_is_last_named_witness :
  ownerOf "httpd"
    [NodeExported.mk zeroString "httpd" "alice"; NodeExported.mk zeroString "nginx" "bob";
     NodeExported.mk zeroString "httpd" "carol"] = "carol" /\
  ownerOf "redis" [NodeExported.mk zeroString "httpd" "alice"] = zeroString.
Proof.
  split.
  - exact (proj1 (ownerOf_is_last_named "httpd"
             [NodeExported.mk zeroString "httpd" "alice"; NodeExported.mk zeroString "nginx" "bob";
              NodeExported.mk zeroString "httpd" "carol"])
             (NodeExported.mk zeroString "httpd" "carol") eq_refl).
  - exact (proj2 (ownerOf_is_last_named "redis" [NodeExported.mk zeroString "httpd" "alice"])
             eq_refl).
Defined.

(** X11. A node named like the alert with a non-empty owner decides the
    assignee. Once the two payloads are encoded, Telegram has accepted
    the alert message and the node store is listed, [NewAlert] goes on to
    start the goroutine and tag that owner without the member store or
    the random source being consulted, so the outcome is the same when
    the chat has no member at level one; the case is returned when
    Telegram accepts the tag. *)
Theorem NewAlert_tags_owner marshal id chat alert out w jsAck jsFwd mid nodes n :
  marshal (mkCallbackData strAcknowledgeData id) = (jsAck, nil_error) ->
  marshal (mkCallbackData strForwardData id) = (jsFwd, nil_error) ->
  nextReply w = inl mid ->
  kvNodes w = inl nodes ->
  last (nodesNamed id nodes) = Some n ->
  NodeExported.Owner n <> zeroString ->
  NewAlert marshal id chat alert out w =
  finishNewAlert (mkHandleAlert id mid chat alert levelOne (now w) true)
                 (NodeExported.Owner n)
                 (pushRequest (alertMessage chat out jsAck jsFwd) w).
Proof.
  intros Hack Hfwd Hr Hn Hlast Hown.
  rewrite (NewAlert_unfold marshal id chat alert out w jsAck jsFwd Hack Hfwd).
  cbv zeta. rewrite Hr, Hn.
  assert (ownerOf id nodes = NodeExported.Owner n) as ->.
  { pose proof (ownerOf_is_last_named_aux id nodes) as H. rewrite Hlast in H. exact H. }
  destruct (String.eqb (NodeExported.Owner n) zeroString) eqn:E; [|reflexivity].
  apply String.eqb_eq in E. contradiction.
Qed.

Lemma NewAlert_tags_owner_witness :
  let w := mkWorld 50 (inl []) (inl [nodeOf "X" "alice"]) (fun _ => 0) 0
                   (fun n => inl (Z.of_nat n)) [] [] in
  NewAlert Sample.marshal "X" Sample.ops Sample.theAlert "down" w =
  finishNewAlert (mkHandleAlert "X" 0 Sample.ops Sample.theAlert levelOne 50 true)
                 "alice"
                 (pushRequest
                    (alertMessage Sample.ops "down" "Acknowledge:X" "Forward:X") w).
Proof.
  intros w.
  apply (NewAlert_tags_owner Sample.marshal "X" Sample.ops Sample.theAlert "down" w
           "Acknowledge:X" "Forward:X" 0 [nodeOf "X" "alice"] (nodeOf "X" "alice"));
    try reflexivity.
  discriminate.
Defined.

(** X12. [NewAlert] starts the escalation goroutine before it sends the tag
    and does not stop it when that last request is rejected: whenever it
    returns an error after having made its two requests, the goroutine of
    the case it did not return is running. *)
Theorem NewAlert_failure_after_tag marshal id chat alert out w e :
  fst (NewAlert marshal id chat alert out w) = Return (None, Some e) ->
  length (outbox (snd (NewAlert marshal id chat alert out w)))
    = S (S (length (outbox w))) ->
  goroutines (snd (NewAlert marshal id chat alert out w))
    = goroutines w ++ [escalationOf id].
Proof.
  intros Hr Hlen.
  destruct (marshal (mkCallbackData strAcknowledgeData id)) as [jsAck e1] eqn:Hack.
  destruct e1 as [e1|].
  { exfalso. revert Hlen. unfold NewAlert, NewCallbackData.
    cbn [isNilErr negb nil_error]. rewrite Hack. simpl. lia. }
  destruct (marshal (mkCallbackData strForwardData id)) as [jsFwd e2] eqn:Hfwd.
  destruct e2 as [e2|].
  { exfalso. revert Hlen. unfold NewAlert, NewCallbackData.
    cbn [isNilErr negb nil_error]. rewrite Hack. cbn [isNilErr negb nil_error].
    rewrite Hfwd. simpl. lia. }
  rewrite (NewAlert_unfold marshal id chat alert out w jsAck jsFwd Hack Hfwd) in *.
  cbv zeta in *.
  destruct (nextReply w) as [mid|e0].
  2:{ exfalso. simpl in Hlen. rewrite length_app in Hlen. simpl in Hlen. lia. }
  destruct (kvNodes w) as [nodes|e0].
  2:{ exfalso. simpl in Hlen. rewrite length_app in Hlen. simpl in Hlen. lia. }
  destruct (String.eqb (ownerOf id nodes) zeroString).
  - pose proof (lookup_same outbox chat levelOne (fun _ => eq_refl)
                  (pushRequest (alertMessage chat out jsAck jsFwd) w)) as Ho.
    pose proof (lookup_same goroutines chat levelOne (fun _ => eq_refl)
                  (pushRequest (alertMessage chat out jsAck jsFwd) w)) as Hg.
    unfold same in Ho, Hg.
    destruct (GetRandomMemberByChatandLevel chat levelOne _) as [[[m e']|msg] w2];
      [|discriminate Hr].
    cbn [snd] in Ho, Hg.
    destruct e' as [e'|]; cbn [isNilErr] in *.
    + exfalso. cbn [snd] in Hlen. rewrite Ho in Hlen. simpl in Hlen.
      rewrite length_app in Hlen. simpl in Hlen. lia.
    + unfold finishNewAlert. simpl. rewrite Hg. reflexivity.
  - reflexivity.
Qed.

Lemma NewAlert_failure_after_tag_witness :
  let w := mkWorld 50 (inl []) (inl [nodeOf "X" "alice"]) (fun _ => 0) 0
             (fun n => match n with O => inl 7 | _ => inr "api error" end) [] [] in
  fst (NewAlert Sample.marshal "X" Sample.ops Sample.theAlert "down" w)
    = Return (None, Some "api error") /\
  goroutines (snd (NewAlert Sample.marshal "X" Sample.ops Sample.theAlert "down" w))
    = [escalationOf "X"].
Proof.
  intros w. split; [reflexivity|].
  exact (NewAlert_failure_after_tag Sample.marshal "X" Sample.ops Sample.theAlert
           "down" w "api error" eq_refl eq_refl).
Defined.

(** X13. With the two payloads encoded, the alert message accepted by
    Telegram and both stores listed: when there is no owner for the alert
    and nobody of the chat at level one, [NewAlert] panics after the
    alert message, with its two live buttons, has been sent: no case
    exists for it and no goroutine was started. *)
Theorem NewAlert_panics_without_assignee marshal id chat alert out w
    jsAck jsFwd mid nodes ms :
  marshal (mkCallbackData strAcknowledgeData id) = (jsAck, nil_error) ->
  marshal (mkCallbackData strForwardData id) = (jsFwd, nil_error) ->
  nextReply w = inl mid ->
  kvNodes w = inl nodes ->
  ownerOf id nodes = zeroString ->
  kvMembers w = inl ms ->
  candidates chat levelOne ms = [] ->
  NewAlert marshal id chat alert out w =
  (Panic "invalid argument to Intn",
   pushRequest (alertMessage chat out jsAck jsFwd) w).
Proof.
  intros Hack Hfwd Hr Hn Hown Hkv Hnone.
  rewrite (NewAlert_unfold marshal id chat alert out w jsAck jsFwd Hack Hfwd).
  cbv zeta. rewrite Hr, Hn, Hown. cbn [String.eqb zeroString].
  rewrite (lookup_empty chat levelOne
             (pushRequest (alertMessage chat out jsAck jsFwd) w) ms Hkv Hnone).
  reflexivity.
Qed.

Lemma NewAlert_panics_without_assignee_witness :
  let w := Sample.world 50 [Sample.carol] 0 in
  NewAlert Sample.marshal "X" Sample.ops Sample.theAlert "down" w =
  (Panic "invalid argument to Intn",
   pushRequest (alertMessage Sample.ops "down" "Acknowledge:X" "Forward:X") w).
Proof.
  intros w.
  apply (NewAlert_panics_without_assignee Sample.marshal "X" Sample.ops
           Sample.theAlert "down" w "Acknowledge:X" "Forward:X" 0 [] [Sample.carol]);
    reflexivity.
Defined.

(** ** The dispatch loop *)

Lemma poke_eq h a heap : poke h a heap h = a.
Proof. unfold poke. rewrite Nat.eqb_refl. reflexivity. Qed.

Lemma poke_ne h a heap r : r <> h -> poke h a heap r = heap r.
Proof. intros H. unfold poke. apply Nat.eqb_neq in H. rewrite H. reflexivity. Qed.

(** A callback whose data names neither button, or an alert the registry
    does not hold, changes nothing: no case is touched and no request is
    made. *)
Lemma callback_without_case_is_ignored marshal decode callback l :
  (Button (decode (telebot.CallbackData callback)) <> strAcknowledgeData /\
   Button (decode (telebot.CallbackData callback)) <> strForwardData) \/
  HandleAlerts l !! AlertID (decode (telebot.CallbackData callback)) = None ->
  onCallback marshal decode callback l = (Return tt, l).
Proof.
  intros [[Hack Hfwd]|Hnone]; unfold onCallback; cbv zeta.
  - apply String.eqb_neq in Hack, Hfwd. rewrite Hack, Hfwd. reflexivity.
  - unfold lookupAlerts. rewrite Hnone. simpl.
    destruct (String.eqb _ strAcknowledgeData); [reflexivity|].
    destruct (String.eqb _ strForwardData); reflexivity.
Qed.

Lemma callback_without_case_is_ignored_witness :
  let l := mkLoop ∅ (fun _ => Sample.case levelOne true) (Sample.world 0 [] 0) in
  onCallback Sample.marshal (fun _ => mkCallbackData "Forward" "X") Sample.bob l
  = (Return tt, l).
Proof.
  intros l.
  apply (callback_without_case_is_ignored Sample.marshal
           (fun _ => mkCallbackData "Forward" "X") Sample.bob l).
  right. reflexivity.
Defined.

Lemma acknowledgeBody_run callback a w :
  acknowledgeBody callback (a, w) =
  let a1 := setMessageID (telebot.MessageID callback) a in
  match nextReply w with
  | inl _ =>
      (Return false,
       (acknowledged callback a,
        pushRequest (ackNotice callback a1) (pushRequest (clearControls a1) w)))
  | inr _ => (Return false, (a1, pushRequest (clearControls a1) w))
  end.
Proof.
  unfold acknowledgeBody. unfold bind at 1. unfold onSelf at 1, modify at 1.
  cbn [fst snd]. unfold bind at 1.
  unfold Second.Acknowledge, bind, this, inWorld, onSelf, modify, ret. cbn [fst snd].
  rewrite tgEditMessageReplyMakeup_eq.
  destruct (nextReply w); cbn [isNilErr negb nil_error fst snd]; [|reflexivity].
  rewrite tgSendMessage_eq. reflexivity.
Qed.

Lemma acknowledged_twice callback a :
  acknowledged callback (acknowledged callback a) = acknowledged callback a.
Proof. reflexivity. Qed.

Lemma accepting_pushRequest r w : accepting w -> accepting (pushRequest r w).
Proof. intros H n. exact (H n). Qed.

Lemma accepting_nextReply w : accepting w -> exists i, nextReply w = inl i.
Proof. intros H. exact (H (length (outbox w))). Qed.

Lemma range_acknowledge callback refs l :
  exists l',
    rangeOver refs (fun h => through h (acknowledgeBody callback)) l = (Return tt, l') /\
    HandleAlerts l' = HandleAlerts l /\
    (forall h, ~ In h refs -> heap l' h = heap l h) /\
    (accepting (world l) ->
     forall h, In h refs -> heap l' h = acknowledged callback (heap l h)).
Proof.
  revert l. induction refs as [|x refs IH]; intros l.
  - exists l. simpl. repeat split; auto. intros _ h [].
  - cbn [rangeOver]. unfold bind at 1. unfold through at 1.
    rewrite (acknowledgeBody_run callback (heap l x) (world l)). cbv zeta.
    destruct (nextReply (world l)) as [i|e] eqn:Hr.
    + set (w1 := pushRequest _ (pushRequest _ (world l))).
      set (l1 := mkLoop (HandleAlerts l)
                   (poke x (acknowledged callback (heap l x)) (heap l)) w1).
      destruct (IH l1) as (l' & -> & Hreg & Hout & Hin).
      exists l'. split; [reflexivity|]. split; [exact Hreg|]. split.
      * intros h Hh. rewrite (Hout h); [|intros Hr'; apply Hh; right; exact Hr'].
        subst l1. cbn [heap]. apply poke_ne. intros ->. apply Hh. left. reflexivity.
      * intros Hacc h Hh.
        assert (accepting (world l1)) as Hacc1.
        { subst l1 w1. cbn [world]. do 2 apply accepting_pushRequest. exact Hacc. }
        destruct (in_dec Nat.eq_dec h refs) as [Hr'|Hr'].
        -- rewrite (Hin Hacc1 h Hr'). subst l1. cbn [heap]. unfold poke.
           destruct (Nat.eqb h x) eqn:E; [|reflexivity].
           apply Nat.eqb_eq in E. subst h. apply acknowledged_twice.
        -- rewrite (Hout h Hr'). destruct Hh as [->|Hh]; [|contradiction].
           subst l1. cbn [heap]. apply poke_eq.
    + set (a1 := setMessageID (telebot.MessageID callback) (heap l x)).
      set (l1 := mkLoop (HandleAlerts l) (poke x a1 (heap l))
                   (pushRequest (clearControls a1) (world l))).
      destruct (IH l1) as (l' & -> & Hreg & Hout & _).
      exists l'. split; [reflexivity|]. split; [exact Hreg|]. split.
      * intros h Hh. rewrite (Hout h); [|intros Hr'; apply Hh; right; exact Hr'].
        subst l1. cbn [heap]. apply poke_ne. intros ->. apply Hh. left. reflexivity.
      * intros Hacc. destruct (accepting_nextReply _ Hacc) as [i Hi]. congruence.
Qed.

Lemma range_acknowledge_one callback h l :
  heap (snd (rangeOver [h] (fun h => through h (acknowledgeBody callback)) l)) h
  = match nextReply (world l) with
    | inl _ => acknowledged callback (heap l h)
    | inr _ => setMessageID (telebot.MessageID callback) (heap l h)
    end.
Proof.
  cbn [rangeOver]. unfold bind at 1. unfold through at 1.
  rewrite (acknowledgeBody_run callback (heap l h) (world l)). cbv zeta.
  destruct (nextReply (world l)); unfold ret; cbn [snd heap]; apply poke_eq.
Qed.

Lemma acknowledge_callback_aux marshal decode callback l :
  Button (decode (telebot.CallbackData callback)) = strAcknowledgeData ->
  let refs := lookupAlerts (HandleAlerts l)
                (AlertID (decode (telebot.CallbackData callback))) in
  let l' := snd (onCallback marshal decode callback l) in
  fst (onCallback marshal decode callback l) = Return tt /\
  HandleAlerts l' = HandleAlerts l /\
  (forall h, ~ In h refs -> heap l' h = heap l h) /\
  (accepting (world l) ->
   forall h, In h refs -> heap l' h = acknowledged callback (heap l h)) /\
  (forall h, refs = [h] ->
     heap l' h = match nextReply (world l) with
                 | inl _ => acknowledged callback (heap l h)
                 | inr _ => setMessageID (telebot.MessageID callback) (heap l h)
                 end).
Proof.
  intros Hb refs l'.
  assert (onCallback marshal decode callback l
          = rangeOver refs (fun h => through h (acknowledgeBody callback)) l) as E.
  { unfold onCallback. cbv zeta. rewrite Hb. reflexivity. }
  subst l'. rewrite E.
  destruct (range_acknowledge callback refs l) as (l' & E' & H1 & H2 & H3).
  split; [rewrite E'; reflexivity|].
  split; [rewrite E'; exact H1|].
  split; [rewrite E'; exact H2|].
  split; [rewrite E'; exact H3|].
  intros h Hh. rewrite Hh. apply range_acknowledge_one.
Qed.

(** X14. An Acknowledge press reaches every case the registry holds under
    the alert, and no other: the cases of other alerts and the registry
    itself are as before, whatever Telegram answers. With Telegram
    accepting the requests every case reached is stopped: it gets the
    message id of the callback and a cleared flag. For the one case the
    registry holds under an id, the answer to the edit decides: accepted,
    the case is stopped; rejected, the case gets the message id and keeps
    its escalation flag. *)
Theorem acknowledge_callback_stops_cases marshal decode callback l :
  Button (decode (telebot.CallbackData callback)) = strAcknowledgeData ->
  let refs := lookupAlerts (HandleAlerts l)
                (AlertID (decode (telebot.CallbackData callback))) in
  let l' := snd (onCallback marshal decode callback l) in
  fst (onCallback marshal decode callback l) = Return tt /\
  HandleAlerts l' = HandleAlerts l /\
  (forall h, ~ In h refs -> heap l' h = heap l h) /\
  (accepting (world l) ->
   forall h, In h refs -> heap l' h = acknowledged callback (heap l h)) /\
  (forall h, refs = [h] ->
     heap l' h = match nextReply (world l) with
                 | inl _ => acknowledged callback (heap l h)
                 | inr _ => setMessageID (telebot.MessageID callback) (heap l h)
                 end).
Proof.
  intros Hb refs l'. exact (acknowledge_callback_aux marshal decode callback l Hb).
Qed.

Lemma acknowledge_callback_stops_cases_witness :
  let l := mkLoop (<["X" := [4%nat]]> ∅) (fun _ => Sample.case levelTwo true)
                  (Sample.world 0 [] 0) in
  let l' := snd (onCallback Sample.marshal (fun _ => mkCallbackData "Acknowledge" "X")
                   Sample.bob l) in
  heap l' 4%nat = acknowledged Sample.bob (Sample.case levelTwo true) /\
  heap l' 5%nat = Sample.case levelTwo true.
Proof.
  intros l l'.
  destruct (acknowledge_callback_stops_cases Sample.marshal
              (fun _ => mkCallbackData "Acknowledge" "X") Sample.bob l eq_refl)
    as (_ & _ & Hout & _ & Hone).
  split.
  - exact (Hone 4%nat eq_refl).
  - apply (Hout 5%nat). intros [H|[]]. discriminate H.
Defined.

Lemma intake_fresh deref (reg : gmap string (list Ref)) a :
  lookupAlerts reg (ID (deref a)) = [] ->
  intake deref reg a = <[ID (deref a) := [a]]> reg.
Proof. intros H. unfold intake. rewrite H. reflexivity. Qed.

Lemma intake_known deref (reg : gmap string (list Ref)) a :
  lookupAlerts reg (ID (deref a)) <> [] -> intake deref reg a = reg.
Proof.
  intros H. unfold intake.
  destruct (lookupAlerts reg (ID (deref a))); [congruence|reflexivity].
Qed.

(** X15. The case of a duplicate firing is out of reach of the buttons. When
    two cases arrive under one id that was free, an Acknowledge press for
    that id acts on the first alone: the first is stopped when Telegram
    accepts the edit (and only given the message id when it rejects it),
    and the second is left exactly as it was, its escalation flag
    included, whatever Telegram answers. *)
Theorem duplicate_case_is_not_acknowledged marshal decode callback l (a1 a2 : Ref) :
  a1 <> a2 ->
  ID (heap l a1) = ID (heap l a2) ->
  lookupAlerts (HandleAlerts l) (ID (heap l a1)) = [] ->
  decode (telebot.CallbackData callback)
    = mkCallbackData strAcknowledgeData (ID (heap l a1)) ->
  let l' := snd (runLoop marshal decode [EvAlert a1; EvAlert a2; EvCallback callback] l) in
  heap l' a1 = match nextReply (world l) with
               | inl _ => acknowledged callback (heap l a1)
               | inr _ => setMessageID (telebot.MessageID callback) (heap l a1)
               end /\
  heap l' a2 = heap l a2.
Proof.
  intros Hne Hid Hfree Hcd l'.
  assert (l' = snd (onCallback marshal decode callback
                      (mkLoop (<[ID (heap l a1) := [a1]]> (HandleAlerts l))
                              (heap l) (world l)))) as ->.
  { subst l'. cbn [runLoop onEvent]. unfold bind, onAlert, ret.
    cbn [heap HandleAlerts world].
    rewrite (intake_fresh (heap l) (HandleAlerts l) a1 Hfree).
    rewrite (intake_known (heap l) _ a2).
    2:{ rewrite <- Hid, lookupAlerts_insert. discriminate. }
    destruct (onCallback marshal decode callback _) as [[[]|msg] l2]; reflexivity. }
  set (l1 := mkLoop (<[ID (heap l a1) := [a1]]> (HandleAlerts l)) (heap l) (world l)).
  destruct (acknowledge_callback_aux marshal decode callback l1)
    as (_ & _ & Hout & _ & Hone).
  { rewrite Hcd. reflexivity. }
  assert (lookupAlerts (HandleAlerts l1) (AlertID (decode (telebot.CallbackData callback)))
          = [a1]) as Hrefs.
  { rewrite Hcd. subst l1. cbn [HandleAlerts AlertID]. apply lookupAlerts_insert. }
  rewrite Hrefs in Hout. split.
  - exact (Hone a1 Hrefs).
  - apply (Hout a2). intros [H|[]]. congruence.
Qed.

Lemma duplicate_case_is_not_acknowledged_witness :
  let heap0 := fun r : Ref => setMessageID (Z.of_nat r) (Sample.case levelOne true) in
  let l := mkLoop ∅ heap0 (Sample.world 0 [] 0) in
  let l' := snd (runLoop Sample.marshal (fun _ => mkCallbackData "Acknowledge" "X")
                   [EvAlert 1%nat; EvAlert 2%nat; EvCallback Sample.bob] l) in
  heap l' 1%nat = acknowledged Sample.bob (heap0 1%nat) /\
  AutoForwardFlag (heap l' 2%nat) = true.
Proof.
  intros heap0 l l'.
  destruct (duplicate_case_is_not_acknowledged Sample.marshal
              (fun _ => mkCallbackData "Acknowledge" "X") Sample.bob l 1%nat 2%nat)
    as [H1 H2]; try reflexivity.
  { discriminate. }
  split; [exact H1|]. fold l' in H2. rewrite H2. reflexivity.
Defined.

#[local] Instance loopFrame_refl : Reflexive loopFrame.
Proof. intros l. split; reflexivity. Qed.

#[local] Instance loopFrame_trans : Transitive loopFrame.
Proof.
  intros l1 l2 l3 [H1 H2] [H3 H4]. split; [congruence|].
  intros r. rewrite H4. apply H2.
Qed.

Lemma IncreaseLevel_same_ID : keeps (same ID) IncreaseLevel.
Proof. intros a. unfold same. rewrite IncreaseLevel_state. reflexivity. Qed.

Lemma acknowledgeBody_same_ID callback :
  keeps (both (same ID) any) (acknowledgeBody callback).
Proof.
  unfold acknowledgeBody, Second.Acknowledge. keeps_auto; apply keeps_modify; reflexivity.
Qed.

Lemma forwardBody_same_ID marshal callback :
  keeps (both (same ID) any) (forwardBody marshal callback).
Proof.
  unfold forwardBody. keeps_auto.
  - apply keeps_modify. reflexivity.
  - simpl. keeps_auto. unfold Second.Forward. keeps_auto. apply IncreaseLevel_same_ID.
Qed.

Lemma through_loopFrame {A} h (m : Go St A) :
  keeps (both (same ID) any) m -> keeps loopFrame (through h m).
Proof.
  intros H l. unfold through.
  destruct (H (heap l h, world l)) as [Hid _].
  destruct (m (heap l h, world l)) as [r [a' w']]. cbn [fst snd] in *.
  split; [reflexivity|]. intros r0. cbn [heap]. unfold poke.
  destruct (Nat.eqb r0 h) eqn:E; [|reflexivity].
  apply Nat.eqb_eq in E. subst r0. exact Hid.
Qed.

Lemma rangeOver_loopFrame {A} (xs : list A) (body : A -> Go Loop bool) :
  (forall x, keeps loopFrame (body x)) -> keeps loopFrame (rangeOver xs body).
Proof.
  intros H. induction xs as [|x xs IH]; cbn [rangeOver].
  - apply keeps_ret. typeclasses eauto.
  - apply keeps_bind; [typeclasses eauto|apply H|].
    intros [|]; [apply keeps_ret; typeclasses eauto|exact IH].
Qed.

Lemma onCallback_loopFrame marshal decode callback :
  keeps loopFrame (onCallback marshal decode callback).
Proof.
  intros l. unfold onCallback. cbv zeta.
  destruct (String.eqb _ strAcknowledgeData).
  - apply rangeOver_loopFrame. intros h.
    apply through_loopFrame, acknowledgeBody_same_ID.
  - destruct (String.eqb _ strForwardData); [|reflexivity].
    apply rangeOver_loopFrame. intros h.
    apply through_loopFrame, forwardBody_same_ID.
Qed.

Lemma oneCasePerID_frame l l' : loopFrame l l' -> oneCasePerID l -> oneCasePerID l'.
Proof.
  intros [Hreg Hid] H id refs Hl. rewrite Hreg in Hl.
  destruct (H id refs Hl) as (h & -> & Hh).
  exists h. split; [reflexivity|]. rewrite Hid. exact Hh.
Qed.

Lemma onAlert_oneCasePerID a l : oneCasePerID l -> oneCasePerID (snd (onAlert a l)).
Proof.
  intros H. unfold onAlert. cbn [snd].
  intros id refs. cbn [HandleAlerts heap]. unfold intake.
  destruct (lookupAlerts (HandleAlerts l) (ID (heap l a))) as [|h0 rest] eqn:E;
    cbn [isNilSlice]; [|apply H].
  destruct (decide (id = ID (heap l a))) as [->|Hne].
  - rewrite lookup_insert_eq. intros [= <-]. exists a. auto.
  - rewrite lookup_insert_ne by congruence. apply H.
Qed.

(** X16. Whatever alerts and button presses the loop receives, its registry
    keeps holding, under every id it knows, exactly one pointer, to a case
    of that id. *)
Theorem registry_holds_one_case_per_id marshal decode (events : list Event) l :
  oneCasePerID l ->
  oneCasePerID (snd (runLoop marshal decode events l)).
Proof.
  revert l. induction events as [|ev events IH]; intros l H; [exact H|].
  cbn [runLoop]. unfold bind.
  assert (oneCasePerID (snd (onEvent marshal decode ev l))) as H1.
  { destruct ev as [callback|a]; cbn [onEvent].
    - apply (oneCasePerID_frame l); [apply onCallback_loopFrame|exact H].
    - apply onAlert_oneCasePerID. exact H. }
  destruct (onEvent marshal decode ev l) as [[[]|msg] l1]; cbn [snd] in *.
  - apply IH. exact H1.
  - exact H1.
Qed.

Lemma registry_holds_one_case_per_id_witness :
  let heap0 := fun r : Ref => setMessageID (Z.of_nat r) (Sample.case levelOne true) in
  oneCasePerID
    (snd (runLoop Sample.marshal (fun _ => mkCallbackData "Forward" "X")
            [EvAlert 1%nat; EvCallback Sample.bob; EvAlert 2%nat]
            (mkLoop ∅ heap0 (Sample.world 0 [Sample.carol] 0)))).
Proof.
  intros heap0.
  apply (registry_holds_one_case_per_id Sample.marshal
           (fun _ => mkCallbackData "Forward" "X")
           [EvAlert 1%nat; EvCallback Sample.bob; EvAlert 2%nat]
           (mkLoop ∅ heap0 (Sample.world 0 [Sample.carol] 0))).
  intros id refs Hl. cbn [HandleAlerts] in Hl. rewrite fin_maps.lookup_empty in Hl. discriminate Hl.
Defined.

(** ** The administrators *)

Lemma half_between (i j : nat) :
  (i < j)%nat -> (i <= (i + j) / 2 < j)%nat.
Proof.
  intros H. pose proof (Nat.div_mod_eq (i + j) 2) as E.
  pose proof (Nat.mod_upper_bound (i + j) 2 ltac:(lia)) as B. lia.
Qed.

(** [searchLoop] on a predicate that, once true, stays true. *)
Lemma searchLoop_spec n (f : nat -> bool) :
  (forall k k', (k <= k')%nat -> (k' < n)%nat -> f k = true -> f k' = true) ->
  forall fuel i j,
    (i <= j <= n)%nat -> (j - i <= fuel)%nat ->
    (forall k, (k < i)%nat -> f k = false) ->
    (forall k, (j <= k < n)%nat -> f k = true) ->
    let r := searchLoop fuel f i j in
    (r <= n)%nat /\
    (forall k, (k < r)%nat -> f k = false) /\
    (forall k, (r <= k < n)%nat -> f k = true).
Proof.
  intros Hmono. induction fuel as [|fuel IH]; intros i j Hij Hfuel Hlo Hhi; cbn [searchLoop].
  - assert (i = j) as -> by lia. cbv zeta. repeat split; [lia|exact Hlo|exact Hhi].
  - destruct (Nat.ltb_spec i j) as [Hlt|Hge].
    + pose proof (half_between i j Hlt) as Hh. cbv zeta.
      destruct (f ((i + j) / 2)%nat) eqn:Ef; cbn [negb].
      * apply IH; [lia|lia|exact Hlo|].
        intros k Hk. apply (Hmono ((i + j) / 2)%nat k); [lia|lia|exact Ef].
      * apply IH; [lia|lia| |exact Hhi].
        intros k Hk. destruct (f k) eqn:Ek; [|reflexivity].
        rewrite (Hmono k ((i + j) / 2)%nat) in Ef; [discriminate|lia|lia|exact Ek].
    + assert (i = j) as -> by lia. cbv zeta. repeat split; [lia|exact Hlo|exact Hhi].
Qed.

Lemma StronglySorted_nth (a : list Z) :
  StronglySorted Z.le a ->
  forall k k', (k <= k')%nat -> (k' < length a)%nat -> nth k a 0 <= nth k' a 0.
Proof.
  induction 1 as [|x a Hs IH Hall]; intros k k' Hk Hlen; [simpl in Hlen; lia|].
  destruct k as [|k], k' as [|k']; simpl in *; try lia.
  - rewrite List.Forall_forall in Hall. apply Hall. apply nth_In. lia.
  - apply IH; lia.
Qed.

Lemma isAdminID_sorted_iff admins id :
  Sorted Z.le admins -> (isAdminID admins id = true <-> In id admins).
Proof.
  intros Hs. apply (Sorted_StronglySorted Z.le) in Hs.
  pose proof (StronglySorted_nth admins Hs) as Hnth.
  unfold isAdminID, SearchInts, Search. cbv zeta.
  set (f := fun i : nat => id <=? nth i admins 0).
  destruct (searchLoop_spec (length admins) f) with
    (fuel := length admins) (i := 0%nat) (j := length admins) as (Hr & Hlo & Hhi).
  - intros k k' Hk Hk' Hf. subst f. cbv beta in *.
    apply Z.leb_le in Hf. apply Z.leb_le. specialize (Hnth k k' Hk Hk'). lia.
  - lia.
  - lia.
  - intros k Hk. lia.
  - intros k Hk. lia.
  - set (r := searchLoop (length admins) f 0 (length admins)) in *.
    rewrite andb_true_iff, Nat.ltb_lt, Z.eqb_eq. split.
    + intros [Hlt E]. rewrite <- E. apply nth_In. exact Hlt.
    + intros Hin. apply (In_nth _ _ 0) in Hin as (k & Hk & Ek).
      assert (f k = true) as Hfk by (subst f; cbv beta; rewrite Ek; apply Z.leb_refl).
      assert (r <= k)%nat as Hrk.
      { destruct (Nat.le_gt_cases r k) as [H|H]; [exact H|].
        rewrite (Hlo k H) in Hfk. discriminate. }
      split; [lia|].
      pose proof (Hhi r ltac:(lia)) as Hfr. subst f. cbv beta in Hfr.
      apply Z.leb_le in Hfr. specialize (Hnth r k Hrk Hk). lia.
Qed.

(** X17. On a sorted [admins] slice, [isAdminID] answers true exactly for the
    ids the slice holds. *)
Theorem isAdminID_correct admins id :
  Sorted Z.le admins -> (isAdminID admins id = true <-> In id admins).
Proof. exact (isAdminID_sorted_iff admins id). Qed.

Lemma isAdminID_correct_witness :
  isAdminID [3; 8; 21] 8 = true <-> In 8 [3; 8; 21].
Proof.
  apply (isAdminID_correct [3; 8; 21] 8).
  repeat constructor; lia.
Defined.

Lemma WithExtraAdmins_sorted ids admins : Sorted Z.le (WithExtraAdmins ids admins).
Proof.
  unfold WithExtraAdmins, sortInts. apply Sorted_merge_sort. intros x y. lia.
Qed.

Lemma WithExtraAdmins_In ids admins id :
  In id (WithExtraAdmins ids admins) <-> In id admins \/ In id ids.
Proof.
  unfold WithExtraAdmins, sortInts. rewrite <- in_app_iff.
  rewrite <- !list_elem_of_In. rewrite merge_sort_Permutation. reflexivity.
Qed.

Lemma adminsOfNewBot_sorted admin extras : Sorted Z.le (adminsOfNewBot admin extras).
Proof.
  unfold adminsOfNewBot.
  assert (Sorted Z.le [admin]) as H by (repeat constructor).
  revert H. generalize [admin]. induction extras as [|ids extras IH]; intros a H; simpl.
  - exact H.
  - apply IH, WithExtraAdmins_sorted.
Qed.

Lemma adminsOfNewBot_In admin extras id :
  In id (adminsOfNewBot admin extras) <->
  id = admin \/ exists ids, In ids extras /\ In id ids.
Proof.
  unfold adminsOfNewBot.
  assert (forall a, In id (fold_left (fun admins ids => WithExtraAdmins ids admins) extras a)
                    <-> In id a \/ exists ids, In ids extras /\ In id ids) as H.
  { induction extras as [|ids extras IH]; intros a; simpl.
    - split; [auto|]. intros [H|(ids & [] & _)]. exact H.
    - rewrite IH, WithExtraAdmins_In. split.
      + intros [[H|H]|(ids' & H1 & H2)]; eauto 6.
      + intros [H|(ids' & [<-|H1] & H2)]; eauto 6. }
  rewrite H. simpl. split; intros [H0|H0]; auto.
  - destruct H0 as [<-|[]]. auto.
Qed.

(** X18. The bot's administrators are exactly the one given to [NewBot] and
    those of all its [WithExtraAdmins] options, in whatever order and with
    whatever repetitions they were given: each option re-sorts the slice,
    so the binary search of [isAdminID] finds every one of them and
    nobody else. *)
Theorem isAdminID_of_NewBot admin (extras : list (list Z)) id :
  isAdminID (adminsOfNewBot admin extras) id = true <->
  id = admin \/ exists ids, In ids extras /\ In id ids.
Proof.
  rewrite (isAdminID_sorted_iff _ _ (adminsOfNewBot_sorted admin extras)).
  apply adminsOfNewBot_In.
Qed.

Lemma isAdminID_of_NewBot_witness :
  isAdminID (adminsOfNewBot 5 [[9; 2]; [7]]) 7 = true /\
  isAdminID (adminsOfNewBot 5 [[9; 2]; [7]]) 6 = false.
Proof.
  split.
  - apply (proj2 (isAdminID_of_NewBot 5 [[9; 2]; [7]] 7)).
    right. exists [7]. split; [right; left; reflexivity|left; reflexivity].
  - destruct (isAdminID (adminsOfNewBot 5 [[9; 2]; [7]]) 6) eqn:E; [|reflexivity].
    apply (proj1 (isAdminID_of_NewBot 5 [[9; 2]; [7]] 6)) in E.
    exfalso. destruct E as [E|(ids & [<-|[<-|[]]] & Hin)].
    + discriminate E.
    + destruct Hin as [H|[H|[]]]; discriminate H.
    + destruct Hin as [H|[]]; discriminate H.
Defined.

(** ** The commands that edit the directory *)

Lemma reply_eq message text s :
  reply message text s = (Return tt, replied message text s).
Proof.
  unfold reply, bind, inTelegram, replied. rewrite tgSendMessage_eq. reflexivity.
Qed.

Ltac handler_compute :=
  cbv -[String.eqb levelOne levelTwo levelThree reply replied kvKey
        telegramMembersDirectory telegramNodesDirectory].

Lemma handleAddMember_three jm jn message s p0 p1 p2 :
  Split (MsgText message) = [p0; p1; p2] ->
  handleAddMember jm jn message s =
  if validLevel p2 then
    match jm (Member.mk p1 p2 (MsgChat message)) with
    | (b, None) =>
        let s1 := mkSys (called (KvPut (kvKey telegramMembersDirectory p1) b) (backend s))
                        (telegram s) in
        match nextAnswer (backend s) with
        | None =>
            if String.eqb p2 levelOne then (Panic "index out of range", s1)
            else (Return tt, replied message responseMember s1)
        | Some e => (Return tt, replied message addMemberFailed s1)
        end
    | (_, Some e) => (Return tt, replied message addMemberFailed s)
    end
  else (Return tt, replied message addMemberLevel s).
Proof.
  intros H. unfold handleAddMember. rewrite H. destruct s as [[calls answer] w].
  handler_compute.
  destruct (String.eqb p2 levelOne) eqn:E1.
  - destruct (jm _) as [b [e|]]; [(rewrite ?reply_eq; reflexivity)|].
    destruct (answer _); [(rewrite ?reply_eq; reflexivity)|reflexivity].
  - destruct (String.eqb p2 levelTwo) eqn:E2.
    + destruct (jm _) as [b [e|]]; [(rewrite ?reply_eq; reflexivity)|].
      destruct (answer _); (rewrite ?reply_eq; reflexivity).
    + destruct (String.eqb p2 levelThree) eqn:E3; [|(rewrite ?reply_eq; reflexivity)].
      destruct (jm _) as [b [e|]]; [(rewrite ?reply_eq; reflexivity)|].
      destruct (answer _); (rewrite ?reply_eq; reflexivity).
Qed.

Lemma handleAddMember_four jm jn message s p0 p1 p2 p3 :
  Split (MsgText message) = [p0; p1; p2; p3] ->
  handleAddMember jm jn message s =
  if validLevel p2 then
    match jm (Member.mk p1 p2 (MsgChat message)) with
    | (b, None) =>
        let k1 := called (KvPut (kvKey telegramMembersDirectory p1) b) (backend s) in
        let s1 := mkSys k1 (telegram s) in
        match nextAnswer (backend s) with
        | None =>
            if String.eqb p2 levelOne then
              match jn (NodeExported.mk zeroString p3 p1) with
              | (bn, None) =>
                  let s2 :=
                    mkSys (called (KvPut (kvKey telegramNodesDirectory zeroString) bn) k1)
                          (telegram s) in
                  match nextAnswer k1 with
                  | None => (Return tt, replied message responseMember s2)
                  | Some e => (Return tt, replied message addNodeFailed s2)
                  end
              | (_, Some e) => (Return tt, replied message addNodeFailed s1)
              end
            else (Return tt, replied message responseMember s1)
        | Some e => (Return tt, replied message addMemberFailed s1)
        end
    | (_, Some e) => (Return tt, replied message addMemberFailed s)
    end
  else (Return tt, replied message addMemberLevel s).
Proof.
  intros H. unfold handleAddMember. rewrite H. destruct s as [[calls answer] w].
  handler_compute.
  destruct (String.eqb p2 levelOne) eqn:E1.
  - destruct (jm _) as [b [e|]]; [(rewrite ?reply_eq; reflexivity)|].
    destruct (answer _); [(rewrite ?reply_eq; reflexivity)|].
    destruct (jn _) as [bn [e|]]; [(rewrite ?reply_eq; reflexivity)|].
    destruct (answer _); (rewrite ?reply_eq; reflexivity).
  - destruct (String.eqb p2 levelTwo) eqn:E2.
    + destruct (jm _) as [b [e|]]; [(rewrite ?reply_eq; reflexivity)|].
      destruct (answer _); (rewrite ?reply_eq; reflexivity).
    + destruct (String.eqb p2 levelThree) eqn:E3; [|(rewrite ?reply_eq; reflexivity)].
      destruct (jm _) as [b [e|]]; [(rewrite ?reply_eq; reflexivity)|].
      destruct (answer _); (rewrite ?reply_eq; reflexivity).
Qed.

Lemma handleAddMember_count jm jn message s :
  (length (Split (MsgText message)) < 3 \/ 4 < length (Split (MsgText message)))%nat ->
  handleAddMember jm jn message s = (Return tt, replied message addMemberFormat s).
Proof.
  intros H. unfold handleAddMember. cbv zeta.
  assert ((len (Split (MsgText message)) <? 3) || (4 <? len (Split (MsgText message)))
          = true) as ->.
  { unfold len. apply orb_true_iff. rewrite !Z.ltb_lt. lia. }
  (rewrite ?reply_eq; reflexivity).
Qed.

Lemma handleRemoveMember_two message s p0 p1 :
  Split (MsgText message) = [p0; p1] ->
  handleRemoveMember message s =
  let s1 := mkSys (called (KvDelete (kvKey telegramMembersDirectory p1)) (backend s))
                  (telegram s) in
  match nextAnswer (backend s) with
  | None => (Return tt, replied message responseMember s1)
  | Some e => (Return tt, replied message removeMemberFailed s1)
  end.
Proof.
  intros H. unfold handleRemoveMember. rewrite H. destruct s as [[calls answer] w].
  handler_compute. destruct (answer _); (rewrite ?reply_eq; reflexivity).
Qed.

Lemma handleRemoveMember_count message s :
  length (Split (MsgText message)) <> 2%nat ->
  handleRemoveMember message s = (Return tt, replied message removeMemberFormat s).
Proof.
  intros H. unfold handleRemoveMember. cbv zeta.
  assert (negb (len (Split (MsgText message)) =? 2) = true) as ->.
  { apply negb_true_iff, Z.eqb_neq. unfold len. lia. }
  (rewrite ?reply_eq; reflexivity).
Qed.

(** X19. [/addmember user 1] without a node name: the member is written to the
    store and then the handler panics on [params[3]]; no reply is sent
    and no node is stored. *)
Theorem addmember_levelOne_without_node_panics jm jn message s cmd user b :
  Split (MsgText message) = [cmd; user; levelOne] ->
  jm (Member.mk user levelOne (MsgChat message)) = (b, nil_error) ->
  nextAnswer (backend s) = nil_error ->
  handleAddMember jm jn message s =
  (Panic "index out of range",
   mkSys (called (KvPut (kvKey telegramMembersDirectory user) b) (backend s))
         (telegram s)).
Proof.
  intros Hsplit Hjm Hkv.
  rewrite (handleAddMember_three jm jn message s cmd user levelOne Hsplit).
  rewrite Hjm, Hkv. reflexivity.
Qed.

(** X20. A message with fewer than three or more than four fields, or whose
    third field is not one of the levels 1, 2, 3, is answered with one
    reply and nothing else: the store is not called. *)
Theorem addmember_rejects_bad_input jm jn message s :
  (length (Split (MsgText message)) < 3)%nat \/
  (4 < length (Split (MsgText message)))%nat \/
  (exists level, Split (MsgText message) !! 2%nat = Some level /\
                 validLevel level = false) ->
  exists text,
    handleAddMember jm jn message s = (Return tt, replied message text s) /\
    (text = addMemberFormat \/ text = addMemberLevel).
Proof.
  intros H.
  destruct (Split (MsgText message)) as [|p0 [|p1 [|p2 [|p3 [|p4 rest]]]]] eqn:E.
  1-3: exists addMemberFormat; split; [|auto];
       apply handleAddMember_count; rewrite E; simpl; lia.
  - destruct H as [H|[H|(level & Hl & Hv)]]; [simpl in H; lia..|].
    injection Hl as <-. exists addMemberLevel. split; [|auto].
    rewrite (handleAddMember_three jm jn message s p0 p1 p2 E), Hv. reflexivity.
  - destruct H as [H|[H|(level & Hl & Hv)]]; [simpl in H; lia..|].
    injection Hl as <-. exists addMemberLevel. split; [|auto].
    rewrite (handleAddMember_four jm jn message s p0 p1 p2 p3 E), Hv. reflexivity.
  - exists addMemberFormat. split; [|auto].
    apply handleAddMember_count. rewrite E. simpl. lia.
Qed.

(** X21. Every node registered through [/addmember] is written under one and
    the same key: the handler leaves the node's id empty and [NodeStore.Add]
    builds the key from the id, so the key is the nodes directory followed
    by a slash, whatever the node's name and owner. *)
Theorem addmember_nodes_share_one_key jm jn message s cmd user name bm bn :
  Split (MsgText message) = [cmd; user; levelOne; name] ->
  jm (Member.mk user levelOne (MsgChat message)) = (bm, nil_error) ->
  jn (NodeExported.mk zeroString name user) = (bn, nil_error) ->
  nextAnswer (backend s) = nil_error ->
  kvCalls (backend (snd (handleAddMember jm jn message s)))
  = kvCalls (backend s)
    ++ [KvPut (kvKey telegramMembersDirectory user) bm; KvPut "telegram/nodes/" bn].
Proof.
  intros Hsplit Hjm Hjn Hkv.
  rewrite (handleAddMember_four jm jn message s cmd user levelOne name Hsplit).
  rewrite Hjm, Hkv.
  replace (validLevel levelOne) with true by reflexivity.
  replace (String.eqb levelOne levelOne) with true by reflexivity.
  rewrite Hjn. cbv beta iota zeta delta [nil_error].
  destruct (nextAnswer (called _ _)); unfold replied, called; cbn [snd backend kvCalls];
    rewrite <- app_assoc; reflexivity.
Qed.

(** X22. [/rmmember] never panics. With exactly one argument it makes one
    call on the store, the delete of the key of that member, and answers
    by what the store said; with any other number of fields it answers
    with the format text and calls nothing. No node is ever removed by
    it, so a node keeps naming its owner after the owner has been
    removed. *)
Theorem rmmember_deletes_one_member_key message s :
  fst (handleRemoveMember message s) = Return tt /\
  (forall cmd user,
     Split (MsgText message) = [cmd; user] ->
     snd (handleRemoveMember message s)
     = replied message
         (match nextAnswer (backend s) with
          | None => responseMember
          | Some _ => removeMemberFailed
          end)
         (mkSys (called (KvDelete (kvKey telegramMembersDirectory user)) (backend s))
                (telegram s))) /\
  (length (Split (MsgText message)) <> 2%nat ->
   snd (handleRemoveMember message s) = replied message removeMemberFormat s).
Proof.
  split; [|split].
  - destruct (Split (MsgText message)) as [|p0 [|p1 [|p2 rest]]] eqn:E.
    1,2,4: rewrite handleRemoveMember_count by (rewrite E; simpl; lia); reflexivity.
    rewrite (handleRemoveMember_two message s p0 p1 E). cbv zeta.
    destruct (nextAnswer (backend s)); reflexivity.
  - intros cmd user E.
    rewrite (handleRemoveMember_two message s cmd user E). cbv zeta.
    destruct (nextAnswer (backend s)); reflexivity.
  - intros H. rewrite (handleRemoveMember_count message s H). reflexivity.
Qed.

Lemma rmmember_deletes_one_member_key_witness :
  kvCalls (backend (snd (handleRemoveMember (SampleStore.said "/rmmember boss")
                           SampleStore.sys)))
  = [KvDelete "telegram/members/boss"] /\
  snd (handleRemoveMember (SampleStore.said "/rmmember") SampleStore.sys)
  = replied (SampleStore.said "/rmmember") removeMemberFormat SampleStore.sys.
Proof.
  destruct (rmmember_deletes_one_member_key (SampleStore.said "/rmmember boss")
              SampleStore.sys) as (_ & Hone & _).
  destruct (rmmember_deletes_one_member_key (SampleStore.said "/rmmember")
              SampleStore.sys) as (_ & _ & Hnone).
  split.
  - rewrite (Hone "/rmmember" "boss" eq_refl). reflexivity.
  - apply Hnone. simpl. lia.
Defined.

Lemma addmember_levelOne_without_node_panics_witness :
  handleAddMember SampleStore.jsonMember SampleStore.jsonNode
    (SampleStore.said "/addmember vu_long 1") SampleStore.sys
  = (Panic "index out of range",
     mkSys (called (KvPut "telegram/members/vu_long" "vu_long,1")
                   (backend SampleStore.sys))
           (telegram SampleStore.sys)).
Proof.
  apply (addmember_levelOne_without_node_panics SampleStore.jsonMember
           SampleStore.jsonNode (SampleStore.said "/addmember vu_long 1")
           SampleStore.sys "/addmember" "vu_long" "vu_long,1");
    reflexivity.
Defined.

Lemma addmember_rejects_bad_input_witness :
  exists text,
    handleAddMember SampleStore.jsonMember SampleStore.jsonNode
      (SampleStore.said "/addmember vu_long 4 httpd") SampleStore.sys
    = (Return tt,
       replied (SampleStore.said "/addmember vu_long 4 httpd") text SampleStore.sys) /\
    (text = addMemberFormat \/ text = addMemberLevel).
Proof.
  apply (addmember_rejects_bad_input SampleStore.jsonMember SampleStore.jsonNode
           (SampleStore.said "/addmember vu_long 4 httpd") SampleStore.sys).
  right. right. exists "4". split; reflexivity.
Defined.

Lemma addmember_nodes_share_one_key_witness :
  kvCalls (backend (snd (handleAddMember SampleStore.jsonMember SampleStore.jsonNode
                           (SampleStore.said "/addmember vu_long 1 httpd")
                           SampleStore.sys)))
  = [KvPut "telegram/members/vu_long" "vu_long,1"; KvPut "telegram/nodes/" "httpd,vu_long"].
Proof.
  apply (addmember_nodes_share_one_key SampleStore.jsonMember SampleStore.jsonNode
           (SampleStore.said "/addmember vu_long 1 httpd") SampleStore.sys
           "/addmember" "vu_long" "httpd" "vu_long,1" "httpd,vu_long");
    reflexivity.
Defined.

(** X23. Removal reaches what addition wrote. For a member of level 2 or 3,
    [/addmember user level] followed by [/rmmember user] makes exactly two
    calls on the store, a put and a delete of the same key, whatever the
    store answers to them. *)
Theorem addmember_then_rmmember_same_key jm jn add remove s cmd1 cmd2 user level b :
  Split (MsgText add) = [cmd1; user; level] ->
  Split (MsgText remove) = [cmd2; user] ->
  validLevel level = true ->
  level <> levelOne ->
  jm (Member.mk user level (MsgChat add)) = (b, nil_error) ->
  let s' := snd ((exec handleAddMember jm jn add in handleRemoveMember remove) s) in
  fst ((exec handleAddMember jm jn add in handleRemoveMember remove) s) = Return tt /\
  kvCalls (backend s')
  = kvCalls (backend s)
    ++ [KvPut (kvKey telegramMembersDirectory user) b;
        KvDelete (kvKey telegramMembersDirectory user)].
Proof.
  intros Hadd Hrm Hvalid Hne Hjm s'. subst s'. unfold bind.
  rewrite (handleAddMember_three jm jn add s cmd1 user level Hadd).
  rewrite Hvalid, Hjm. cbv beta iota zeta delta [nil_error].
  apply String.eqb_neq in Hne. rewrite Hne.
  destruct (nextAnswer (backend s));
    rewrite (handleRemoveMember_two remove _ cmd2 user Hrm); cbv zeta;
    destruct (nextAnswer _); (split; [reflexivity|]);
    unfold replied, called; cbn [snd backend kvCalls];
    rewrite <- app_assoc; reflexivity.
Qed.

Lemma addmember_then_rmmember_same_key_witness :
  kvCalls (backend (snd ((exec handleAddMember SampleStore.jsonMember SampleStore.jsonNode
                                 (SampleStore.said "/addmember boss 3")
                          in handleRemoveMember (SampleStore.said "/rmmember boss"))
                           SampleStore.sys)))
  = [KvPut "telegram/members/boss" "boss,3"; KvDelete "telegram/members/boss"].
Proof.
  refine (proj2 (addmember_then_rmmember_same_key SampleStore.jsonMember
                   SampleStore.jsonNode (SampleStore.said "/addmember boss 3")
                   (SampleStore.said "/rmmember boss") SampleStore.sys
                   "/addmember" "/rmmember" "boss" "3" "boss,3" _ _ _ _ _));
    try reflexivity.
  discriminate.
Defined.

(** ** The first revision of the directory *)

Lemma find_none_all {A} (f : A -> bool) xs :
  List.find f xs = None <-> (forall x, In x xs -> f x = false).
Proof.
  split.
  - intros H x Hx. exact (List.find_none f xs H x Hx).
  - induction xs as [|x xs IH]; intros H; [reflexivity|]. simpl.
    rewrite (H x (or_introl eq_refl)). apply IH. intros y Hy. apply H. right. exact Hy.
Qed.

(** X24. In the first revision a chat without a record is not an error:
    [GetMembersByChat] hands back the empty record with a nil error, and
    the random selection run on it panics, whatever the level asked for. *)
Theorem Legacy_unknown_chat_panics members chat level w :
  (forall ms, In ms members ->
     telebot.ID (Legacy.Members.Chat ms) <> telebot.ID chat) ->
  Legacy.GetMembersByChat (inl members) chat = (Legacy.zeroMembers, nil_error) /\
  fst (Legacy.GetRandomMemberByLevel
         (fst (Legacy.GetMembersByChat (inl members) chat)) level w)
  = Panic "invalid argument to Intn".
Proof.
  intros H.
  assert (Legacy.GetMembersByChat (inl members) chat = (Legacy.zeroMembers, nil_error)) as E.
  { unfold Legacy.GetMembersByChat.
    assert (List.find (fun ms => telebot.ID (Legacy.Members.Chat ms) =? telebot.ID chat)
              members = None) as ->; [|reflexivity].
    apply find_none_all. intros ms Hms. apply Z.eqb_neq, H, Hms. }
  split; [exact E|]. rewrite E. reflexivity.
Qed.

Lemma Legacy_unknown_chat_panics_witness :
  Legacy.GetMembersByChat (inl [Sample.legacyTwos ["carol"]]) (telebot.mkChat 8 "dev")
  = (Legacy.zeroMembers, nil_error).
Proof.
  apply (Legacy_unknown_chat_panics [Sample.legacyTwos ["carol"]]
           (telebot.mkChat 8 "dev") "2" (Sample.world 0 [] 0)).
  intros ms [<-|[]]. discriminate.
Defined.

(** The random selection of the first revision, in general: with fewer
    than two candidates at the level it panics; with two or more it
    returns the name of a candidate that is not at the last position. *)
Lemma Legacy_selection_behaviour (m : Legacy.Members.t) (level : string) (w : World) :
  let group :=
    List.filter (fun mr => String.eqb (Legacy.Member.Level mr) level)
                (Legacy.Members.Members m) in
  (len group <= 1 ->
   fst (Legacy.GetRandomMemberByLevel m level w) = Panic "invalid argument to Intn") /\
  (2 <= len group ->
   exists (k : nat) mr,
     (k < length group - 1)%nat /\
     group !! k = Some mr /\
     fst (Legacy.GetRandomMemberByLevel m level w)
     = Return (Legacy.Member.Username mr, nil_error)).
Proof.
  intros group. split.
  - intros H. unfold Legacy.GetRandomMemberByLevel. fold group.
    unfold bind, timeNow, Seed, ret, Intn. cbn [fst snd].
    destruct (Z.leb_spec (len group - 1) 0) as [Hle|Hgt]; [reflexivity|lia].
  - apply Legacy_selection_index.
Qed.

Lemma Legacy_selection_behaviour_witness :
  fst (Legacy.GetRandomMemberByLevel (Sample.legacyTwos ["carol"]) "2"
         (Sample.world 0 [] 9))
  = Panic "invalid argument to Intn" /\
  exists (k : nat) mr,
    (k < 2)%nat /\
    fst (Legacy.GetRandomMemberByLevel (Sample.legacyTwos ["carol"; "dave"; "erin"]) "2"
           (Sample.world 0 [] 9))
    = Return (Legacy.Member.Username mr, nil_error).
Proof.
  split.
  - apply (proj1 (Legacy_selection_behaviour (Sample.legacyTwos ["carol"]) "2"
                    (Sample.world 0 [] 9))).
    unfold len. simpl. lia.
  - destruct (proj2 (Legacy_selection_behaviour
                       (Sample.legacyTwos ["carol"; "dave"; "erin"]) "2"
                       (Sample.world 0 [] 9)))
      as (k & mr & Hk & _ & Hr).
    + unfold len. simpl. lia.
    + exists k, mr. split; [exact Hk|exact Hr].
Defined.

(** ** The gate in front of the commands *)

(** X25. A message that is not a service message and whose sender is not among
    the administrators is dropped: the call returns the error, the counter
    of dropped messages goes up by one, and nothing else happens; no
    handler runs and nothing is sent, whatever the text. *)
Theorem process_drops_strangers admins suffix commands message st :
  Sorted Z.le admins ->
  MsgIsService message = false ->
  ~ In (MsgSenderID message) admins ->
  process admins suffix commands message st
  = (Return (Some droppedMessage), bump "dropped" st).
Proof.
  intros Hs Hsvc Hout. unfold process. rewrite Hsvc.
  assert (isAdminID admins (MsgSenderID message) = false) as ->.
  { destruct (isAdminID admins (MsgSenderID message)) eqn:E; [|reflexivity].
    exfalso. apply Hout. apply (isAdminID_sorted_iff admins _ Hs). exact E. }
  reflexivity.
Qed.

Lemma process_drops_strangers_witness :
  let st := mkBotSt SampleStore.sys ∅ [] (fun _ => nil_error) in
  process [3; 8; 21] "@bot" ∅
          (mkMessage Sample.ops 9 "eve" "/addmember eve 3" false) st
  = (Return (Some droppedMessage), bump "dropped" st).
Proof.
  intros st.
  apply (process_drops_strangers [3; 8; 21] "@bot" ∅
           (mkMessage Sample.ops 9 "eve" "/addmember eve 3" false) st).
  - repeat constructor; lia.
  - reflexivity.
  - simpl. intros [H|[H|[H|[]]]]; discriminate H.
Defined.

Lemma Split_cons s : exists f fs, Split s = f :: fs.
Proof.
  induction s as [|c s IH]; simpl; [eauto|].
  destruct (Ascii.eqb c space); [eauto|].
  destruct IH as (f & fs & ->). eauto.
Qed.

Lemma plainWord_cons c s :
  plainWord (String c s) = true ->
  c <> space /\ c <> Ascii.ascii_of_nat 64 /\ plainWord s = true.
Proof.
  simpl. rewrite !andb_true_iff, !negb_true_iff, !Ascii.eqb_neq. tauto.
Qed.

Lemma Split_word cmd r :
  plainWord cmd = true ->
  r = EmptyString \/ (exists x, r = String space x) ->
  exists fs, Split (cmd +:+ r) = cmd :: fs.
Proof.
  intros Hp Hr. induction cmd as [|c cmd IH].
  - simpl. destruct Hr as [->|(x & ->)]; simpl; eauto.
  - apply plainWord_cons in Hp as (Hsp & _ & Hp).
    destruct (IH Hp) as [fs E]. simpl. rewrite E.
    apply Ascii.eqb_neq in Hsp. rewrite Hsp. eauto.
Qed.

Lemma removeFrom_skip old t s :
  removeFrom old (String.length t) (t +:+ s) = removeFrom old 0 s.
Proof.
  induction t as [|c t IH]; simpl; [|exact IH].
  destruct s; reflexivity.
Qed.

Lemma prefix_append old s : String.prefix old (old +:+ s) = true.
Proof.
  induction old as [|c old IH]; simpl; [destruct s; reflexivity|].
  destruct (Ascii.ascii_dec c c); [exact IH|congruence].
Qed.

Lemma removeFrom_own name s :
  removeFrom (suffixOf name) 0 (suffixOf name +:+ s) = removeFrom (suffixOf name) 0 s.
Proof.
  unfold suffixOf. generalize (Ascii.ascii_of_nat 64). intros a.
  change (String a name +:+ s) with (String a (name +:+ s)).
  cbn [removeFrom].
  rewrite (prefix_append (String a name) s
           : String.prefix (String a name) (String a (name +:+ s)) = true).
  replace (String.length (String a name) - 1)%nat with (String.length name)
    by (simpl; lia).
  apply removeFrom_skip.
Qed.

Lemma prefix_other name c t :
  c <> Ascii.ascii_of_nat 64 -> String.prefix (suffixOf name) (String c t) = false.
Proof.
  intros H. unfold suffixOf. cbn [String.prefix].
  destruct (Ascii.ascii_dec (Ascii.ascii_of_nat 64) c) as [E|_]; [congruence|reflexivity].
Qed.

Lemma removeFrom_word name cmd s :
  plainWord cmd = true ->
  removeFrom (suffixOf name) 0 (cmd +:+ s) = cmd +:+ removeFrom (suffixOf name) 0 s.
Proof.
  intros Hp. induction cmd as [|c cmd IH]; [reflexivity|].
  apply plainWord_cons in Hp as (_ & Hat & Hp).
  change (String c cmd +:+ s) with (String c (cmd +:+ s)).
  cbn [removeFrom]. rewrite (prefix_other name c _ Hat), (IH Hp). reflexivity.
Qed.

Lemma removeFrom_space name x :
  removeFrom (suffixOf name) 0 (String space x)
  = String space (removeFrom (suffixOf name) 0 x).
Proof.
  cbn [removeFrom]. rewrite prefix_other; [reflexivity|]. discriminate.
Qed.

(** X26. A command of an administrator reaches its handler with or without
    the bot's name attached to it, and with or without arguments. For a
    text made of a command word, optionally ["@" + name], and then nothing
    or a space and anything, [process] sends the chat action; when
    Telegram accepts it, [process] counts the command and runs the
    handler registered for the word, once; when Telegram rejects it,
    [process] returns that error and neither counts the command nor runs
    the handler. *)
Theorem process_runs_the_command admins botName commands message st
    cmd tag rest handler :
  Sorted Z.le admins ->
  MsgIsService message = false ->
  In (MsgSenderID message) admins ->
  plainWord cmd = true ->
  tag = EmptyString \/ tag = suffixOf botName ->
  rest = EmptyString \/ (exists x, rest = String space x) ->
  MsgText message = cmd +:+ tag +:+ rest ->
  commands !! cmd = Some handler ->
  process admins (suffixOf botName) commands message st
  = match chatActionAnswer st (length (chatActions st)) with
    | None =>
        (exec modify (bump cmd) in exec handler message in ret nil_error)
          (typed message st)
    | Some e => (Return (Some e), typed message st)
    end.
Proof.
  intros Hs Hsvc Hin Hword Htag Hrest Htext Hcmd. unfold process.
  rewrite Hsvc.
  apply (isAdminID_sorted_iff admins _ Hs) in Hin. rewrite Hin. cbn [negb].
  unfold bind at 1. unfold sendChatAction at 1.
  fold (typed message st).
  destruct (chatActionAnswer st (length (chatActions st))) as [e|];
    cbn [isNilErr negb nil_error]; [reflexivity|].
  cbv zeta.
  assert (exists fs, Split (RemoveAll (MsgText message) (suffixOf botName)) = cmd :: fs)
    as [fs Hsplit].
  { rewrite Htext. unfold RemoveAll, suffixOf at 1. fold (suffixOf botName).
    rewrite removeFrom_word by exact Hword.
    assert (removeFrom (suffixOf botName) 0 (tag +:+ rest)
            = removeFrom (suffixOf botName) 0 rest) as ->.
    { destruct Htag as [->| ->]; [reflexivity|apply removeFrom_own]. }
    apply Split_word; [exact Hword|].
    destruct Hrest as [->|(x & ->)]; [left; reflexivity|].
    right. rewrite removeFrom_space. eauto. }
  rewrite Hsplit. unfold bind at 1. unfold index at 1. cbn [Z.ltb Z.compare Z.to_nat lookup].
  simpl (_ !! _). unfold ret at 1. rewrite Hcmd. reflexivity.
Qed.

Lemma process_runs_the_command_witness :
  let st := mkBotSt SampleStore.sys ∅ [] (fun _ => nil_error) in
  let busy := mkBotSt SampleStore.sys ∅ [] (fun _ => Some "too many requests") in
  let table : gmap string (Message -> Go BotSt unit) :=
    <["/rmmember" := fun m => inSys (handleRemoveMember m)]> ∅ in
  let message := mkMessage Sample.ops 8 "ann" "/rmmember@bot boss" false in
  process [3; 8; 21] (suffixOf "bot") table message st
  = (exec modify (bump "/rmmember") in
     exec inSys (handleRemoveMember message) in ret nil_error) (typed message st) /\
  process [3; 8; 21] (suffixOf "bot") table message busy
  = (Return (Some "too many requests"), typed message busy).
Proof.
  intros st busy table message.
  split.
  - apply (process_runs_the_command [3; 8; 21] "bot" table message st
             "/rmmember" (suffixOf "bot") (String space "boss")
             (fun m => inSys (handleRemoveMember m))).
    + repeat constructor; lia.
    + reflexivity.
    + simpl. auto.
    + reflexivity.
    + right. reflexivity.
    + right. eauto.
    + reflexivity.
    + reflexivity.
  - apply (process_runs_the_command [3; 8; 21] "bot" table message busy
             "/rmmember" (suffixOf "bot") (String space "boss")
             (fun m => inSys (handleRemoveMember m))).
    + repeat constructor; lia.
    + reflexivity.
    + simpl. auto.
    + reflexivity.
    + right. reflexivity.
    + right. eauto.
    + reflexivity.
    + reflexivity.
Defined.

(** ** The webhook goroutine *)

(** What stops [sendWebhook] before it reaches any chat: a chat store
    that cannot be listed and a template that cannot be rendered make it
    skip the message, leaving everything as it is; a message without
    group label makes it panic at [Values()[0]], whatever the status and
    even with no chat subscribed. *)
Lemma webhook_before_the_chats marshal render w l :
  (forall e, kvChats l = inr e -> onWebhook marshal render w l = (Return tt, l)) /\
  (forall chats out e,
     kvChats l = inl chats -> render w = (out, Some e) ->
     onWebhook marshal render w l = (Return tt, l)) /\
  (forall chats out,
     kvChats l = inl chats -> render w = (out, nil_error) ->
     GroupLabelValues w = [] ->
     onWebhook marshal render w l = (Panic "index out of range", l)).
Proof.
  unfold onWebhook. repeat split.
  - intros e ->. reflexivity.
  - intros chats out e -> ->. reflexivity.
  - intros chats out -> -> ->. reflexivity.
Qed.

Lemma webhook_before_the_chats_witness :
  let l := mkHook ∅ (fun _ => Sample.case levelOne true) 0%nat [] (inl [])
                  (Sample.world 0 [] 0) in
  onWebhook Sample.marshal (fun _ => ("down", nil_error)) (mkWebhook "firing" [] []) l
  = (Panic "index out of range", l).
Proof.
  intros l.
  exact (proj2 (proj2 (webhook_before_the_chats Sample.marshal
                         (fun _ => ("down", nil_error)) (mkWebhook "firing" [] []) l))
           [] "down" eq_refl eq_refl eq_refl).
Defined.

Lemma Second_Resolved_eq a w :
  Second.Resolved (a, w) =
  match nextReply w with
  | inl _ => (Return nil_error, (resolved a, pushRequest (clearControls a) w))
  | inr e => (Return (Some e), (a, pushRequest (clearControls a) w))
  end.
Proof.
  unfold Second.Resolved, bind, this, inWorld, onSelf, modify, ret. cbn [fst snd].
  rewrite tgEditMessageReplyMakeup_eq. fold (clearControls a).
  destruct (nextReply w); reflexivity.
Qed.

Lemma accepting_push r w : accepting w -> accepting (pushRequest r w).
Proof. intros H n. apply H. Qed.

Lemma range_resolve refs l :
  accepting (hworld l) ->
  exists l',
    rangeOver refs (fun h => exec throughHook h Second.Resolved in ret false) l
      = (Return tt, l') /\
    remembered l' = remembered l /\
    (forall h, In h refs -> cases l' h = resolved (cases l h)) /\
    (forall h, ~ In h refs -> cases l' h = cases l h) /\
    length (outbox (hworld l')) = (length (outbox (hworld l)) + length refs)%nat /\
    accepting (hworld l').
Proof.
  revert l. induction refs as [|x refs IH]; intros l Hacc.
  - exists l. simpl. repeat split; auto; try (intros h []); lia.
  - cbn [rangeOver]. unfold bind at 1. unfold bind at 1. unfold throughHook at 1.
    rewrite Second_Resolved_eq. unfold nextReply.
    destruct (Hacc (length (outbox (hworld l)))) as [i ->]. cbn [ret].
    set (l1 := mkHook _ _ _ _ _ _).
    destruct (IH l1) as (l' & -> & Hrem & Hin & Hout & Hlen & Hacc').
    { subst l1. cbn [hworld]. apply accepting_push, Hacc. }
    exists l'. split; [reflexivity|]. split; [exact Hrem|]. split; [|split; [|split]].
    + intros h Hh. destruct (in_dec Nat.eq_dec h refs) as [Hr|Hr].
      * rewrite (Hin h Hr). subst l1. cbn [cases]. unfold poke.
        destruct (Nat.eqb h x) eqn:E; [|reflexivity].
        apply Nat.eqb_eq in E. subst h. reflexivity.
      * rewrite (Hout h Hr). destruct Hh as [->|Hh]; [|contradiction].
        subst l1. cbn [cases]. apply poke_eq.
    + intros h Hh. rewrite (Hout h); [|intros Hr; apply Hh; right; exact Hr].
      subst l1. cbn [cases]. apply poke_ne. intros ->. apply Hh. left. reflexivity.
    + rewrite Hlen. subst l1. cbn [hworld pushRequest outbox length].
      rewrite length_app. simpl. lia.
    + exact Hacc'.
Qed.

Lemma range_chats_resolve marshal w out id chats l :
  Status w = AlertResolved ->
  accepting (hworld l) ->
  let refs := lookupAlerts (remembered l) id in
  exists l',
    rangeOver chats (perChat marshal w out id) l = (Return tt, l') /\
    remembered l' = remembered l /\
    (chats <> [] -> forall h, In h refs -> cases l' h = resolved (cases l h)) /\
    (forall h, In h refs ->
               cases l' h = cases l h \/ cases l' h = resolved (cases l h)) /\
    (forall h, ~ In h refs -> cases l' h = cases l h) /\
    length (outbox (hworld l'))
      = (length (outbox (hworld l)) + length chats * length refs)%nat /\
    accepting (hworld l').
Proof.
  intros Hst. revert l. induction chats as [|chat chats IH]; intros l Hacc refs.
  - exists l. simpl. repeat split; auto; try congruence; lia.
  - cbn [rangeOver]. unfold bind at 1. unfold perChat at 1. rewrite Hst.
    replace (String.eqb AlertResolved AlertResolved) with true by reflexivity.
    fold refs.
    assert (exists l1,
              (if isNilSlice refs then ret false
               else exec rangeOver refs
                           (fun h => exec throughHook h Second.Resolved in ret false) in
                    ret false) l = (Return false, l1) /\
              remembered l1 = remembered l /\
              (forall h, In h refs -> cases l1 h = resolved (cases l h)) /\
              (forall h, ~ In h refs -> cases l1 h = cases l h) /\
              length (outbox (hworld l1)) = (length (outbox (hworld l)) + length refs)%nat /\
              accepting (hworld l1)) as (l1 & -> & Hrem1 & Hin1 & Hout1 & Hlen1 & Hacc1).
    { destruct refs as [|r0 refs0] eqn:E.
      - exists l. simpl. repeat split; auto; try (intros h []); lia.
      - cbn [isNilSlice]. destruct (range_resolve (r0 :: refs0) l Hacc)
          as (l1 & E1 & H1 & H2 & H3 & H4 & H5).
        exists l1. unfold bind at 1. rewrite E1. repeat split; auto. }
    destruct (IH l1 Hacc1) as (l' & -> & Hrem & Hne & Hin & Hout & Hlen & Hacc').
    rewrite Hrem1 in *. fold refs in Hne, Hin, Hout, Hlen.
    exists l'. split; [reflexivity|]. split; [congruence|].
    assert (forall h, In h refs -> cases l' h = resolved (cases l h)) as Hall.
    { intros h Hh. destruct (Hin h Hh) as [E|E]; rewrite E, (Hin1 h Hh); reflexivity. }
    repeat split.
    + intros _. exact Hall.
    + intros h Hh. right. apply Hall, Hh.
    + intros h Hh. rewrite (Hout h Hh). apply Hout1, Hh.
    + rewrite Hlen, Hlen1. simpl. lia.
    + exact Hacc'.
Qed.

(** X27. A resolved signal reaches every case the goroutine remembers under
    the id, duplicates of one firing included. For a resolved message
    that carries a group label and whose template renders, with the chat
    store listed and at least one chat subscribed, and with Telegram
    accepting the edits: each of those cases ends with its escalation
    flag cleared and nothing else changed, the other cases are untouched,
    and every case is edited once per subscribed chat. *)
Theorem resolved_webhook_stops_remembered_cases marshal render w l chats out id rest :
  Status w = AlertResolved ->
  kvChats l = inl chats ->
  chats <> [] ->
  render w = (out, nil_error) ->
  GroupLabelValues w = id :: rest ->
  accepting (hworld l) ->
  let refs := lookupAlerts (remembered l) id in
  let l' := snd (onWebhook marshal render w l) in
  fst (onWebhook marshal render w l) = Return tt /\
  (forall h, In h refs -> cases l' h = resolved (cases l h)) /\
  (forall h, ~ In h refs -> cases l' h = cases l h) /\
  length (outbox (hworld l'))
    = (length (outbox (hworld l)) + length chats * length refs)%nat.
Proof.
  intros Hst Hchats Hne Hout Hid Hacc refs l'. subst l' refs.
  assert (onWebhook marshal render w l = rangeOver chats (perChat marshal w out id) l)
    as ->.
  { unfold onWebhook. rewrite Hchats, Hout, Hid. reflexivity. }
  destruct (range_chats_resolve marshal w out id chats l Hst Hacc)
    as (l' & -> & _ & Hall & _ & Hsame & Hlen & _).
  cbn [fst snd]. repeat split; auto.
Qed.

Lemma resolved_webhook_stops_remembered_cases_witness :
  let l := mkHook (<["X" := [1%nat; 2%nat]]> ∅) (fun _ => Sample.case levelTwo true)
                  3%nat [] (inl [Sample.ops; telebot.mkChat 8 "dev"]) (Sample.world 0 [] 0) in
  let l' := snd (onWebhook Sample.marshal (fun _ => ("ok", nil_error))
                   (mkWebhook "resolved" ["X"] []) l) in
  cases l' 2%nat = resolved (Sample.case levelTwo true) /\
  length (outbox (hworld l')) = 4%nat.
Proof.
  intros l l'.
  destruct (resolved_webhook_stops_remembered_cases Sample.marshal
              (fun _ => ("ok", nil_error)) (mkWebhook "resolved" ["X"] []) l
              [Sample.ops; telebot.mkChat 8 "dev"] "ok" "X" [])
    as (_ & Hin & _ & Hlen); try reflexivity.
  - discriminate.
  - intros n. exists (Z.of_nat n). reflexivity.
  - split; [apply (Hin 2%nat); right; left; reflexivity|exact Hlen].
Defined.

Lemma Second_NewAlert_ok id chat alert w ms :
  kvMembers w = inl ms ->
  candidates chat levelOne ms <> [] ->
  exists w',
    Second.NewAlert id chat alert w
    = (Return (Some (mkHandleAlert id 0 chat alert levelOne (now w) true), nil_error), w') /\
    kvMembers w' = inl ms /\ now w' = now w.
Proof.
  intros Hkv Hne.
  destruct (pick_some (candidates chat levelOne ms) (randRaw w (randCalls w)) Hne)
    as (m & Hm & _).
  unfold Second.NewAlert. unfold bind at 1. unfold timeNow at 1. cbn [Chat Level].
  unfold bind at 1. rewrite (lookup_pick chat levelOne w ms m Hkv Hm).
  cbn [isNilErr negb nil_error]. unfold bind at 1. rewrite tgSendMessage_eq.
  unfold bind, modify, ret. eexists. split; [reflexivity|]. split; [exact Hkv|reflexivity].
Qed.

Lemma perChat_firing marshal w out id chat l jsAck jsFwd alert0 more ms :
  Status w = AlertFiring ->
  marshal (mkCallbackData strAcknowledgeData id) = (jsAck, nil_error) ->
  marshal (mkCallbackData strForwardData id) = (jsFwd, nil_error) ->
  Alerts w = alert0 :: more ->
  kvMembers (hworld l) = inl ms ->
  candidates chat levelOne ms <> [] ->
  exists w',
    perChat marshal w out id chat l
    = (Return false,
       mkHook (<[id := lookupAlerts (remembered l) id ++ [fresh l]]> (remembered l))
              (poke (fresh l)
                 (mkHandleAlert id 0 chat alert0 levelOne (now (hworld l)) true) (cases l))
              (S (fresh l)) (alertchan l ++ [fresh l]) (kvChats l) w') /\
    kvMembers w' = inl ms /\ now w' = now (hworld l).
Proof.
  intros Hst Hack Hfwd Hal Hkv Hne. unfold perChat. rewrite Hst.
  replace (String.eqb AlertFiring AlertResolved) with false by reflexivity.
  replace (String.eqb AlertFiring AlertFiring) with true by reflexivity.
  unfold NewCallbackData. cbn [isNilErr negb nil_error].
  rewrite Hack. cbn [isNilErr negb nil_error]. rewrite Hfwd. cbn [isNilErr negb nil_error].
  unfold bind at 1. unfold inHookWorld at 1. rewrite tgSendMessage_eq.
  set (w1 := pushRequest _ (hworld l)).
  unfold bind at 1. rewrite Hal.
  change (index (alert0 :: more) 0) with (@ret Hook _ alert0). unfold ret at 1.
  unfold bind at 1. unfold newAlertRef at 1. cbn [hworld cases fresh remembered alertchan kvChats].
  destruct (Second_NewAlert_ok id chat alert0 w1 ms Hkv Hne) as (w' & -> & Hkv' & Hnow).
  cbn [isNilErr negb nil_error]. unfold bind, modify, ret, handOver, remember.
  cbn [hworld cases fresh remembered alertchan kvChats].
  rewrite poke_eq. cbn [ID].
  exists w'. split; [reflexivity|]. split; [exact Hkv'|exact Hnow].
Qed.

Lemma range_chats_firing marshal w out id jsAck jsFwd alert0 more ms chats :
  Status w = AlertFiring ->
  marshal (mkCallbackData strAcknowledgeData id) = (jsAck, nil_error) ->
  marshal (mkCallbackData strForwardData id) = (jsFwd, nil_error) ->
  Alerts w = alert0 :: more ->
  (forall chat, In chat chats -> candidates chat levelOne ms <> []) ->
  forall l,
    kvMembers (hworld l) = inl ms ->
    exists l',
      rangeOver chats (perChat marshal w out id) l = (Return tt, l') /\
      alertchan l' = alertchan l ++ seq (fresh l) (length chats) /\
      lookupAlerts (remembered l') id
        = lookupAlerts (remembered l) id ++ seq (fresh l) (length chats) /\
      (forall (k : nat) chat,
         chats !! k = Some chat ->
         cases l' (fresh l + k)%nat
         = mkHandleAlert id 0 chat alert0 levelOne (now (hworld l)) true) /\
      (forall h, (h < fresh l)%nat -> cases l' h = cases l h).
Proof.
  intros Hst Hack Hfwd Hal. induction chats as [|chat chats IH]; intros Hcand l Hkv.
  - exists l. simpl. rewrite !app_nil_r. repeat split; auto. intros k chat H.
    rewrite lookup_nil in H. discriminate H.
  - cbn [rangeOver]. unfold bind at 1.
    destruct (perChat_firing marshal w out id chat l jsAck jsFwd alert0 more ms
                Hst Hack Hfwd Hal Hkv (Hcand chat (or_introl eq_refl)))
      as (w' & -> & Hkv' & Hnow).
    set (l1 := mkHook _ _ _ _ _ _).
    destruct (IH (fun c Hc => Hcand c (or_intror Hc)) l1 Hkv')
      as (l' & -> & Hchan & Hrem & Hnew & Hold).
    exists l'. split; [reflexivity|].
    subst l1. cbn [alertchan fresh remembered cases hworld] in *.
    split; [|split; [|split]].
    + rewrite Hchan, <- app_assoc. reflexivity.
    + rewrite Hrem, lookupAlerts_insert, <- app_assoc. reflexivity.
    + intros k c Hk. destruct k as [|k].
      * injection Hk as <-. rewrite Nat.add_0_r, Hold by lia. apply poke_eq.
      * simpl in Hk. replace (fresh l + S k)%nat with (S (fresh l) + k)%nat by lia.
        rewrite (Hnew k c Hk), Hnow. reflexivity.
    + intros h Hh. rewrite Hold by lia. apply poke_ne. lia.
Qed.

Lemma intake_same_id deref (reg : gmap string (list Ref)) id r refs :
  ID (deref r) = id ->
  (forall h, In h refs -> ID (deref h) = id) ->
  lookupAlerts reg id = [] ->
  lookupAlerts (fold_left (intake deref) (r :: refs) reg) id = [r].
Proof.
  intros Hr Hrefs Hfree. cbn [fold_left].
  rewrite <- Hr in Hfree. rewrite (intake_fresh deref reg r Hfree). rewrite Hr.
  assert (lookupAlerts (<[id := [r]]> reg) id = [r]) as H by apply lookupAlerts_insert.
  revert H. generalize (<[id := [r]]> reg). clear Hfree.
  induction refs as [|h refs IH]; intros reg' H; [exact H|].
  cbn [fold_left]. rewrite (intake_known deref reg' h).
  - apply IH; [|exact H]. intros x Hx. apply Hrefs. right. exact Hx.
  - rewrite (Hrefs h (or_introl eq_refl)), H. discriminate.
Qed.

Lemma firing_webhook_aux marshal render w l chats out id rest jsAck jsFwd alert0 more ms :
  Status w = AlertFiring ->
  kvChats l = inl chats ->
  render w = (out, nil_error) ->
  GroupLabelValues w = id :: rest ->
  Alerts w = alert0 :: more ->
  marshal (mkCallbackData strAcknowledgeData id) = (jsAck, nil_error) ->
  marshal (mkCallbackData strForwardData id) = (jsFwd, nil_error) ->
  kvMembers (hworld l) = inl ms ->
  (forall chat, In chat chats -> candidates chat levelOne ms <> []) ->
  fst (onWebhook marshal render w l) = Return tt /\
  alertchan (snd (onWebhook marshal render w l))
    = alertchan l ++ seq (fresh l) (length chats) /\
  lookupAlerts (remembered (snd (onWebhook marshal render w l))) id
    = lookupAlerts (remembered l) id ++ seq (fresh l) (length chats) /\
  (forall (k : nat) chat,
     chats !! k = Some chat ->
     cases (snd (onWebhook marshal render w l)) (fresh l + k)%nat
     = mkHandleAlert id 0 chat alert0 levelOne (now (hworld l)) true) /\
  (forall h, (h < fresh l)%nat ->
             cases (snd (onWebhook marshal render w l)) h = cases l h).
Proof.
  intros Hst Hchats Hout Hid Hal Hack Hfwd Hkv Hcand.
  assert (onWebhook marshal render w l = rangeOver chats (perChat marshal w out id) l)
    as ->.
  { unfold onWebhook. rewrite Hchats, Hout, Hid. reflexivity. }
  destruct (range_chats_firing marshal w out id jsAck jsFwd alert0 more ms chats
              Hst Hack Hfwd Hal Hcand l Hkv) as (l' & -> & H1 & H2 & H3 & H4).
  cbn [fst snd]. auto.
Qed.

(** X28. A firing signal opens one case per subscribed chat, all under the
    same id. For a firing message that carries a group label and an
    alert, whose template renders and whose two payloads are encoded,
    with the chat store and the member store listed: when every chat has
    a member at level one, each chat gets a fresh case at level one with
    its escalation flag set, and every one of them is sent to the
    dispatch loop and remembered for the resolved signal, in the order of
    the chats; the cases that existed before are untouched. *)
Theorem firing_webhook_opens_a_case_per_chat marshal render w l chats out id rest
    jsAck jsFwd alert0 more ms :
  Status w = AlertFiring ->
  kvChats l = inl chats ->
  render w = (out, nil_error) ->
  GroupLabelValues w = id :: rest ->
  Alerts w = alert0 :: more ->
  marshal (mkCallbackData strAcknowledgeData id) = (jsAck, nil_error) ->
  marshal (mkCallbackData strForwardData id) = (jsFwd, nil_error) ->
  kvMembers (hworld l) = inl ms ->
  (forall chat, In chat chats -> candidates chat levelOne ms <> []) ->
  let l' := snd (onWebhook marshal render w l) in
  fst (onWebhook marshal render w l) = Return tt /\
  alertchan l' = alertchan l ++ seq (fresh l) (length chats) /\
  lookupAlerts (remembered l') id
    = lookupAlerts (remembered l) id ++ seq (fresh l) (length chats) /\
  (forall (k : nat) chat,
     chats !! k = Some chat ->
     cases l' (fresh l + k)%nat
     = mkHandleAlert id 0 chat alert0 levelOne (now (hworld l)) true) /\
  (forall h, (h < fresh l)%nat -> cases l' h = cases l h).
Proof.
  intros Hst Hchats Hout Hid Hal Hack Hfwd Hkv Hcand l'.
  exact (firing_webhook_aux marshal render w l chats out id rest jsAck jsFwd alert0 more ms
           Hst Hchats Hout Hid Hal Hack Hfwd Hkv Hcand).
Qed.

(** X29. Of the cases one firing signal opens, the dispatch loop registers
    only the first. For a firing message that carries a group label and
    an alert, whose template renders and whose two payloads are encoded,
    with both stores listed and a member at level one in every chat, the
    channel empty before, two or more chats subscribed and the id free,
    the loop that receives the cases from the channel ends with the first
    chat's case alone under the id, so the buttons of every chat act on
    that case; the cases of the other chats keep escalating and are
    reachable only through the resolved signal, which remembers them all. *)
Theorem only_the_first_chat_case_is_registered marshal render w l chat chats out id rest
    jsAck jsFwd alert0 more ms (reg : gmap string (list Ref)) :
  Status w = AlertFiring ->
  kvChats l = inl (chat :: chats) ->
  render w = (out, nil_error) ->
  GroupLabelValues w = id :: rest ->
  Alerts w = alert0 :: more ->
  marshal (mkCallbackData strAcknowledgeData id) = (jsAck, nil_error) ->
  marshal (mkCallbackData strForwardData id) = (jsFwd, nil_error) ->
  kvMembers (hworld l) = inl ms ->
  (forall c, In c (chat :: chats) -> candidates c levelOne ms <> []) ->
  alertchan l = [] ->
  lookupAlerts reg id = [] ->
  let l' := snd (onWebhook marshal render w l) in
  lookupAlerts (fold_left (intake (cases l')) (alertchan l') reg) id = [fresh l] /\
  length (lookupAlerts (remembered l') id)
    = (length (lookupAlerts (remembered l) id) + S (length chats))%nat /\
  (forall (k : nat) c,
     chats !! k = Some c ->
     Chat (cases l' (S (fresh l + k))) = c /\
     AutoForwardFlag (cases l' (S (fresh l + k))) = true).
Proof.
  intros Hst Hchats Hout Hid Hal Hack Hfwd Hkv Hcand Hchan Hfree l'. subst l'.
  destruct (firing_webhook_aux marshal render w l (chat :: chats) out id rest
              jsAck jsFwd alert0 more ms Hst Hchats Hout Hid Hal Hack Hfwd Hkv Hcand)
    as (_ & Hc & Hrem & Hnew & _).
  rewrite Hc, Hrem, Hchan. cbn [app length seq].
  assert (forall h, In h (seq (fresh l) (S (length chats))) ->
                    ID (cases (snd (onWebhook marshal render w l)) h) = id) as Hids.
  { intros h Hh. apply in_seq in Hh.
    assert (exists k, h = (fresh l + k)%nat /\ (k < S (length chats))%nat)
      as (k & -> & Hk) by (exists (h - fresh l)%nat; lia).
    destruct (lookup_lt_is_Some_2 (chat :: chats) k) as [c Hc']; [simpl; lia|].
    rewrite (Hnew k c Hc'). reflexivity. }
  split; [|split].
  - apply intake_same_id.
    + apply Hids. left. reflexivity.
    + intros h Hh. apply Hids. right. exact Hh.
    + exact Hfree.
  - rewrite length_app. simpl. rewrite length_seq. reflexivity.
  - intros k c Hk.
    replace (S (fresh l + k)) with (fresh l + S k)%nat by lia.
    rewrite (Hnew (S k) c Hk). split; reflexivity.
Qed.

Lemma firing_webhook_opens_a_case_per_chat_witness :
  let l' := snd (onWebhook Sample.marshal SampleHook.render SampleHook.firing
                   SampleHook.hook) in
  alertchan l' = [1%nat; 2%nat] /\
  lookupAlerts (remembered l') "X" = [1%nat; 2%nat].
Proof.
  intros l'.
  destruct (firing_webhook_opens_a_case_per_chat Sample.marshal SampleHook.render
              SampleHook.firing SampleHook.hook [Sample.ops; SampleHook.dev]
              "firing" "X" [] "Acknowledge:X" "Forward:X" Sample.theAlert []
              [Sample.alice; SampleHook.zed])
    as (_ & Hc & Hr & _); try reflexivity.
  - intros chat [<-|[<-|[]]]; discriminate.
  - split; [exact Hc|exact Hr].
Defined.

Lemma only_the_first_chat_case_is_registered_witness :
  let l' := snd (onWebhook Sample.marshal SampleHook.render SampleHook.firing
                   SampleHook.hook) in
  lookupAlerts (fold_left (intake (cases l')) (alertchan l') ∅) "X" = [1%nat] /\
  AutoForwardFlag (cases l' 2%nat) = true.
Proof.
  intros l'.
  destruct (only_the_first_chat_case_is_registered Sample.marshal SampleHook.render
              SampleHook.firing SampleHook.hook Sample.ops [SampleHook.dev]
              "firing" "X" [] "Acknowledge:X" "Forward:X" Sample.theAlert []
              [Sample.alice; SampleHook.zed] ∅)
    as (Hreg & _ & Hrest); try reflexivity.
  - intros chat [<-|[<-|[]]]; discriminate.
  - split; [exact Hreg|]. exact (proj2 (Hrest 0%nat SampleHook.dev eq_refl)).
Defined.

(** ** Stopping a case in the revision bot.go calls *)

(** X30. In that revision [Acknowledge] and [Resolved] edit the message first
    and return at once when Telegram rejects the edit: the case is left
    exactly as it was, its escalation flag still set, and no notice is
    sent. Only an accepted edit clears the flag. *)
Theorem Second_stop_needs_the_edit callback a w :
  (forall e, nextReply w = inr e ->
     Second.Acknowledge callback (a, w)
       = (Return (Some e), (a, pushRequest (clearControls a) w)) /\
     Second.Resolved (a, w)
       = (Return (Some e), (a, pushRequest (clearControls a) w))) /\
  (forall i, nextReply w = inl i ->
     fst (snd (Second.Acknowledge callback (a, w))) = setAutoForwardFlag false a /\
     fst (snd (Second.Resolved (a, w))) = setAutoForwardFlag false a).
Proof.
  split.
  - intros e He. split.
    + unfold Second.Acknowledge, bind, this, inWorld. cbn [fst snd].
      rewrite tgEditMessageReplyMakeup_eq, He. reflexivity.
    + rewrite Second_Resolved_eq, He. reflexivity.
  - intros i Hi. split.
    + unfold Second.Acknowledge, bind, this, inWorld, onSelf, modify, ret. cbn [fst snd].
      rewrite tgEditMessageReplyMakeup_eq, Hi. cbn [isNilErr negb nil_error fst snd].
      rewrite tgSendMessage_eq. reflexivity.
    + rewrite Second_Resolved_eq, Hi. reflexivity.
Qed.

Lemma Second_stop_needs_the_edit_witness :
  let w := mkWorld 0 (inl []) (inl []) (fun _ => 0) 0 (fun _ => inr "message not found")
                   [] [] in
  let a := setMessageID 0 (Sample.case levelOne true) in
  Second.Resolved (a, w)
    = (Return (Some "message not found"), (a, pushRequest (clearControls a) w)) /\
  fst (snd (Second.Resolved (a, Sample.world 0 [] 0))) = setAutoForwardFlag false a.
Proof.
  intros w a.
  destruct (Second_stop_needs_the_edit Sample.bob a w) as [Hrej _].
  destruct (Second_stop_needs_the_edit Sample.bob a (Sample.world 0 [] 0)) as [_ Hacc].
  exact (conj (proj2 (Hrej "message not found" eq_refl)) (proj2 (Hacc 0 eq_refl))).
Defined.
